(** * MicroShopGen: feature selection, configuration store and generator dispatch

    A shallow embedding of [microshopgen.py] and [generators/inventory.py].
    Python objects are modelled as values of [pyval], Python strings as
    lists of Unicode code points, exceptions as values of [exn], and the
    effects of the program (files, directories, standard output) as a state
    and exception monad over a [world]. The functions of [os] and [json]
    the program calls are modelled next to it. The text menu
    ([display_features], [interactive_cli]) and the command line ([main])
    are not part of the development. *)

From Stdlib Require Import NArith ZArith List String Ascii Lia Zify DecimalString.
From stdpp Require Import base gmap list.
Import ListNotations.

Local Set Warnings "-register-all".
Local Open Scope N_scope.

(** ** Python strings *)

(** A [str] is a sequence of code points. *)
Abbreviation pystr := (list N).

(** A string literal whose characters are all below 256. *)
Definition py (s : string) : pystr := map N_of_ascii (list_ascii_of_string s).

(** The same, with every backquote of the literal standing for a double
    quote (code point 34). *)
Definition pyq (s : string) : pystr :=
  map (fun c => if c =? 96 then 34 else c) (py s).

Arguments py : simpl never.
Arguments pyq : simpl never.

Definition newline : pystr := [10].

(** [sep.join(parts)] *)
Fixpoint join (sep : pystr) (parts : list pystr) : pystr :=
  match parts with
  | [] => []
  | [p] => p
  | p :: rest => p ++ sep ++ join sep rest
  end.

Definition pystr_eqb (s t : pystr) : bool := bool_decide (s = t).

(** [needle in hay] on two strings: substring test. *)
Fixpoint starts_with (prefix s : pystr) : bool :=
  match prefix, s with
  | [], _ => true
  | _ :: _, [] => false
  | a :: p, b :: t => (a =? b) && starts_with p t
  end.

Fixpoint ends_with_char (c : N) (s : pystr) : bool :=
  match s with
  | [] => false
  | [a] => a =? c
  | _ :: t => ends_with_char c t
  end.

Fixpoint is_substring (needle hay : pystr) : bool :=
  starts_with needle hay ||
  match hay with
  | [] => false
  | _ :: t => is_substring needle t
  end.

(** ** Python values *)

(** The values [json.load] can return. A dict keeps its insertion order and
    its keys are strings. A float is carried as the literal it was read from. *)
Inductive pyval :=
| PNone
| PBool (b : bool)
| PInt (z : Z)
| PFloat (literal : pystr)
| PStr (s : pystr)
| PList (items : list pyval)
| PDict (pairs : list (pystr * pyval)).

(** Lookup in an insertion-ordered dict with string keys. *)
Fixpoint assoc {V : Type} (k : pystr) (d : list (pystr * V)) : option V :=
  match d with
  | [] => None
  | (k', v) :: rest => if pystr_eqb k' k then Some v else assoc k rest
  end.

(** [d[k] = v]: an existing key keeps its position, a new key goes last. *)
Fixpoint dict_set {V : Type} (k : pystr) (v : V) (d : list (pystr * V))
  : list (pystr * V) :=
  match d with
  | [] => [(k, v)]
  | (k', v') :: rest =>
      if pystr_eqb k' k then (k, v) :: rest else (k', v') :: dict_set k v rest
  end.

Definition keys {V : Type} (d : list (pystr * V)) : list pystr := map fst d.

(** [dict(pairs)] *)
Definition dict_of_pairs {V : Type} (pairs : list (pystr * V)) : list (pystr * V) :=
  fold_left (fun d kv => dict_set (fst kv) (snd kv) d) pairs [].

(** [v == s] for a string [s]: only an equal string compares equal. *)
Definition eq_str (s : pystr) (v : pyval) : bool :=
  match v with
  | PStr t => pystr_eqb t s
  | _ => false
  end.

(** [l.remove(s)] on the items of a list: the first equal item goes. *)
Fixpoint remove_first (s : pystr) (l : list pyval) : option (list pyval) :=
  match l with
  | [] => None
  | x :: rest =>
      if eq_str s x then Some rest
      else option_map (cons x) (remove_first s rest)
  end.

(** ** Exceptions and the monad of effects *)

Inductive exn :=
| KeyError (key : pystr)
| TypeError
| AttributeError
| ValueError
| JSONDecodeError
| FileNotFoundError
| NotADirectoryError
| IsADirectoryError
| FileExistsError
| NoSpaceError.

Inductive result (A : Type) :=
| Ok (a : A)
| Raise (e : exn).
Arguments Ok {A} a.
Arguments Raise {A} e.

Definition M (S A : Type) : Type := S -> result A * S.

Definition ret {S A} (a : A) : M S A := fun s => (Ok a, s).

Definition bind {S A B} (m : M S A) (k : A -> M S B) : M S B :=
  fun s =>
    match m s with
    | (Ok a, s') => k a s'
    | (Raise e, s') => (Raise e, s')
    end.

Definition raise {S A} (e : exn) : M S A := fun s => (Raise e, s).

Definition lift_result {S A} (r : result A) : M S A := fun s => (r, s).

Definition get {S} : M S S := fun s => (Ok s, s).

Definition put {S} (s : S) : M S unit := fun _ => (Ok tt, s).

Notation "'let*' x ':=' m 'in' k" := (bind m (fun x => k))
  (at level 10, x name, m at level 100, k at level 200, only parsing).
Notation "m ';;' k" := (bind m (fun _ => k))
  (at level 100, k at level 200, right associativity, only parsing).

(** Running a computation on the world from inside a method, whose state is
    the object together with the world. *)
Definition in_world {O W A} (m : M W A) : M (O * W) A :=
  fun s =>
    match m (snd s) with
    | (r, w') => (r, (fst s, w'))
    end.

Definition self {O W} : M (O * W) O := fun s => (Ok (fst s), s).

Definition set_self {O W} (o : O) : M (O * W) unit := fun s => (Ok tt, (o, snd s)).

(** [for x in l: body x] *)
Fixpoint for_each {S A} (l : list A) (body : A -> M S unit) : M S unit :=
  match l with
  | [] => ret tt
  | x :: rest => body x ;; for_each rest body
  end.

(** ** The file system, the standard output and the device *)

(** A location is the list of names from the root, innermost first; the
    root is []. There are directories and regular text files, no links. *)
Abbreviation loc := (list pystr).

Inductive node :=
| Dir
| File (text : pystr).

(** [budget] is the number of characters the device still accepts before a
    write fails for lack of space; [None] when it never does. *)
Record world := World {
  cwd : loc;
  fs : gmap loc node;
  stdout : list pystr;
  budget : option nat
}.

Definition set_fs (t : gmap loc node) (w : world) : world :=
  World (cwd w) t (stdout w) (budget w).

Definition set_budget (b : option nat) (w : world) : world :=
  World (cwd w) (fs w) (stdout w) b.

(** The world after one more line on the standard output. *)
Definition printed (line : pystr) (w : world) : world :=
  World (cwd w) (fs w) (stdout w ++ [line]) (budget w).

(** [print(line)] *)
Definition print (line : pystr) : M world unit :=
  fun w => (Ok tt, printed line w).

(** [p.split("/")] *)
Fixpoint split_slash (p : pystr) : list pystr :=
  match p with
  | [] => [[]]
  | c :: t =>
      if c =? 47 then [] :: split_slash t
      else match split_slash t with
           | [] => [[c]]
           | h :: r => (c :: h) :: r
           end
  end.

(** One step of path resolution from the directory [cur]. *)
Definition step (cur : loc) (nm : pystr) : loc :=
  if pystr_eqb nm [] || pystr_eqb nm (py ".") then cur
  else if pystr_eqb nm (py "..") then tail cur
  else nm :: cur.

(** Walks the names of a path: every location a name is looked up in has to
    be a directory. The location reached last is returned unchecked. *)
Fixpoint walk (t : gmap loc node) (cur : loc) (names : list pystr) : result loc :=
  match names with
  | [] => Ok cur
  | nm :: rest =>
      match t !! cur with
      | Some Dir => walk t (step cur nm) rest
      | Some (File _) => Raise NotADirectoryError
      | None => Raise FileNotFoundError
      end
  end.

Definition resolve (w : world) (p : pystr) : result loc :=
  match p with
  | [] => Raise FileNotFoundError
  | c :: _ => walk (fs w) (if c =? 47 then [] else cwd w) (split_slash p)
  end.

(** [os.path.exists(p)] *)
Definition os_path_exists (p : pystr) : M world bool :=
  fun w =>
    match resolve w p with
    | Ok l => (Ok (bool_decide (is_Some (fs w !! l))), w)
    | Raise _ => (Ok false, w)
    end.

(** [os.path.join(a, b)] *)
Definition os_path_join (a b : pystr) : pystr :=
  if starts_with [47] b then b
  else if pystr_eqb a [] || ends_with_char 47 a then a ++ b
  else a ++ [47] ++ b.

(** [os.makedirs(p, exist_ok=True)]: every missing directory on the way is
    created, an existing directory is accepted, a file in the way is not. *)
Fixpoint makedirs_from (t : gmap loc node) (cur : loc) (names : list pystr)
  : result (gmap loc node) :=
  match t !! cur, names with
  | Some (File _), [] => Raise FileExistsError
  | Some (File _), _ :: _ => Raise NotADirectoryError
  | Some Dir, [] => Ok t
  | None, [] => Ok (<[cur := Dir]> t)
  | Some Dir, nm :: rest => makedirs_from t (step cur nm) rest
  | None, nm :: rest => makedirs_from (<[cur := Dir]> t) (step cur nm) rest
  end.

Definition os_makedirs (p : pystr) : M world unit :=
  fun w =>
    match p with
    | [] => (Raise FileNotFoundError, w)
    | c :: _ =>
        match makedirs_from (fs w) (if c =? 47 then [] else cwd w) (split_slash p) with
        | Ok t => (Ok tt, set_fs t w)
        | Raise e => (Raise e, w)
        end
    end.

(** [open(p, "w")]: the file is created, or emptied when it exists. The
    handle is the location of the file. *)
Definition open_w (p : pystr) : M world loc :=
  fun w =>
    match resolve w p with
    | Raise e => (Raise e, w)
    | Ok l =>
        match fs w !! l with
        | Some Dir => (Raise IsADirectoryError, w)
        | _ => (Ok l, set_fs (<[l := File []]> (fs w)) w)
        end
    end.

Definition append_text (f : loc) (text : pystr) (t : gmap loc node) : gmap loc node :=
  match t !! f with
  | Some (File old) => <[f := File (old ++ text)]> t
  | _ => t
  end.

(** [f.write(text)] followed by the flush of the handle: when the device
    accepts fewer characters than [text] has, those reach the file and the
    write fails. *)
Definition write (f : loc) (text : pystr) : M world unit :=
  fun w =>
    match budget w with
    | None => (Ok tt, set_fs (append_text f text (fs w)) w)
    | Some b =>
        if (length text <=? b)%nat
        then (Ok tt, set_budget (Some (b - length text)%nat)
                       (set_fs (append_text f text (fs w)) w))
        else (Raise NoSpaceError,
               set_budget (Some O) (set_fs (append_text f (take b text) (fs w)) w))
    end.

(** [open(p, "r")] and [f.read()] *)
Definition read_text (p : pystr) : M world pystr :=
  fun w =>
    match resolve w p with
    | Raise e => (Raise e, w)
    | Ok l =>
        match fs w !! l with
        | Some (File text) => (Ok text, w)
        | Some Dir => (Raise IsADirectoryError, w)
        | None => (Raise FileNotFoundError, w)
        end
    end.

(** The text of the file a path leads to, if any. *)
Definition file_at (w : world) (p : pystr) : option pystr :=
  match resolve w p with
  | Ok l => match fs w !! l with Some (File text) => Some text | _ => None end
  | Raise _ => None
  end.

(** ** The [json] module *)

Section Json.

(** [repr] of the float a literal denotes (the model keeps a float as the
    literal it was read from). *)
Variable float_repr : pystr -> pystr.

(** *** [json.dumps(obj, indent=2)] *)

Definition hex_digit (n : N) : N := if n <? 10 then 48 + n else 87 + n.

(** ['{0:04x}'.format(n)] *)
Definition hex4 (n : N) : pystr :=
  [hex_digit (n / 4096 mod 16); hex_digit (n / 256 mod 16);
   hex_digit (n / 16 mod 16); hex_digit (n mod 16)].

(** The replacement of one character under [ensure_ascii]: the quote, the
    backslash and everything outside the printable ASCII range are escaped,
    a character beyond the basic plane as a surrogate pair. *)
Definition escape_char (c : N) : pystr :=
  if c =? 34 then [92; 34]
  else if c =? 92 then [92; 92]
  else if c =? 10 then [92; 110]
  else if c =? 13 then [92; 114]
  else if c =? 9 then [92; 116]
  else if c =? 12 then [92; 102]
  else if c =? 8 then [92; 98]
  else if (32 <=? c) && (c <=? 126) then [c]
  else if c <? 65536 then [92; 117] ++ hex4 c
  else
    let n := c - 65536 in
    [92; 117] ++ hex4 (N.lor 55296 (N.land (N.shiftr n 10) 1023)) ++
    [92; 117] ++ hex4 (N.lor 56320 (N.land n 1023)).

Definition encode_str (s : pystr) : pystr :=
  [34] ++ flat_map escape_char s ++ [34].

Definition encode_int (z : Z) : pystr :=
  py (DecimalString.NilZero.string_of_int (Z.to_int z)).

(** A newline and the indentation of nesting depth [level]. *)
Definition newline_indent (level : nat) : pystr :=
  10 :: repeat 32 (2 * level)%nat.

Fixpoint encode (level : nat) (v : pyval) : pystr :=
  match v with
  | PNone => py "null"
  | PBool true => py "true"
  | PBool false => py "false"
  | PInt z => encode_int z
  | PFloat literal => float_repr literal
  | PStr s => encode_str s
  | PList [] => py "[]"
  | PList items =>
      [91] ++ newline_indent (S level) ++
      join ([44] ++ newline_indent (S level)) (map (encode (S level)) items) ++
      newline_indent level ++ [93]
  | PDict [] => py "{}"
  | PDict pairs =>
      [123] ++ newline_indent (S level) ++
      join ([44] ++ newline_indent (S level))
        (map (fun kv => encode_str (fst kv) ++ py ": " ++ encode (S level) (snd kv)) pairs) ++
      newline_indent level ++ [125]
  end.

Definition json_dumps (obj : pyval) : pystr := encode 0 obj.

(** [json.dump(obj, f, indent=2)]: the chunks of the encoder, written to the
    handle one after the other, make up [json_dumps obj]. *)
Definition json_dump (obj : pyval) (f : loc) : M world unit :=
  write f (json_dumps obj).

End Json.

(** *** [json.loads(text)] *)

Definition is_ws (c : N) : bool :=
  (c =? 32) || (c =? 9) || (c =? 10) || (c =? 13).

Fixpoint skip_ws (s : pystr) : pystr :=
  match s with
  | [] => []
  | c :: t => if is_ws c then skip_ws t else s
  end.

Definition is_digit (c : N) : bool := (48 <=? c) && (c <=? 57).

Definition hex_value (c : N) : option N :=
  if is_digit c then Some (c - 48)
  else if (97 <=? c) && (c <=? 102) then Some (c - 87)
  else if (65 <=? c) && (c <=? 70) then Some (c - 55)
  else None.

(** The four hexadecimal digits of a [\u] escape. *)
Definition decode_hex4 (s : pystr) : option (N * pystr) :=
  match s with
  | a :: b :: c :: d :: rest =>
      match hex_value a, hex_value b, hex_value c, hex_value d with
      | Some x, Some y, Some z, Some u => Some (4096 * x + 256 * y + 16 * z + u, rest)
      | _, _, _, _ => None
      end
  | _ => None
  end.

Definition is_high_surrogate (u : N) : bool := (55296 <=? u) && (u <=? 56319).

Definition is_low_surrogate (u : N) : bool := (56320 <=? u) && (u <=? 57343).

Definition join_surrogates (hi lo : N) : N :=
  65536 + (N.lor (N.shiftl (N.land hi 1023) 10) (N.land lo 1023)).

(** The low half of a surrogate pair, when [s] starts with its escape. *)
Definition low_surrogate_escape (s : pystr) : option (N * pystr) :=
  match s with
  | a :: b :: t =>
      if (a =? 92) && (b =? 117) then
        match decode_hex4 t with
        | Some (lo, rest) => if is_low_surrogate lo then Some (lo, rest) else None
        | None => None
        end
      else None
  | _ => None
  end.

(** The character a one-letter escape stands for. *)
Definition unescape (e : N) : option N :=
  if e =? 34 then Some 34
  else if e =? 92 then Some 92
  else if e =? 47 then Some 47
  else if e =? 98 then Some 8
  else if e =? 102 then Some 12
  else if e =? 110 then Some 10
  else if e =? 114 then Some 13
  else if e =? 116 then Some 9
  else None.

Definition cons_fst {A B} (a : A) (r : result (list A * B)) : result (list A * B) :=
  match r with
  | Ok (l, b) => Ok (a :: l, b)
  | Raise e => Raise e
  end.

(** The scanner of a string, in strict mode, from the character after the
    opening quote: the string and the text after the closing quote. *)
Fixpoint scanstring (fuel : nat) (s : pystr) : result (pystr * pystr) :=
  match fuel with
  | O => Raise JSONDecodeError
  | S fuel =>
      match s with
      | [] => Raise JSONDecodeError
      | c :: t =>
          if c =? 34 then Ok ([], t)
          else if c <? 32 then Raise JSONDecodeError
          else if c =? 92 then
            match t with
            | [] => Raise JSONDecodeError
            | e :: t1 =>
                if e =? 117 then
                  match decode_hex4 t1 with
                  | None => Raise JSONDecodeError
                  | Some (u, t2) =>
                      match (if is_high_surrogate u then low_surrogate_escape t2 else None) with
                      | Some (lo, t3) => cons_fst (join_surrogates u lo) (scanstring fuel t3)
                      | None => cons_fst u (scanstring fuel t2)
                      end
                  end
                else
                  match unescape e with
                  | Some x => cons_fst x (scanstring fuel t1)
                  | None => Raise JSONDecodeError
                  end
            end
          else cons_fst c (scanstring fuel t)
      end
  end.

Fixpoint span_digits (s : pystr) : pystr * pystr :=
  match s with
  | [] => ([], [])
  | c :: t =>
      if is_digit c then let (ds, rest) := span_digits t in (c :: ds, rest)
      else ([], s)
  end.

Definition digits_value (ds : pystr) : Z :=
  fold_left (fun acc d => (10 * acc + Z.of_N (d - 48))%Z) ds 0%Z.

(** The integer part of a number: an optional sign, then a zero or a string
    of digits that does not start with a zero. *)
Definition match_integer (s : pystr) : option (pystr * pystr) :=
  let (sign, s1) := match s with
                    | c :: t => if c =? 45 then ([45], t) else ([], s)
                    | [] => ([], s)
                    end in
  match s1 with
  | c :: t =>
      if c =? 48 then Some (sign ++ [48], t)
      else if is_digit c then let (ds, rest) := span_digits s1 in Some (sign ++ ds, rest)
      else None
  | [] => None
  end.

(** The optional fraction: a point and at least one digit. *)
Definition match_frac (s : pystr) : pystr * pystr :=
  match s with
  | c :: t =>
      if c =? 46 then
        match span_digits t with
        | ([], _) => ([], s)
        | (ds, rest) => (46 :: ds, rest)
        end
      else ([], s)
  | [] => ([], s)
  end.

(** The optional exponent: [e] or [E], an optional sign, at least one digit. *)
Definition match_exp (s : pystr) : pystr * pystr :=
  match s with
  | c :: t =>
      if (c =? 101) || (c =? 69) then
        let (sign, t1) := match t with
                          | d :: t' => if (d =? 45) || (d =? 43) then ([d], t') else ([], t)
                          | [] => ([], t)
                          end in
        match span_digits t1 with
        | ([], _) => ([], s)
        | (ds, rest) => (c :: sign ++ ds, rest)
        end
      else ([], s)
  | [] => ([], s)
  end.

Definition int_of_literal (lit : pystr) : Z :=
  match lit with
  | c :: ds => if c =? 45 then (- digits_value ds)%Z else digits_value lit
  | [] => 0%Z
  end.

Definition match_number (s : pystr) : option (pyval * pystr) :=
  match match_integer s with
  | None => None
  | Some (integer, s1) =>
      let (frac, s2) := match_frac s1 in
      let (exp, s3) := match_exp s2 in
      match frac, exp with
      | [], [] => Some (PInt (int_of_literal integer), s3)
      | _, _ => Some (PFloat (integer ++ frac ++ exp), s3)
      end
  end.

(** The constants: [null], [true], [false], and [NaN], [Infinity] and
    [-Infinity], which the decoder accepts. *)
Definition match_constant (s : pystr) : option (pyval * pystr) :=
  if starts_with (py "null") s then Some (PNone, drop 4 s)
  else if starts_with (py "true") s then Some (PBool true, drop 4 s)
  else if starts_with (py "false") s then Some (PBool false, drop 5 s)
  else None.

Definition match_float_constant (s : pystr) : option (pyval * pystr) :=
  if starts_with (py "NaN") s then Some (PFloat (py "NaN"), drop 3 s)
  else if starts_with (py "Infinity") s then Some (PFloat (py "Infinity"), drop 8 s)
  else if starts_with (py "-Infinity") s then Some (PFloat (py "-Infinity"), drop 9 s)
  else None.

(** The scanner of a value ([scan_once]), of the items of an array from its
    first value, and of the pairs of an object from the opening quote of
    its first key. *)
Fixpoint scan_once (fuel : nat) (s : pystr) : result (pyval * pystr) :=
  match fuel with
  | O => Raise JSONDecodeError
  | S fuel =>
      match s with
      | [] => Raise JSONDecodeError
      | c :: t =>
          if c =? 34 then
            match scanstring fuel t with
            | Ok (str, rest) => Ok (PStr str, rest)
            | Raise e => Raise e
            end
          else if c =? 123 then
            match skip_ws t with
            | c' :: t' =>
                if c' =? 125 then Ok (PDict [], t')
                else if c' =? 34 then
                  match scan_pairs fuel t' with
                  | Ok (pairs, rest) => Ok (PDict (dict_of_pairs pairs), rest)
                  | Raise e => Raise e
                  end
                else Raise JSONDecodeError
            | [] => Raise JSONDecodeError
            end
          else if c =? 91 then
            match skip_ws t with
            | c' :: t' =>
                if c' =? 93 then Ok (PList [], t')
                else
                  match scan_items fuel (c' :: t') with
                  | Ok (items, rest) => Ok (PList items, rest)
                  | Raise e => Raise e
                  end
            | [] => Raise JSONDecodeError
            end
          else
            match match_constant s with
            | Some r => Ok r
            | None =>
                match match_number s with
                | Some r => Ok r
                | None =>
                    match match_float_constant s with
                    | Some r => Ok r
                    | None => Raise JSONDecodeError
                    end
                end
            end
      end
  end

with scan_items (fuel : nat) (s : pystr) : result (list pyval * pystr) :=
  match fuel with
  | O => Raise JSONDecodeError
  | S fuel =>
      match scan_once fuel s with
      | Raise e => Raise e
      | Ok (v, rest) =>
          match skip_ws rest with
          | c :: t =>
              if c =? 93 then Ok ([v], t)
              else if c =? 44 then cons_fst v (scan_items fuel (skip_ws t))
              else Raise JSONDecodeError
          | [] => Raise JSONDecodeError
          end
      end
  end

with scan_pairs (fuel : nat) (s : pystr) : result (list (pystr * pyval) * pystr) :=
  match fuel with
  | O => Raise JSONDecodeError
  | S fuel =>
      match scanstring fuel s with
      | Raise e => Raise e
      | Ok (key, rest) =>
          match skip_ws rest with
          | c :: t =>
              if c =? 58 then
                match scan_once fuel (skip_ws t) with
                | Raise e => Raise e
                | Ok (v, rest') =>
                    match skip_ws rest' with
                    | c' :: t' =>
                        if c' =? 125 then Ok ([(key, v)], t')
                        else if c' =? 44 then
                          match skip_ws t' with
                          | q :: t'' =>
                              if q =? 34 then cons_fst (key, v) (scan_pairs fuel t'')
                              else Raise JSONDecodeError
                          | [] => Raise JSONDecodeError
                          end
                        else Raise JSONDecodeError
                    | [] => Raise JSONDecodeError
                    end
                end
              else Raise JSONDecodeError
          | [] => Raise JSONDecodeError
          end
      end
  end.

(** [json.loads(text)]: a byte order mark is refused, white space may
    surround the value, and nothing else may follow it. *)
Definition json_loads (text : pystr) : result pyval :=
  if starts_with [65279] text then Raise JSONDecodeError
  else
    match scan_once (2 * length text + 2) (skip_ws text) with
    | Raise e => Raise e
    | Ok (v, rest) =>
        match skip_ws rest with
        | [] => Ok v
        | _ :: _ => Raise JSONDecodeError
        end
    end.

(** [json.load(f)] on a file opened for reading. *)
Definition json_load (p : pystr) : M world pyval :=
  let* text := read_text p in
  lift_result (json_loads text).

(** ** Operations on Python values the program uses *)

(** [v[k]] for a string [k]: only a dict can be indexed by a string. *)
Definition subscript (v : pyval) (k : pystr) : result pyval :=
  match v with
  | PDict d =>
      match assoc k d with
      | Some x => Ok x
      | None => Raise (KeyError k)
      end
  | _ => Raise TypeError
  end.

(** [s in v] for a string [s]: an item of a list, a key of a dict, a
    substring of a string; the other values are no containers. *)
Definition contains (s : pystr) (v : pyval) : result bool :=
  match v with
  | PList items => Ok (existsb (eq_str s) items)
  | PDict d => Ok (bool_decide (is_Some (assoc s d)))
  | PStr t => Ok (is_substring s t)
  | _ => Raise TypeError
  end.

(** [v.remove(s)]: only a list has the method. *)
Definition method_remove (s : pystr) (v : pyval) : result pyval :=
  match v with
  | PList items =>
      match remove_first s items with
      | Some items' => Ok (PList items')
      | None => Raise ValueError
      end
  | _ => Raise AttributeError
  end.

(** [v.append(s)]: only a list has the method. *)
Definition method_append (s : pystr) (v : pyval) : result pyval :=
  match v with
  | PList items => Ok (PList (items ++ [PStr s]))
  | _ => Raise AttributeError
  end.

(** The dict [v] once the object it holds under [k] has become [x] by a
    mutation in place. *)
Definition with_item (k : pystr) (x : pyval) (v : pyval) : pyval :=
  match v with
  | PDict d => PDict (dict_set k x d)
  | _ => v
  end.

(** The items [for feature in a + b] runs over: two lists concatenate, two
    strings concatenate into a string, iterated by character; every other
    sum is refused, or is a number, which cannot be iterated. *)
Definition iter_sum (a b : pyval) : result (list pyval) :=
  match a, b with
  | PList x, PList y => Ok (x ++ y)
  | PStr x, PStr y => Ok (map (fun c => PStr [c]) (x ++ y))
  | _, _ => Raise TypeError
  end.

(** [v in d] for a dict [d] with string keys: a list or a dict cannot be
    hashed, a value that is no string equals no key. *)
Definition key_in {V : Type} (v : pyval) (d : list (pystr * V)) : result (option V) :=
  match v with
  | PStr s => Ok (assoc s d)
  | PList _ | PDict _ => Raise TypeError
  | _ => Ok None
  end.

(** ** The feature catalog *)

(** Every entry of the catalog has the three keys, so
    [component.get("required", False)] reads the flag. *)
Record component := Component {
  name : pystr;
  description : pystr;
  required : bool
}.

Record category_data := Category {
  category_description : pystr;
  components : list (pystr * component)
}.

Definition FEATURES : list (pystr * category_data) :=
  [ (py "core",
     Category (py "Core services required for basic e-commerce functionality")
       [ (py "gateway",
          Component (py "API Gateway") (py "Entry point for all client requests") true);
         (py "user",
          Component (py "User Service") (py "User authentication and profile management") true);
         (py "catalog",
          Component (py "Catalog Service") (py "Product catalog management") true);
         (py "cart",
          Component (py "Cart Service") (py "Shopping cart management") true);
         (py "orders",
          Component (py "Order Service") (py "Order processing and management") true);
         (py "payments",
          Component (py "Payment Service") (py "Payment processing") true);
         (py "inventory",
          Component (py "Inventory Service") (py "Stock management") true) ]);
    (py "optional",
     Category (py "Optional services to enhance e-commerce functionality")
       [ (py "reviews",
          Component (py "Reviews Service") (py "Product reviews and ratings") false);
         (py "discounts",
          Component (py "Discounts Service")
            (py "Promotional offers and discount management") false);
         (py "admin",
          Component (py "Admin Dashboard Service")
            (py "Administrative interface backend") false) ]) ].

(** ** [FeatureSelector] *)

Section Selector.

Variable float_repr : pystr -> pystr.

Record FeatureSelector := mkFeatureSelector {
  config_file : pystr;
  selected_features : pyval
}.

Definition set_selected_features (v : pyval) (me : FeatureSelector) : FeatureSelector :=
  mkFeatureSelector (config_file me) v.

(** [d[category].append(component_id)] on the local dict of [_load_config]. *)
Definition append_at (category component_id : pystr) (d : pyval) : result pyval :=
  match subscript d category with
  | Raise e => Raise e
  | Ok x =>
      match method_append component_id x with
      | Raise e => Raise e
      | Ok x' => Ok (with_item category x' d)
      end
  end.

(** A loop that updates a local variable and stops at the first exception. *)
Fixpoint fold_result {A B : Type} (f : B -> A -> result B) (l : list A) (b : B) : result B :=
  match l with
  | [] => Ok b
  | x :: rest =>
      match f b x with
      | Ok b' => fold_result f rest b'
      | Raise e => Raise e
      end
  end.

Definition default_config : result pyval :=
  fold_result
    (fun d entry =>
       fold_result
         (fun d' item =>
            if required (snd item) then append_at (fst entry) (fst item) d' else Ok d')
         (components (snd entry)) d)
    FEATURES
    (PDict [(py "core", PList []); (py "optional", PList [])]).

Definition _load_config : M (FeatureSelector * world) pyval :=
  let* me := self in
  let* present := in_world (os_path_exists (config_file me)) in
  if (present : bool) then in_world (json_load (config_file me))
  else lift_result default_config.

(** [FeatureSelector(config_file)] *)
Definition FeatureSelector_init (path : pystr) : M world FeatureSelector :=
  fun w =>
    match _load_config (mkFeatureSelector path PNone, w) with
    | (Ok v, (me, w')) => (Ok (set_selected_features v me), w')
    | (Raise e, (_, w')) => (Raise e, w')
    end.

Definition save_config : M (FeatureSelector * world) unit :=
  let* me := self in
  let* f := in_world (open_w (config_file me)) in
  in_world (json_dump float_repr (selected_features me) f) ;;
  in_world (print (py "Configuration saved to " ++ config_file me)).

Definition msg_not_found (category feature_id : pystr) : pystr :=
  py "Error: Feature '" ++ feature_id ++ py "' in category '" ++ category ++
  py "' not found.".

Definition msg_required (feature_id : pystr) : pystr :=
  py "Error: Cannot disable required feature '" ++ feature_id ++ py "'.".

Definition toggle_feature (category feature_id : pystr) : M (FeatureSelector * world) bool :=
  match assoc category FEATURES with
  | None => in_world (print (msg_not_found category feature_id)) ;; ret false
  | Some data =>
      match assoc feature_id (components data) with
      | None => in_world (print (msg_not_found category feature_id)) ;; ret false
      | Some entry =>
          if required entry then
            in_world (print (msg_required feature_id)) ;; ret false
          else
            let* me := self in
            let* selected := lift_result (subscript (selected_features me) category) in
            let* present := lift_result (contains feature_id selected) in
            (if (present : bool) then
               let* selected' := lift_result (method_remove feature_id selected) in
               set_self (set_selected_features
                           (with_item category selected' (selected_features me)) me) ;;
               in_world (print (py "Disabled: " ++ feature_id))
             else
               let* selected' := lift_result (method_append feature_id selected) in
               set_self (set_selected_features
                           (with_item category selected' (selected_features me)) me) ;;
               in_world (print (py "Enabled: " ++ feature_id))) ;;
            ret true
      end
  end.

End Selector.

(** ** Generation units *)

(** [generators/base.py]: a generation unit has the one method [generate].
    [create] is the call of the class, which builds the object. *)
Class MicroserviceGenerator (G : Type) := {
  create : G;
  generate : pystr -> M (G * world) unit
}.

(** The text of a literal given line by line, each line ending in a newline. *)
Definition unlines (ls : list pystr) : pystr := flat_map (fun l => l ++ newline) ls.

(** The attribute [output_dir] exists once [generate] has set it. *)
Record InventoryServiceGenerator := mkInventoryServiceGenerator {
  output_dir : option pystr
}.

Definition main_py : pystr :=
  unlines
    [ pyq "```";
      py "Inventory Microservice - Auto-generated file";
      py "Built with MicroShopGen";
      pyq "```";
      py "";
      py "from flask import Flask";
      py "";
      py "app = Flask(__name__)";
      py "";
      pyq "@app.route(`/inventory`)";
      py "def inventory():";
      pyq "    return {`message`: `Inventory service running. Built with MicroShopGen`}";
      py "";
      pyq "@app.route(`/inventory/product_ids`)";
      py "def get_product_ids():";
      py "    #todo: Implement logic to fetch product IDs from the inventory database";
      py "";
      pyq "@app.route(`/inventory/stock/<product_id>`)";
      py "def get_stock(product_id):";
      py "    #todo: Implement logic to fetch stock for a given product ID";
      py "";
      pyq "@app.route(`/inventory/stock/<product_id>`, methods=[`POST`])";
      py "def update_stock(product_id):";
      py "    #todo: Implement logic to update stock for a given product ID";
      py "";
      pyq "@app.route(`/inventory/register`, methods=[`POST`])";
      py "@def register_product():";
      py "    #todo: Implement logic to register a new product in the inventory";
      py "";
      pyq "@app.route(`/inventory/delete/<product_id>`, methods=[`DELETE`])";
      py "@def delete_product(product_id):";
      py "    #todo: Implement logic to delete a product from the inventory";
      py "";
      pyq "if __name__ == `__main__`:";
      pyq "    app.run(host=`0.0.0.0`, port=5007)" ].

(** The backslash at the end of the [ENV] line of the literal joins it with
    the next line. *)
Definition dockerfile_text : pystr :=
  unlines
    [ py "FROM python:3.9-slim";
      py "";
      py "WORKDIR /app";
      py "";
      py "EXPOSE 5007";
      py "";
      py "ENV FLASK_APP=main.py     PYTHONUNBUFFERED=1";
      py "PYTHONPATH=/app";
      py "PIP_NO_CACHE_DIR=1";
      py "";
      py "RUN pip install flask";
      py "";
      py "COPY . .";
      py "";
      pyq "CMD [`flask`, `run`, `--host=0.0.0`, `--port=5007`]" ].

Definition attribute {S A} (a : option A) : M S A :=
  match a with
  | Some x => ret x
  | None => raise AttributeError
  end.

Definition generate_main : M (InventoryServiceGenerator * world) unit :=
  let* me := self in
  let* dir := attribute (output_dir me) in
  let service_dir := os_path_join dir (py "inventory") in
  in_world (os_makedirs service_dir) ;;
  let* f := in_world (open_w (os_path_join service_dir (py "main.py"))) in
  in_world (write f main_py) ;;
  in_world (print (py "Inventory service generated at: " ++ service_dir)).

(** The method binds a local name to the text and ends. *)
Definition generate_dockerfile : M (InventoryServiceGenerator * world) unit :=
  let dockerfile_content := dockerfile_text in
  ret tt.

#[export] Instance InventoryServiceGenerator_generator
  : MicroserviceGenerator InventoryServiceGenerator := {
  create := mkInventoryServiceGenerator None;
  generate := fun dir =>
    set_self (mkInventoryServiceGenerator (Some dir)) ;;
    generate_main ;;
    generate_dockerfile
}.

(** ** The dispatcher *)

(** An entry of the registry: a class that implements the interface. *)
Record generator_class := GeneratorClass {
  instance_type : Type;
  instance_methods : MicroserviceGenerator instance_type
}.

Definition generators : list (pystr * generator_class) :=
  [ (py "inventory", GeneratorClass InventoryServiceGenerator _) ].

(** A method call on an object no name is kept for afterwards. *)
Definition call_on {O A} (o : O) (m : M (O * world) A) : M world A :=
  fun w =>
    match m (o, w) with
    | (r, (_, w')) => (r, w')
    end.

(** The body of the loop of [generate_microservices]. *)
Definition dispatch (dir : pystr) (feature : pyval) : M world unit :=
  let* found := lift_result (key_in feature generators) in
  match found with
  | Some cls =>
      let generator := @create _ (instance_methods cls) in
      call_on generator (@generate _ (instance_methods cls) dir)
  | None => ret tt
  end.

Definition generate_microservices (path dir : pystr) : M world unit :=
  let* selector := FeatureSelector_init path in
  let* core := lift_result (subscript (selected_features selector) (py "core")) in
  let* optional := lift_result (subscript (selected_features selector) (py "optional")) in
  let* features := lift_result (iter_sum core optional) in
  for_each features (dispatch dir).

(** ** Notions used in the statements *)

(** The entry of the catalog for a pair:
    [FEATURES[category]["components"][feature_id]]. *)
Definition catalog_lookup (category feature_id : pystr) : option component :=
  match assoc category FEATURES with
  | None => None
  | Some data => assoc feature_id (components data)
  end.

(** The identifiers of a category that the catalog marks as required. *)
Definition required_ids (data : category_data) : list pystr :=
  map fst (filter (fun item => required (snd item)) (components data)).

(** A selection state as the configuration file describes it: a dict with
    the keys [core] and [optional], each holding a list of strings. *)
Definition is_str (v : pyval) : bool :=
  match v with
  | PStr _ => true
  | _ => false
  end.

Definition is_str_list (v : pyval) : bool :=
  match v with
  | PList items => forallb is_str items
  | _ => false
  end.

Definition selection_state (v : pyval) : bool :=
  match v with
  | PDict d =>
      match assoc (py "core") d, assoc (py "optional") d with
      | Some c, Some o =>
          is_str_list c && is_str_list o && bool_decide (length d = 2%nat)
      | _, _ => false
      end
  | _ => false
  end.

(** Whether a state selects an identifier in a category. *)
Definition selects (v : pyval) (category feature_id : pystr) : bool :=
  match subscript v category with
  | Ok x =>
      match contains feature_id x with
      | Ok b => b
      | Raise _ => false
      end
  | Raise _ => false
  end.

(** Two states select the same identifiers in every category. *)
Definition same_selection (a b : pyval) : Prop :=
  forall category feature_id, selects a category feature_id = selects b category feature_id.

(** The number of items of a list equal to a string. *)
Definition count_str (s : pystr) (items : list pyval) : nat :=
  length (filter (fun x => eq_str s x = true) items).

(** How often an identifier occurs in the list of a category. *)
Definition occurrences (v : pyval) (category feature_id : pystr) : nat :=
  match subscript v category with
  | Ok (PList items) => count_str feature_id items
  | _ => O
  end.

(** The status of a feature after a toggle. *)
Inductive status :=
| enabled
| disabled.

(** A world with a root directory and nothing else, and the selector built
    in it when there is no configuration file. *)
Definition empty_world : world := World [] {[ [] := Dir ]} [] None.

Definition default_state : pyval :=
  PDict
    [ (py "core",
       PList [PStr (py "gateway"); PStr (py "user"); PStr (py "catalog");
              PStr (py "cart"); PStr (py "orders"); PStr (py "payments");
              PStr (py "inventory")]);
      (py "optional", PList []) ].

Definition fresh_selector : FeatureSelector :=
  mkFeatureSelector (py "ecommerce_config.json") default_state.

Definition core_defaults : pyval :=
  PList [PStr (py "gateway"); PStr (py "user"); PStr (py "catalog");
         PStr (py "cart"); PStr (py "orders"); PStr (py "payments");
         PStr (py "inventory")].

(** A selector whose optional list names [reviews] twice, as a
    configuration file written by hand can. *)
Definition duplicate_selector : FeatureSelector :=
  mkFeatureSelector (py "ecommerce_config.json")
    (PDict [ (py "core", core_defaults);
             (py "optional", PList [PStr (py "reviews"); PStr (py "reviews")]) ]).

(** A selector with two optional features selected. *)
Definition two_optional_selector : FeatureSelector :=
  mkFeatureSelector (py "ecommerce_config.json")
    (PDict [ (py "core", core_defaults);
             (py "optional", PList [PStr (py "reviews"); PStr (py "discounts")]) ]).

(** A selector with [reviews] enabled. *)
Definition reviews_selector : FeatureSelector :=
  mkFeatureSelector (py "ecommerce_config.json")
    (PDict [ (py "core", core_defaults); (py "optional", PList [PStr (py "reviews")]) ]).

(** The world whose only file is the configuration file at its default
    path, with the given text. *)
Definition world_with_config (text : pystr) : world :=
  World [] {[ [] := Dir; [py "ecommerce_config.json"] := File text ]} [] None.

(** A configuration file without the key [optional], and the selector
    loaded from it. *)
Definition core_only_text : pystr := pyq "{`core`: [`bogus`]}".

Definition core_only_selector : FeatureSelector :=
  mkFeatureSelector (py "ecommerce_config.json")
    (PDict [ (py "core", PList [PStr (py "bogus")]) ]).

(** The file system after the generation of the inventory service into
    [generated], from the empty world. *)
Definition generated_tree : gmap loc node :=
  {[ [] := Dir;
     [py "generated"] := Dir;
     [py "inventory"; py "generated"] := Dir;
     [py "main.py"; py "inventory"; py "generated"] := File main_py ]}.

(** The names of the entries of the directory at a location. *)
Definition listdir (t : gmap loc node) (dir : loc) : list pystr :=
  omap (fun l => match l with
                 | nm :: parent => if bool_decide (parent = dir) then Some nm else None
                 | [] => None
                 end)
       (map fst (map_to_list t)).

(** Whether the registry has a generation unit for an identifier. *)
Definition registered (feature_id : pystr) : bool :=
  bool_decide (is_Some (assoc feature_id generators)).

(** The world once the file at [l] has been opened for writing and [text]
    has gone into it. *)
Definition written (l : loc) (text : pystr) (w : world) : world :=
  set_fs (<[l := File text]> (fs w)) w.

(** A stand-in for [repr] in the examples, whose states hold no float. *)
Definition repr_as_read (literal : pystr) : pystr := literal.

(** The text of the configuration file for a selector. *)
Definition config_text (me : FeatureSelector) : pystr :=
  json_dumps repr_as_read (selected_features me).

(** A world in which the configuration file holds the text of a selector
    with [reviews] enabled and the device accepts twelve more characters. *)
Definition nearly_full_world : world :=
  set_budget (Some 12%nat) (world_with_config (config_text reviews_selector)).

(** A string the decoder can have produced: its code points go up to
    0x10FFFF and no high surrogate is directly followed by a low one. *)
Fixpoint text_ok (s : pystr) : bool :=
  match s with
  | [] => true
  | c :: t =>
      (c <=? 1114111) &&
      negb (is_high_surrogate c &&
            match t with
            | d :: _ => is_low_surrogate d
            | [] => false
            end) &&
      text_ok t
  end.

(** A list of strings, and a dict of lists of strings, as Python values. *)
Definition str_list (ss : list pystr) : pyval := PList (map PStr ss).

Definition str_lists_dict (d : list (pystr * list pystr)) : pyval :=
  PDict (map (fun kv => (fst kv, str_list (snd kv))) d).

(** Fuel that is enough for the decoder to read back a list of strings and
    the pairs of a dict of lists of strings. *)
Definition items_need (ss : list pystr) : nat :=
  list_sum (map (fun s => length s + 3)%nat ss).

Definition pairs_need (d : list (pystr * list pystr)) : nat :=
  list_sum (map (fun kv => length (fst kv) + items_need (snd kv) + 4)%nat d).

(** The text of a pair of a dict at nesting depth [level]. *)
Definition pair_text (float_repr : pystr -> pystr) (level : nat) (kv : pystr * pyval) : pystr :=
  encode_str (fst kv) ++ py ": " ++ encode float_repr level (snd kv).

(** The text of a pair whose value is a list of strings. *)
Definition str_list_pair_text (float_repr : pystr -> pystr) (lv : nat)
    (kv : pystr * list pystr) : pystr :=
  pair_text float_repr lv (fst kv, str_list (snd kv)).

(** A key and a list of strings the decoder can have produced. *)
Definition pair_ok (kv : pystr * list pystr) : Prop :=
  text_ok (fst kv) = true /\ Forall (fun x => text_ok x = true) (snd kv).

(** A state that is a dict of lists of strings, with distinct keys and
    strings the decoder can have produced: the states of type
    [Dict[str, List[str]]] that the program can hold. *)
Definition storable_list (v : pyval) : bool :=
  match v with
  | PList items =>
      forallb (fun x => match x with
                        | PStr s => text_ok s
                        | _ => false
                        end) items
  | _ => false
  end.

Definition storable (v : pyval) : bool :=
  match v with
  | PDict d =>
      forallb (fun kv => text_ok (fst kv) && storable_list (snd kv)) d &&
      bool_decide (NoDup (keys d))
  | _ => false
  end.

(** ** Notions used in the further properties *)

(** A list of strings without the first occurrence of a string. *)
Fixpoint remove_str (s : pystr) (ids : list pystr) : list pystr :=
  match ids with
  | [] => []
  | x :: rest => if pystr_eqb x s then rest else x :: remove_str s rest
  end.

(** The identifiers selected in a category keep the rules of the catalog:
    none twice, none the catalog does not have, every required one. *)
Definition valid_ids (data : category_data) (ids : list pystr) : Prop :=
  NoDup ids /\
  (forall id, id ∈ ids -> is_Some (assoc id (components data))) /\
  (forall id entry,
     assoc id (components data) = Some entry -> required entry = true -> id ∈ ids).

(** A selection state that keeps the rules of the catalog in every
    category. *)
Definition valid_selection (v : pyval) : Prop :=
  selection_state v = true /\
  forall category data,
    assoc category FEATURES = Some data ->
    exists ids, subscript v category = Ok (str_list ids) /\ valid_ids data ids.

(** A world in which the default path of the configuration names a
    directory. *)
Definition world_with_config_dir : world :=
  World [] {[ [] := Dir; [py "ecommerce_config.json"] := Dir ]} [] None.

(** A selector whose configuration file lies in a directory that does not
    exist. *)
Definition stray_selector : FeatureSelector :=
  mkFeatureSelector (py "missing/ecommerce_config.json") default_state.

(** ** The text menu of [FeatureSelector] *)

(** [s.upper()] for a string whose letters are ASCII, as the names of the
    categories of the catalog are. *)
Definition upper (s : pystr) : pystr :=
  map (fun c => if (97 <=? c) && (c <=? 122) then c - 32 else c) s.

(** The check mark U+2713. *)
Definition check_mark : pystr := [10003].

(** The line of the menu for a component. *)
Definition feature_line (selected : bool) (component_id : pystr) (entry : component)
  : pystr :=
  py "[" ++ (if selected then check_mark else py " ") ++ py "] " ++ component_id ++
  py ": " ++ name entry ++ py " " ++ (if required entry then py "[Required]" else []).

Definition display_features : M (FeatureSelector * world) unit :=
  in_world (print ([10] ++ py "=== E-COMMERCE MICROSERVICE FEATURES ===" ++ [10])) ;;
  for_each FEATURES (fun item =>
    in_world (print ([10] ++ upper (fst item) ++ py ": " ++
                     category_description (snd item))) ;;
    in_world (print (repeat 45 50)) ;;
    for_each (components (snd item)) (fun c =>
      let* me := self in
      let* selected := lift_result (subscript (selected_features me) (fst item)) in
      let* present := lift_result (contains (fst c) selected) in
      in_world (print (feature_line present (fst c) (snd c))) ;;
      in_world (print (py "    " ++ description (snd c))))) ;;
  in_world (print [10]).

(** [c.isspace()] *)
Definition is_space (c : N) : bool :=
  ((9 <=? c) && (c <=? 13)) || ((28 <=? c) && (c <=? 32)) || (c =? 133) || (c =? 160) ||
  (c =? 5760) || ((8192 <=? c) && (c <=? 8202)) || (c =? 8232) || (c =? 8233) ||
  (c =? 8239) || (c =? 8287) || (c =? 12288).

Fixpoint lstrip (s : pystr) : pystr :=
  match s with
  | [] => []
  | c :: t => if is_space c then lstrip t else s
  end.

(** [s.strip()] *)
Definition strip (s : pystr) : pystr := rev (lstrip (rev (lstrip s))).

(** The words of [s] after the word [cur] that is being read. *)
Fixpoint words (cur s : pystr) : list pystr :=
  match s with
  | [] => match cur with
          | [] => []
          | _ :: _ => [cur]
          end
  | c :: t =>
      if is_space c
      then match cur with
           | [] => words [] t
           | _ :: _ => cur :: words [] t
           end
      else words (cur ++ [c]) t
  end.

(** [s.split()] *)
Definition split (s : pystr) : list pystr := words [] s.

(** How a session ends: with the value [interactive_cli] returns, with an
    exception of a method it called, or with the [EOFError] of [input]
    when the input has no line left. *)
Inductive session_end :=
| Returned (b : bool)
| Raised (e : exn)
| EndOfInput.

Definition print_commands : M world unit :=
  print (py "Commands:") ;;
  print (py "  toggle <category> <feature_id> - Toggle a feature on/off") ;;
  print (py "  save - Save current configuration") ;;
  print (py "  exit - Exit without saving") ;;
  print (py "  done - Save and exit").

Section Session.

Variable float_repr : pystr -> pystr.

(** [interactive_cli] on the lines [input] returns in turn. The prompt of
    [input], which goes to the terminal, is not part of the world. *)
Fixpoint interactive_cli (inputs : list pystr) (s : FeatureSelector * world)
  : session_end * (FeatureSelector * world) :=
  match (display_features ;; in_world print_commands) s with
  | (Raise e, s1) => (Raised e, s1)
  | (Ok _, s1) =>
      match inputs with
      | [] => (EndOfInput, s1)
      | line :: rest =>
          match split (strip line) with
          | [] => interactive_cli rest s1
          | c0 :: args =>
              if pystr_eqb c0 (py "exit") then (Returned false, s1)
              else if pystr_eqb c0 (py "save") then
                match save_config float_repr s1 with
                | (Raise e, s2) => (Raised e, s2)
                | (Ok _, s2) => interactive_cli rest s2
                end
              else if pystr_eqb c0 (py "done") then
                match save_config float_repr s1 with
                | (Raise e, s2) => (Raised e, s2)
                | (Ok _, s2) => (Returned true, s2)
                end
              else
                match (if pystr_eqb c0 (py "toggle") then args else []) with
                | [category; feature_id] =>
                    match toggle_feature category feature_id s1 with
                    | (Raise e, s2) => (Raised e, s2)
                    | (Ok _, s2) => interactive_cli rest s2
                    end
                | _ =>
                    match in_world (print (py "Invalid command. Try again.")) s1 with
                    | (_, s2) => interactive_cli rest s2
                    end
                end
          end
      end
  end.

End Session.

(** The lines [display_features] prints for a state. *)
Definition component_lines (v : pyval) (category : pystr) (c : pystr * component)
  : list pystr :=
  [ feature_line (selects v category (fst c)) (fst c) (snd c);
    py "    " ++ description (snd c) ].

Definition category_lines (v : pyval) (item : pystr * category_data) : list pystr :=
  [ [10] ++ upper (fst item) ++ py ": " ++ category_description (snd item);
    repeat 45 50 ] ++
  flat_map (component_lines v (fst item)) (components (snd item)).

Definition display_lines (v : pyval) : list pystr :=
  [ [10] ++ py "=== E-COMMERCE MICROSERVICE FEATURES ===" ++ [10] ] ++
  flat_map (category_lines v) FEATURES ++ [ [10] ].

(** The world after some more lines on the standard output. *)
Definition printed_all (lines : list pystr) (w : world) : world :=
  World (cwd w) (fs w) (stdout w ++ lines) (budget w).

(** A computation of a method that leaves the selector, the files and the
    device as they are. *)
Definition quiet {A} (m : M (FeatureSelector * world) A) : Prop :=
  forall me w r me' w',
    m (me, w) = (r, (me', w')) ->
    me' = me /\ cwd w' = cwd w /\ fs w' = fs w /\ budget w' = budget w.

(** A selector without the key [optional] in its state. *)
Definition no_optional_selector : FeatureSelector :=
  mkFeatureSelector (py "ecommerce_config.json") (PDict [ (py "core", core_defaults) ]).

(** A line of input whose command is [save] or [done]. *)
Definition saving_command (line : pystr) : bool :=
  match split (strip line) with
  | c0 :: _ => pystr_eqb c0 (py "save") || pystr_eqb c0 (py "done")
  | [] => false
  end.

(** The errors of the file system and the device. *)
Definition os_error (e : exn) : Prop :=
  e = FileNotFoundError \/ e = NotADirectoryError \/ e = IsADirectoryError \/
  e = NoSpaceError.

(** The text of a configuration file that gives strings where lists are
    expected, and the selector that loads it. *)
Definition strings_text : pystr := pyq "{`core`: `inventory`, `optional`: `reviews`}".

Definition strings_selector : FeatureSelector :=
  mkFeatureSelector (py "ecommerce_config.json")
    (PDict [ (py "core", PStr (py "inventory")); (py "optional", PStr (py "reviews")) ]).

(** The directory of the inventory service under an output directory, and
    the file the unit writes there. *)
Definition service_dir (dir : pystr) : pystr := os_path_join dir (py "inventory").

Definition main_file (dir : pystr) : pystr := os_path_join (service_dir dir) (py "main.py").

(** The path names a directory of the world. *)
Definition dir_at (w : world) (p : pystr) : Prop :=
  exists l, resolve w p = Ok l /\ fs w !! l = Some Dir.

(** Whether the command of a line of input, its first word, is [name]. *)
Definition command_is (name line : pystr) : bool :=
  match split (strip line) with
  | c0 :: _ => pystr_eqb c0 name
  | [] => false
  end.

(** ** [main] *)

(** The namespace [parse_args] returns: the values of [--config],
    [--generate] and [--output-dir]. The parsing of the command line
    itself belongs to [argparse] and is not part of the model. *)
Module Args.
Record t := mk {
  config : pystr;
  generate : bool;
  output_dir : pystr
}.
End Args.

(** The namespace of a command line without options. *)
Definition default_args : Args.t :=
  Args.mk (py "ecommerce_config.json") false (py "generated").

(** How a run of [main] ends: it returns, an exception leaves it, or
    [input] finds no line. *)
Inductive program_end :=
| Exited
| Uncaught (e : exn)
| InputEnded.

(** The world after the three lines [main] prints once a session has
    returned [True]. *)
Definition completed (config : pystr) (w : world) : world :=
  printed ([10] ++ py "You can now use this configuration to generate the microservice project.")
    (printed (py "Configuration saved to " ++ config)
       (printed ([10] ++ py "Feature selection complete!") w)).

Section Main.

Variable float_repr : pystr -> pystr.

(** The body of [main] after [args = parser.parse_args()], on the lines
    [input] returns. *)
Definition main (args : Args.t) (inputs : list pystr) (w : world) : program_end * world :=
  if Args.generate args then
    match generate_microservices (Args.config args) (Args.output_dir args) w with
    | (Ok _, w') => (Exited, w')
    | (Raise e, w') => (Uncaught e, w')
    end
  else
    match FeatureSelector_init (Args.config args) w with
    | (Raise e, w') => (Uncaught e, w')
    | (Ok selector, w') =>
        match interactive_cli float_repr inputs (selector, w') with
        | (Returned true, (_, w'')) => (Exited, completed (Args.config args) w'')
        | (Returned false, (_, w'')) => (Exited, w'')
        | (Raised e, (_, w'')) => (Uncaught e, w'')
        | (EndOfInput, (_, w'')) => (InputEnded, w'')
        end
    end.

End Main.

(** * Properties *)

(** ** Dicts and lists *)

Lemma pystr_eqb_eq (s t : pystr) : pystr_eqb s t = true <-> s = t.
Proof. unfold pystr_eqb. apply bool_decide_eq_true. Qed.

Lemma pystr_eqb_refl (s : pystr) : pystr_eqb s s = true.
Proof. apply pystr_eqb_eq. reflexivity. Qed.

Lemma pystr_eqb_neq (s t : pystr) : pystr_eqb s t = false <-> s <> t.
Proof. unfold pystr_eqb. apply bool_decide_eq_false. Qed.

Lemma assoc_dict_set_eq {V} (k : pystr) (v : V) d : assoc k (dict_set k v d) = Some v.
Proof.
  induction d as [|[k' v'] d IH]; simpl.
  - rewrite pystr_eqb_refl. reflexivity.
  - destruct (pystr_eqb k' k) eqn:E; simpl.
    + rewrite pystr_eqb_refl. reflexivity.
    + rewrite E. exact IH.
Qed.

Lemma assoc_dict_set_ne {V} (k k0 : pystr) (v : V) d :
  k <> k0 -> assoc k0 (dict_set k v d) = assoc k0 d.
Proof.
  intros Hne. induction d as [|[k' v'] d IH]; simpl.
  - apply pystr_eqb_neq in Hne. rewrite Hne. reflexivity.
  - destruct (pystr_eqb k' k) eqn:E; simpl.
    + apply pystr_eqb_eq in E. subst k'.
      apply pystr_eqb_neq in Hne. rewrite Hne. reflexivity.
    + destruct (pystr_eqb k' k0); [reflexivity | exact IH].
Qed.

Lemma dict_set_same {V} (k : pystr) (v : V) d :
  assoc k d = Some v -> dict_set k v d = d.
Proof.
  induction d as [|[k' v'] d IH]; simpl; [discriminate|].
  destruct (pystr_eqb k' k) eqn:E.
  - apply pystr_eqb_eq in E. intros [= ->]. subst. reflexivity.
  - intros H. rewrite IH by exact H. reflexivity.
Qed.

Lemma dict_set_twice {V} (k : pystr) (v v' : V) d :
  dict_set k v' (dict_set k v d) = dict_set k v' d.
Proof.
  induction d as [|[k0 v0] d IH]; simpl.
  - rewrite pystr_eqb_refl. reflexivity.
  - destruct (pystr_eqb k0 k) eqn:E; simpl.
    + rewrite pystr_eqb_refl. reflexivity.
    + rewrite E, IH. reflexivity.
Qed.

Lemma count_str_cons s x items :
  count_str s (x :: items) = ((if eq_str s x then 1 else 0) + count_str s items)%nat.
Proof.
  unfold count_str. rewrite filter_cons.
  destruct (decide (eq_str s x = true)) as [E|E].
  - rewrite E. reflexivity.
  - apply not_true_is_false in E. rewrite E. reflexivity.
Qed.

Lemma existsb_count_str s items :
  existsb (eq_str s) items = false <-> count_str s items = 0%nat.
Proof.
  induction items as [|x items IH]; simpl; [tauto|].
  rewrite count_str_cons. destruct (eq_str s x); simpl; [split; [discriminate|lia]|].
  exact IH.
Qed.

Lemma remove_first_None s items :
  remove_first s items = None <-> existsb (eq_str s) items = false.
Proof.
  induction items as [|x items IH]; simpl; [tauto|].
  destruct (eq_str s x); simpl; [split; discriminate|].
  destruct (remove_first s items); simpl; [split; [discriminate|]|tauto].
  intros H. apply IH in H. discriminate.
Qed.

Lemma remove_first_count s items items' :
  remove_first s items = Some items' ->
  count_str s items = S (count_str s items') /\
  forall t, t <> s -> count_str t items' = count_str t items.
Proof.
  revert items'. induction items as [|x items IH]; simpl; [discriminate|].
  intros items'. destruct (eq_str s x) eqn:E.
  - intros [= <-]. rewrite count_str_cons, E. split; [reflexivity|].
    intros t Ht. rewrite count_str_cons.
    destruct x; simpl in E; try discriminate.
    apply pystr_eqb_eq in E. subst s0. simpl.
    apply pystr_eqb_neq in Ht. rewrite (proj2 (pystr_eqb_neq s t)); [reflexivity|].
    apply pystr_eqb_neq in Ht. congruence.
  - destruct (remove_first s items) as [l|] eqn:R; simpl; [|discriminate].
    intros [= <-]. destruct (IH l eq_refl) as [IH1 IH2].
    rewrite !count_str_cons, E, IH1. split; [reflexivity|].
    intros t Ht. rewrite !count_str_cons, IH2 by exact Ht. reflexivity.
Qed.

Lemma count_str_app s a b : count_str s (a ++ b) = (count_str s a + count_str s b)%nat.
Proof. unfold count_str. rewrite filter_app, length_app. reflexivity. Qed.

(** ** The toggle *)

(** What a toggle of an optional feature does on a state that holds a list
    under the category. *)
Lemma toggle_feature_eval (me : FeatureSelector) (w : world)
    (category feature_id : pystr) (entry : component) d items :
  catalog_lookup category feature_id = Some entry ->
  required entry = false ->
  selected_features me = PDict d ->
  assoc category d = Some (PList items) ->
  toggle_feature category feature_id (me, w) =
    match remove_first feature_id items with
    | Some items' =>
        (Ok true,
         (set_selected_features (PDict (dict_set category (PList items') d)) me,
          printed (py "Disabled: " ++ feature_id) w))
    | None =>
        (Ok true,
         (set_selected_features
            (PDict (dict_set category (PList (items ++ [PStr feature_id])) d)) me,
          printed (py "Enabled: " ++ feature_id) w))
    end.
Proof.
  unfold catalog_lookup, toggle_feature.
  destruct (assoc category FEATURES) as [data|]; [|discriminate].
  intros -> -> Hd Hitems.
  unfold bind, self, lift_result, in_world, set_self, ret, print. simpl.
  rewrite Hd. simpl. rewrite Hitems. simpl.
  destruct (existsb (eq_str feature_id) items) eqn:E.
  - destruct (remove_first feature_id items) as [items'|] eqn:R.
    + simpl. reflexivity.
    + apply remove_first_None in R. congruence.
  - apply remove_first_None in E. rewrite E. simpl. reflexivity.
Qed.

(** A toggle that gets past the two checks succeeds only on a dict that
    holds a list under the category. *)
Lemma toggle_feature_success_shape (me : FeatureSelector) (w : world)
    (category feature_id : pystr) (entry : component) r s' :
  catalog_lookup category feature_id = Some entry ->
  required entry = false ->
  toggle_feature category feature_id (me, w) = (Ok r, s') ->
  exists d items, selected_features me = PDict d /\ assoc category d = Some (PList items).
Proof.
  unfold catalog_lookup, toggle_feature.
  destruct (assoc category FEATURES) as [data|]; [|discriminate].
  intros -> ->.
  unfold bind, self, lift_result, in_world, set_self, ret, print. simpl.
  destruct (selected_features me) as [| | | | |l|d]; simpl; try discriminate.
  destruct (assoc category d) as [x|] eqn:Hx; simpl; [|discriminate].
  destruct x as [| | | | |items|d']; simpl; try discriminate.
  - destruct (is_substring feature_id s); simpl; discriminate.
  - intros _. eauto.
  - destruct (bool_decide _); simpl; discriminate.
Qed.

Lemma remove_first_app_absent s items :
  existsb (eq_str s) items = false ->
  remove_first s (items ++ [PStr s]) = Some items.
Proof.
  induction items as [|x items IH]; simpl.
  - intros _. rewrite pystr_eqb_refl. reflexivity.
  - destruct (eq_str s x); simpl; [discriminate|].
    intros H. rewrite IH by exact H. reflexivity.
Qed.

Lemma existsb_eq_of_count s a b :
  count_str s a = count_str s b -> existsb (eq_str s) a = existsb (eq_str s) b.
Proof.
  intros H.
  destruct (existsb (eq_str s) a) eqn:Ea, (existsb (eq_str s) b) eqn:Eb; try reflexivity.
  - apply existsb_count_str in Eb. rewrite <- H in Eb.
    apply existsb_count_str in Eb. congruence.
  - apply existsb_count_str in Ea. rewrite H in Ea.
    apply existsb_count_str in Ea. congruence.
Qed.

Lemma selects_dict (d : list (pystr * pyval)) category feature_id :
  selects (PDict d) category feature_id =
    match assoc category d with
    | Some x => match contains feature_id x with Ok b => b | Raise _ => false end
    | None => false
    end.
Proof. unfold selects. simpl. destruct (assoc category d); reflexivity. Qed.

Lemma same_selection_dict_set d category items items' :
  assoc category d = Some (PList items) ->
  (forall s, existsb (eq_str s) items' = existsb (eq_str s) items) ->
  same_selection (PDict (dict_set category (PList items') d)) (PDict d).
Proof.
  intros Hd Hsame c s. rewrite !selects_dict.
  destruct (decide (category = c)) as [<-|Hne].
  - rewrite assoc_dict_set_eq, Hd. simpl. apply Hsame.
  - rewrite assoc_dict_set_ne by exact Hne. reflexivity.
Qed.

(** C4, as amended: two consecutive successful toggles of an optional pair of
    the catalog bring back the selection of every category, provided the
    identifier occurs at most once in the list of its category; when it was
    not selected before, the selector is exactly as it was. *)
Theorem toggle_feature_twice (me : FeatureSelector) (w : world)
    (category feature_id : pystr) (entry : component)
    r1 me1 w1 r2 me2 w2 :
  catalog_lookup category feature_id = Some entry ->
  required entry = false ->
  (occurrences (selected_features me) category feature_id <= 1)%nat ->
  toggle_feature category feature_id (me, w) = (Ok r1, (me1, w1)) ->
  toggle_feature category feature_id (me1, w1) = (Ok r2, (me2, w2)) ->
  config_file me2 = config_file me /\
  same_selection (selected_features me2) (selected_features me) /\
  (selects (selected_features me) category feature_id = false -> me2 = me).
Proof.
  intros Hentry Hopt Hocc H1 H2.
  destruct (toggle_feature_success_shape _ _ _ _ _ _ _ Hentry Hopt H1)
    as (d & items & Hd & Hitems).
  rewrite (toggle_feature_eval _ _ _ _ _ _ _ Hentry Hopt Hd Hitems) in H1.
  unfold occurrences in Hocc. rewrite Hd in Hocc. simpl in Hocc.
  rewrite Hitems in Hocc.
  destruct me as [path sel]. simpl in Hd. subst sel. simpl.
  destruct (remove_first feature_id items) as [items1|] eqn:R1.
  - (* the identifier was selected: it is removed, then appended *)
    apply pair_equal_spec in H1 as [_ H1].
    apply pair_equal_spec in H1 as [<- <-].
    destruct (remove_first_count _ _ _ R1) as [Hc1 Hc2].
    assert (E1 : existsb (eq_str feature_id) items1 = false)
      by (apply existsb_count_str; lia).
    erewrite toggle_feature_eval in H2;
      [| exact Hentry | exact Hopt | reflexivity | apply assoc_dict_set_eq].
    rewrite (proj2 (remove_first_None _ _) E1) in H2.
    apply pair_equal_spec in H2 as [_ H2].
    apply pair_equal_spec in H2 as [<- <-]. simpl. rewrite dict_set_twice.
    split; [reflexivity|]. split.
    + apply same_selection_dict_set with (items := items); [exact Hitems|].
      intros s. destruct (decide (s = feature_id)) as [->|Hne].
      * rewrite existsb_app. simpl. rewrite pystr_eqb_refl, orb_true_r.
        symmetry. destruct (existsb (eq_str feature_id) items) eqn:E; [reflexivity|].
        apply existsb_count_str in E. lia.
      * apply existsb_eq_of_count. rewrite count_str_app, Hc2 by exact Hne.
        rewrite count_str_cons. simpl.
        rewrite (proj2 (pystr_eqb_neq feature_id s)) by congruence. simpl.
        unfold count_str at 2. simpl. lia.
    + rewrite selects_dict, Hitems. simpl. intros E.
      apply remove_first_None in E. congruence.
  - (* the identifier was not selected: it is appended, then removed *)
    apply pair_equal_spec in H1 as [_ H1].
    apply pair_equal_spec in H1 as [<- <-].
    assert (E : existsb (eq_str feature_id) items = false)
      by (apply remove_first_None; exact R1).
    erewrite toggle_feature_eval in H2;
      [| exact Hentry | exact Hopt | reflexivity | apply assoc_dict_set_eq].
    rewrite (remove_first_app_absent _ _ E) in H2.
    apply pair_equal_spec in H2 as [_ H2].
    apply pair_equal_spec in H2 as [<- <-]. simpl.
    rewrite dict_set_twice, (dict_set_same _ _ _ Hitems).
    split; [reflexivity|]. split; [intros c s; reflexivity|].
    intros _. reflexivity.
Qed.

Lemma toggle_feature_twice_witness :
  config_file two_optional_selector = config_file two_optional_selector /\
  same_selection
    (PDict [ (py "core", core_defaults);
             (py "optional", PList [PStr (py "discounts"); PStr (py "reviews")]) ])
    (selected_features two_optional_selector) /\
  (selects (selected_features two_optional_selector) (py "optional") (py "reviews") = false ->
   mkFeatureSelector (py "ecommerce_config.json")
     (PDict [ (py "core", core_defaults);
              (py "optional", PList [PStr (py "discounts"); PStr (py "reviews")]) ])
   = two_optional_selector).
Proof.
  apply (toggle_feature_twice two_optional_selector empty_world
           (py "optional") (py "reviews")
           (Component (py "Reviews Service") (py "Product reviews and ratings") false)
           true
           (mkFeatureSelector (py "ecommerce_config.json")
              (PDict [ (py "core", core_defaults);
                       (py "optional", PList [PStr (py "discounts")]) ]))
           (printed (py "Disabled: reviews") empty_world)
           true
           (mkFeatureSelector (py "ecommerce_config.json")
              (PDict [ (py "core", core_defaults);
                       (py "optional", PList [PStr (py "discounts"); PStr (py "reviews")]) ]))
           (printed (py "Enabled: reviews") (printed (py "Disabled: reviews") empty_world))).
  - reflexivity.
  - reflexivity.
  - vm_compute. lia.
  - reflexivity.
  - reflexivity.
Defined.

(** C4 fails as stated: on a selection state whose optional list names
    [reviews] twice, two successful toggles leave [reviews] unselected. *)
Lemma toggle_feature_twice_counterexample :
  selection_state (selected_features duplicate_selector) = true /\
  exists me1 w1 me2 w2,
    toggle_feature (py "optional") (py "reviews") (duplicate_selector, empty_world) =
      (Ok true, (me1, w1)) /\
    toggle_feature (py "optional") (py "reviews") (me1, w1) = (Ok true, (me2, w2)) /\
    ~ same_selection (selected_features me2) (selected_features duplicate_selector).
Proof.
  split; [reflexivity|].
  do 4 eexists. split; [reflexivity|]. split; [reflexivity|].
  intros H. specialize (H (py "optional") (py "reviews")). vm_compute in H. discriminate.
Qed.

(** C8, as amended: a successful toggle of an optional pair of the catalog
    returns [True] whichever way it went; it prints [Enabled: id] when it
    added the identifier to the list of its category and [Disabled: id]
    when it removed one occurrence of it. *)
Theorem toggle_feature_reports (me : FeatureSelector) (w : world)
    (category feature_id : pystr) (entry : component) r me' w' :
  catalog_lookup category feature_id = Some entry ->
  required entry = false ->
  toggle_feature category feature_id (me, w) = (Ok r, (me', w')) ->
  r = true /\
  ((selects (selected_features me) category feature_id = false /\
    selects (selected_features me') category feature_id = true /\
    w' = printed (py "Enabled: " ++ feature_id) w) \/
   (selects (selected_features me) category feature_id = true /\
    occurrences (selected_features me) category feature_id =
      S (occurrences (selected_features me') category feature_id) /\
    w' = printed (py "Disabled: " ++ feature_id) w)).
Proof.
  intros Hentry Hopt H.
  destruct (toggle_feature_success_shape _ _ _ _ _ _ _ Hentry Hopt H)
    as (d & items & Hd & Hitems).
  rewrite (toggle_feature_eval _ _ _ _ _ _ _ Hentry Hopt Hd Hitems) in H.
  unfold occurrences. rewrite Hd, !selects_dict, Hitems. simpl. rewrite Hitems.
  destruct (remove_first feature_id items) as [items'|] eqn:R.
  - apply pair_equal_spec in H as [Hr H]. apply pair_equal_spec in H as [<- <-].
    split; [congruence|]. right. simpl. rewrite assoc_dict_set_eq.
    destruct (remove_first_count _ _ _ R) as [Hc _]. split; [|split; [exact Hc | reflexivity]].
    destruct (existsb (eq_str feature_id) items) eqn:E; [reflexivity|].
    apply remove_first_None in E. congruence.
  - apply pair_equal_spec in H as [Hr H]. apply pair_equal_spec in H as [<- <-].
    split; [congruence|]. left. simpl. rewrite selects_dict, assoc_dict_set_eq. simpl.
    split; [apply remove_first_None; exact R|]. split; [|reflexivity].
    rewrite existsb_app. simpl. rewrite pystr_eqb_refl. apply orb_true_r.
Qed.

Lemma toggle_feature_reports_witness :
  true = true /\
  ((selects (selected_features fresh_selector) (py "optional") (py "reviews") = false /\
    selects (PDict [ (py "core", core_defaults);
                     (py "optional", PList [PStr (py "reviews")]) ])
      (py "optional") (py "reviews") = true /\
    printed (py "Enabled: reviews") empty_world =
      printed (py "Enabled: " ++ py "reviews") empty_world) \/
   (selects (selected_features fresh_selector) (py "optional") (py "reviews") = true /\
    occurrences (selected_features fresh_selector) (py "optional") (py "reviews") =
      S (occurrences (PDict [ (py "core", core_defaults);
                              (py "optional", PList [PStr (py "reviews")]) ])
           (py "optional") (py "reviews")) /\
    printed (py "Enabled: reviews") empty_world =
      printed (py "Disabled: " ++ py "reviews") empty_world)).
Proof.
  apply (toggle_feature_reports fresh_selector empty_world (py "optional") (py "reviews")
           (Component (py "Reviews Service") (py "Product reviews and ratings") false)
           true
           (mkFeatureSelector (py "ecommerce_config.json")
              (PDict [ (py "core", core_defaults);
                       (py "optional", PList [PStr (py "reviews")]) ]))
           (printed (py "Enabled: reviews") empty_world)).
  - reflexivity.
  - reflexivity.
  - reflexivity.
Defined.


(** C8 fails as stated: the call that enables [reviews] and the call that
    disables it return the same value, so no reading of the returned value
    tells the two statuses apart. *)
Lemma toggle_feature_return_counterexample :
  ~ exists decode : bool -> status,
      (forall r s', toggle_feature (py "optional") (py "reviews")
                      (fresh_selector, empty_world) = (Ok r, s') ->
                    decode r = enabled) /\
      (forall r s', toggle_feature (py "optional") (py "reviews")
                      (reviews_selector, empty_world) = (Ok r, s') ->
                    decode r = disabled).
Proof.
  intros (decode & Hadd & Hremove).
  assert (E1 : decode true = enabled) by (eapply Hadd; reflexivity).
  assert (E2 : decode true = disabled) by (eapply Hremove; reflexivity).
  congruence.
Qed.

(** C2: on every selector, a toggle of a pair that is not in the catalog
    fails (returns [False]) with the diagnostic that the feature was not
    found, and a toggle of a pair the catalog marks as required fails with
    the diagnostic that a required feature cannot be disabled; in both
    cases the selector, and with it the selection state, is unchanged. *)
Theorem toggle_feature_failures (me : FeatureSelector) (w : world) (category feature_id : pystr) :
  (catalog_lookup category feature_id = None ->
   toggle_feature category feature_id (me, w) =
     (Ok false, (me, printed (msg_not_found category feature_id) w))) /\
  (forall entry, catalog_lookup category feature_id = Some entry ->
   required entry = true ->
   toggle_feature category feature_id (me, w) =
     (Ok false, (me, printed (msg_required feature_id) w))).
Proof.
  unfold catalog_lookup, toggle_feature.
  destruct (assoc category FEATURES) as [data|]; [|split; [reflexivity | discriminate]].
  split.
  - intros ->. reflexivity.
  - intros entry -> ->. reflexivity.
Qed.

Lemma toggle_feature_failures_witness :
  toggle_feature (py "extras") (py "reviews") (fresh_selector, empty_world) =
    (Ok false, (fresh_selector,
                printed (msg_not_found (py "extras") (py "reviews")) empty_world)) /\
  toggle_feature (py "core") (py "gateway") (fresh_selector, empty_world) =
    (Ok false, (fresh_selector, printed (msg_required (py "gateway")) empty_world)).
Proof.
  split.
  - apply (proj1 (toggle_feature_failures fresh_selector empty_world (py "extras") (py "reviews"))).
    reflexivity.
  - apply (proj2 (toggle_feature_failures fresh_selector empty_world (py "core") (py "gateway"))
             (Component (py "API Gateway") (py "Entry point for all client requests") true)).
    + reflexivity.
    + reflexivity.
Defined.

(** ** Loading and saving *)

Lemma default_config_eq : default_config = Ok default_state.
Proof. reflexivity. Qed.

(** C3: when the configuration file is absent, loading yields the default
    selection state: every category of the catalog is a key of it, and the
    list under the key holds exactly the identifiers the catalog marks as
    required in that category. *)
Theorem load_config_default (me : FeatureSelector) (w : world) :
  os_path_exists (config_file me) w = (Ok false, w) ->
  _load_config (me, w) = (Ok default_state, (me, w)) /\
  FeatureSelector_init (config_file me) w =
    (Ok (mkFeatureSelector (config_file me) default_state), w) /\
  forall category data,
    assoc category FEATURES = Some data ->
    subscript default_state category = Ok (PList (map PStr (required_ids data))).
Proof.
  intros Habsent.
  assert (Hload : forall o, config_file o = config_file me ->
            _load_config (o, w) = (Ok default_state, (o, w))).
  { intros o Ho. unfold _load_config, bind, self, in_world, lift_result. simpl.
    rewrite Ho, Habsent. simpl. rewrite default_config_eq. reflexivity. }
  split; [apply Hload; reflexivity|]. split.
  - unfold FeatureSelector_init. rewrite Hload by reflexivity. reflexivity.
  - intros category data Hcat. simpl in Hcat. unfold pystr_eqb in Hcat.
    repeat case_bool_decide; simplify_eq; reflexivity.
Qed.

Lemma load_config_default_witness :
  _load_config (fresh_selector, empty_world) = (Ok default_state, (fresh_selector, empty_world)) /\
  FeatureSelector_init (config_file fresh_selector) empty_world =
    (Ok (mkFeatureSelector (config_file fresh_selector) default_state), empty_world) /\
  forall category data,
    assoc category FEATURES = Some data ->
    subscript default_state category = Ok (PList (map PStr (required_ids data))).
Proof. apply (load_config_default fresh_selector empty_world). reflexivity. Defined.

(** ** The decoder raises nothing but [JSONDecodeError] *)

Lemma cons_fst_raise {A B} (a : A) (r : result (list A * B)) e :
  cons_fst a r = Raise e -> r = Raise e.
Proof. destruct r as [[l b]|e']; simpl; congruence. Qed.

Ltac break_match :=
  match goal with
  | |- context [match ?x with _ => _ end] => destruct x eqn:?
  | |- context [if ?b then _ else _] => destruct b eqn:?
  end.

Lemma scanstring_raise fuel : forall s e,
  scanstring fuel s = Raise e -> e = JSONDecodeError.
Proof.
  induction fuel as [|fuel IH]; intros s e; simpl; [congruence|].
  repeat (break_match; try congruence);
    intros H; apply cons_fst_raise in H; eauto.
Qed.

Lemma scan_raise fuel :
  (forall s e, scan_once fuel s = Raise e -> e = JSONDecodeError) /\
  (forall s e, scan_items fuel s = Raise e -> e = JSONDecodeError) /\
  (forall s e, scan_pairs fuel s = Raise e -> e = JSONDecodeError).
Proof.
  induction fuel as [|fuel (IHv & IHi & IHp)]; [repeat split; simpl; congruence|].
  repeat split; intros s e; simpl.
  - repeat (break_match; try congruence); intros [= <-];
      eauto using scanstring_raise.
  - repeat (break_match; try congruence); intros H;
      try apply cons_fst_raise in H; try (injection H as <-); eauto.
  - repeat (break_match; try congruence); intros H;
      try apply cons_fst_raise in H; try (injection H as <-);
      eauto using scanstring_raise.
Qed.

Lemma json_loads_raise text e : json_loads text = Raise e -> e = JSONDecodeError.
Proof.
  unfold json_loads.
  repeat (break_match; try congruence); intros H; injection H as H; subst.
  eapply (proj1 (scan_raise _)); eassumption.
Qed.


(** ** Loading an existing file *)

Lemma file_at_exists (w : world) (p text : pystr) :
  file_at w p = Some text ->
  os_path_exists p w = (Ok true, w) /\ read_text p w = (Ok text, w).
Proof.
  unfold file_at, os_path_exists, read_text.
  destruct (resolve w p) as [l|e]; [|discriminate].
  destruct (fs w !! l) as [[|t]|] eqn:E; try discriminate.
  intros [= ->]. split; [|reflexivity].
  rewrite bool_decide_eq_true_2 by eauto. reflexivity.
Qed.

Lemma load_config_existing (me : FeatureSelector) (w : world) (text : pystr) :
  file_at w (config_file me) = Some text ->
  _load_config (me, w) = (json_loads text, (me, w)).
Proof.
  intros H. destruct (file_at_exists _ _ _ H) as [Hex Hrd].
  unfold _load_config, bind, self, in_world, json_load, lift_result. simpl.
  rewrite Hex. simpl. unfold bind. rewrite Hrd. destruct me; reflexivity.
Qed.

Lemma init_existing (w : world) (p text : pystr) :
  file_at w p = Some text ->
  FeatureSelector_init p w =
    match json_loads text with
    | Ok v => (Ok (mkFeatureSelector p v), w)
    | Raise e => (Raise e, w)
    end.
Proof.
  intros H. unfold FeatureSelector_init.
  rewrite (load_config_existing (mkFeatureSelector p PNone) w text H).
  destruct (json_loads text); reflexivity.
Qed.

(** C6: when a file exists at the path and its text is not valid JSON,
    loading raises [JSONDecodeError], from [_load_config] and from the
    constructor of the selector alike; the default state is not returned. *)
Theorem load_config_malformed (me : FeatureSelector) (w : world) (text : pystr) :
  file_at w (config_file me) = Some text ->
  (forall v, json_loads text <> Ok v) ->
  _load_config (me, w) = (Raise JSONDecodeError, (me, w)) /\
  FeatureSelector_init (config_file me) w = (Raise JSONDecodeError, w) /\
  fst (_load_config (me, w)) <> Ok default_state.
Proof.
  intros Hfile Hbad.
  rewrite (load_config_existing _ _ _ Hfile), (init_existing _ _ _ Hfile).
  destruct (json_loads text) as [v|e] eqn:E; [destruct (Hbad v eq_refl)|].
  apply json_loads_raise in E. subst e. repeat split. simpl. discriminate.
Qed.

Lemma load_config_malformed_witness :
  _load_config (fresh_selector, world_with_config (pyq "{`core`: [")) =
    (Raise JSONDecodeError, (fresh_selector, world_with_config (pyq "{`core`: ["))) /\
  FeatureSelector_init (config_file fresh_selector) (world_with_config (pyq "{`core`: [")) =
    (Raise JSONDecodeError, world_with_config (pyq "{`core`: [")) /\
  fst (_load_config (fresh_selector, world_with_config (pyq "{`core`: ["))) <> Ok default_state.
Proof.
  apply (load_config_malformed fresh_selector (world_with_config (pyq "{`core`: ["))
           (pyq "{`core`: [")).
  - reflexivity.
  - intros v H. vm_compute in H. discriminate.
Defined.

(** C10: a file that holds valid JSON is loaded as it is, whatever its
    shape. The file [{"core": ["bogus"]}] yields a state without the key
    [optional], with an identifier the catalog does not know and without
    the required [gateway]; on it a toggle of the optional pair
    ([optional], [reviews]) raises [KeyError]. *)
Theorem load_config_unvalidated :
  (forall (me : FeatureSelector) (w : world) (text : pystr) (v : pyval),
     file_at w (config_file me) = Some text ->
     json_loads text = Ok v ->
     _load_config (me, w) = (Ok v, (me, w)) /\
     FeatureSelector_init (config_file me) w =
       (Ok (mkFeatureSelector (config_file me) v), w)) /\
  FeatureSelector_init (py "ecommerce_config.json") (world_with_config core_only_text) =
    (Ok core_only_selector, world_with_config core_only_text) /\
  subscript (selected_features core_only_selector) (py "optional") =
    Raise (KeyError (py "optional")) /\
  selects (selected_features core_only_selector) (py "core") (py "bogus") = true /\
  catalog_lookup (py "core") (py "bogus") = None /\
  selects (selected_features core_only_selector) (py "core") (py "gateway") = false /\
  (exists entry, catalog_lookup (py "optional") (py "reviews") = Some entry /\
                 required entry = false) /\
  toggle_feature (py "optional") (py "reviews")
    (core_only_selector, world_with_config core_only_text) =
    (Raise (KeyError (py "optional")), (core_only_selector, world_with_config core_only_text)).
Proof.
  split.
  - intros me w text v Hfile Hv.
    rewrite (load_config_existing _ _ _ Hfile), (init_existing _ _ _ Hfile), Hv.
    split; reflexivity.
  - repeat split; try reflexivity. eexists. split; reflexivity.
Qed.

Lemma load_config_unvalidated_witness :
  _load_config (fresh_selector, world_with_config core_only_text) =
    (Ok (selected_features core_only_selector),
     (fresh_selector, world_with_config core_only_text)) /\
  FeatureSelector_init (config_file fresh_selector) (world_with_config core_only_text) =
    (Ok (mkFeatureSelector (config_file fresh_selector) (selected_features core_only_selector)),
     world_with_config core_only_text).
Proof.
  apply (proj1 load_config_unvalidated fresh_selector (world_with_config core_only_text)
           core_only_text (selected_features core_only_selector)).
  - reflexivity.
  - reflexivity.
Defined.


(** ** Generation *)

Lemma generate_dockerfile_idle (me : InventoryServiceGenerator) (w : world) :
  generate_dockerfile (me, w) = (Ok tt, (me, w)).
Proof. reflexivity. Qed.

(** C1 fails on the code: [generate] runs [generate_main], which writes
    [main.py], and [generate_dockerfile], which writes nothing. After a run
    from the empty world with the default selection state the directory
    [generated/inventory] holds [main.py] only. *)
Theorem generate_writes_no_dockerfile :
  (forall (me : InventoryServiceGenerator) (w : world),
     generate_dockerfile (me, w) = (Ok tt, (me, w))) /\
  (exists w',
     generate_microservices (py "ecommerce_config.json") (py "generated") empty_world =
       (Ok tt, w') /\
     fs w' = generated_tree /\
     listdir (fs w') [py "inventory"; py "generated"] = [py "main.py"] /\
     file_at w' (py "generated/inventory/main.py") = Some main_py /\
     file_at w' (py "generated/inventory/Dockerfile") = None /\
     os_path_exists (py "generated/inventory/Dockerfile") w' = (Ok false, w')).
Proof.
  split; [exact generate_dockerfile_idle|].
  eexists. split; [vm_compute; reflexivity|].
  repeat split; vm_compute; reflexivity.
Qed.

Lemma dispatch_unregistered (dir feature_id : pystr) (w : world) :
  assoc feature_id generators = None ->
  dispatch dir (PStr feature_id) w = (Ok tt, w).
Proof. intros H. unfold dispatch, bind, lift_result, key_in. rewrite H. reflexivity. Qed.

Lemma dispatch_registered (dir feature_id : pystr) (cls : generator_class) (w : world) :
  assoc feature_id generators = Some cls ->
  dispatch dir (PStr feature_id) w =
    call_on (@create _ (instance_methods cls)) (@generate _ (instance_methods cls) dir) w.
Proof. intros H. unfold dispatch, bind, lift_result, key_in. rewrite H. reflexivity. Qed.

Lemma for_each_registered (dir : pystr) (ids : list pystr) (w : world) :
  for_each (map PStr ids) (dispatch dir) w =
  for_each (map PStr (filter (fun id => registered id = true) ids)) (dispatch dir) w.
Proof.
  revert w. induction ids as [|id ids IH]; intros w; [reflexivity|].
  rewrite filter_cons. destruct (decide (registered id = true)) as [E|E].
  - simpl. unfold bind. destruct (dispatch dir (PStr id) w) as [[[]|e] w'];
      [apply IH | reflexivity].
  - assert (Hnone : assoc id generators = None).
    { unfold registered in E. destruct (assoc id generators) eqn:Ha; [|reflexivity].
      destruct E. apply bool_decide_eq_true. eauto. }
    simpl. unfold bind. rewrite (dispatch_unregistered _ _ _ Hnone). apply IH.
Qed.



(** ** Writing a file in place *)

Lemma walk_insert_file (t : gmap loc node) (l : loc) (text : pystr) :
  t !! l <> Some Dir ->
  forall names cur l0,
    walk t cur names = Ok l0 -> walk (<[l := File text]> t) cur names = Ok l0.
Proof.
  intros Hl names. induction names as [|nm names IH]; intros cur l0; simpl; [tauto|].
  destruct (t !! cur) as [[|x]|] eqn:E; try discriminate.
  intros H. rewrite lookup_insert_ne by congruence. rewrite E. apply IH. exact H.
Qed.

Lemma resolve_insert_file (w : world) (l : loc) (text p : pystr) (l0 : loc) :
  fs w !! l <> Some Dir ->
  resolve w p = Ok l0 ->
  resolve (set_fs (<[l := File text]> (fs w)) w) p = Ok l0.
Proof.
  intros Hl. unfold resolve. destruct p as [|c p]; [discriminate|].
  simpl. apply walk_insert_file. exact Hl.
Qed.


Lemma open_w_ok (w : world) (p : pystr) (l : loc) :
  resolve w p = Ok l -> fs w !! l <> Some Dir ->
  open_w p w = (Ok l, written l [] w).
Proof.
  intros Hr Hl. unfold open_w. rewrite Hr.
  destruct (fs w !! l) as [[|x]|]; [congruence| |]; reflexivity.
Qed.

Lemma append_text_written (l : loc) (text : pystr) (w : world) :
  append_text l text (fs (written l [] w)) = fs (written l text w).
Proof.
  unfold append_text, written. simpl. rewrite lookup_insert_eq.
  simpl. apply insert_insert_eq.
Qed.

Lemma file_at_written (w : world) (p : pystr) (l : loc) (text : pystr) :
  resolve w p = Ok l -> fs w !! l <> Some Dir ->
  file_at (written l text w) p = Some text.
Proof.
  intros Hr Hl. unfold file_at, written.
  rewrite (resolve_insert_file _ _ _ _ _ Hl Hr). simpl.
  rewrite lookup_insert_eq. reflexivity.
Qed.


Section Save.

Variable float_repr : pystr -> pystr.

Lemma save_config_eval (me : FeatureSelector) (w : world) (l : loc) :
  resolve w (config_file me) = Ok l ->
  fs w !! l <> Some Dir ->
  save_config float_repr (me, w) =
    let text := json_dumps float_repr (selected_features me) in
    match budget w with
    | None =>
        (Ok tt, (me, printed (py "Configuration saved to " ++ config_file me)
                       (written l text w)))
    | Some b =>
        if (length text <=? b)%nat
        then (Ok tt, (me, printed (py "Configuration saved to " ++ config_file me)
                            (set_budget (Some (b - length text)%nat) (written l text w))))
        else (Raise NoSpaceError, (me, set_budget (Some O) (written l (take b text) w)))
    end.
Proof.
  intros Hr Hl.
  assert (Happ : forall text,
            append_text l text (<[l := File []]> (fs w)) = <[l := File text]> (fs w)).
  { intros text. apply (append_text_written l text w). }
  unfold save_config, bind, self, in_world. simpl.
  rewrite (open_w_ok _ _ _ Hr Hl). simpl.
  unfold json_dump, write. simpl.
  destruct (budget w) as [b|]; simpl.
  - destruct (length (json_dumps float_repr (selected_features me)) <=? b)%nat; simpl;
      rewrite Happ; destruct me; reflexivity.
  - rewrite Happ. destruct me; reflexivity.
Qed.

(** C9, as amended: [save_config] empties the file when it opens it and
    writes the text of the state in place. When the device accepts the whole
    text the file holds exactly the text; when the device accepts only [b]
    characters, fewer than the text has, the save raises and the file is
    left with the first [b] characters of the new text. *)
Theorem save_config_in_place (me : FeatureSelector) (w : world) (l : loc) :
  resolve w (config_file me) = Ok l ->
  fs w !! l <> Some Dir ->
  (forall b, budget w = Some b ->
     (b < length (json_dumps float_repr (selected_features me)))%nat ->
     exists w',
       save_config float_repr (me, w) = (Raise NoSpaceError, (me, w')) /\
       file_at w' (config_file me) =
         Some (take b (json_dumps float_repr (selected_features me)))) /\
  ((budget w = None \/
    exists b, budget w = Some b /\
              (length (json_dumps float_repr (selected_features me)) <= b)%nat) ->
   exists w',
     save_config float_repr (me, w) = (Ok tt, (me, w')) /\
     file_at w' (config_file me) = Some (json_dumps float_repr (selected_features me))).
Proof.
  intros Hr Hl. rewrite (save_config_eval _ _ _ Hr Hl). simpl. split.
  - intros b -> Hb. apply Nat.leb_gt in Hb. rewrite Hb.
    eexists. split; [reflexivity|].
    apply (file_at_written w _ _ _ Hr Hl).
  - intros [-> | (b & -> & Hb)].
    + eexists. split; [reflexivity|]. apply (file_at_written w _ _ _ Hr Hl).
    + apply Nat.leb_le in Hb. rewrite Hb.
      eexists. split; [reflexivity|]. apply (file_at_written w _ _ _ Hr Hl).
Qed.

End Save.


Lemma save_config_in_place_witness :
  exists w',
    save_config repr_as_read (fresh_selector, nearly_full_world) =
      (Raise NoSpaceError, (fresh_selector, w')) /\
    file_at w' (config_file fresh_selector) = Some (take 12 (config_text fresh_selector)).
Proof.
  apply (proj1 (save_config_in_place repr_as_read fresh_selector nearly_full_world
                  [py "ecommerce_config.json"]
                  eq_refl
                  (fun H => eq_ind (Some (File (config_text reviews_selector)))
                              (fun x => match x with
                                        | Some (File _) => True
                                        | _ => False
                                        end) I _ H)) 12%nat).
  - reflexivity.
  - vm_compute. lia.
Defined.

(** C9 fails as stated: with room for twelve characters on the device, the
    save of the default state over a file that held a complete
    configuration raises, and leaves in the file the first twelve
    characters of the new text instead of the previous content. *)
Lemma save_config_truncates_counterexample :
  exists w',
    save_config repr_as_read (fresh_selector, nearly_full_world) =
      (Raise NoSpaceError, (fresh_selector, w')) /\
    file_at nearly_full_world (config_file fresh_selector) =
      Some (config_text reviews_selector) /\
    json_loads (config_text reviews_selector) = Ok (selected_features reviews_selector) /\
    file_at w' (config_file fresh_selector) = Some (take 12 (config_text fresh_selector)) /\
    json_loads (take 12 (config_text fresh_selector)) = Raise JSONDecodeError /\
    file_at w' (config_file fresh_selector) <>
      file_at nearly_full_world (config_file fresh_selector).
Proof.
  eexists. split; [vm_compute; reflexivity|].
  split; [vm_compute; reflexivity|].
  split; [vm_compute; reflexivity|].
  split; [vm_compute; reflexivity|].
  split; [vm_compute; reflexivity|].
  intros H. vm_compute in H. discriminate.
Qed.

(** ** Escapes of the encoder, read back by the decoder *)

Lemma hex_value_digit (d : N) : d < 16 -> hex_value (hex_digit d) = Some d.
Proof.
  intros H. unfold hex_value, hex_digit, is_digit.
  destruct (d <? 10) eqn:E.
  - apply N.ltb_lt in E.
    rewrite (proj2 (N.leb_le 48 (48 + d))) by lia.
    rewrite (proj2 (N.leb_le (48 + d) 57)) by lia. simpl. f_equal. lia.
  - apply N.ltb_ge in E.
    rewrite (proj2 (N.leb_gt (87 + d) 57)) by lia. rewrite andb_false_r.
    rewrite (proj2 (N.leb_le 97 (87 + d))) by lia.
    rewrite (proj2 (N.leb_le (87 + d) 102)) by lia. simpl. f_equal. lia.
Qed.

Lemma hex4_value (c : N) :
  c < 65536 ->
  4096 * (c / 4096 mod 16) + 256 * (c / 256 mod 16) + 16 * (c / 16 mod 16) + c mod 16 = c.
Proof.
  intros H. zify. Z.to_euclidean_division_equations. lia.
Qed.

Lemma land_shifted_low (a b k : N) : b < 2 ^ k -> N.land (a * 2 ^ k) b = 0.
Proof.
  intros Hb. apply N.bits_inj. intros i. rewrite N.land_spec, N.bits_0.
  destruct (N.lt_ge_cases i k) as [Hi|Hi].
  - rewrite N.mul_pow2_bits_low by exact Hi. reflexivity.
  - destruct (N.eq_dec b 0) as [->|Hne]; [rewrite N.bits_0; apply andb_false_r|].
    rewrite (N.bits_above_log2 b i); [apply andb_false_r|].
    apply N.log2_lt_pow2; [lia|].
    eapply N.lt_le_trans; [exact Hb|]. apply N.pow_le_mono_r; [discriminate|exact Hi].
Qed.

Lemma lor_shifted_low (a b k : N) : b < 2 ^ k -> N.lor (a * 2 ^ k) b = a * 2 ^ k + b.
Proof.
  intros Hb. pose proof (land_shifted_low a b k Hb) as H.
  rewrite (N.add_nocarry_lxor _ _ H). symmetry. apply N.lxor_lor. exact H.
Qed.

(** The two halves of the surrogate pair of a code point beyond the basic
    plane. *)
Lemma surrogate_halves (c : N) :
  65536 <= c -> c <= 1114111 ->
  let n := c - 65536 in
  N.lor 55296 (N.land (N.shiftr n 10) 1023) = 55296 + n / 1024 /\
  N.lor 56320 (N.land n 1023) = 56320 + n mod 1024 /\
  n / 1024 < 1024.
Proof.
  intros Hlo Hhi n.
  assert (Hn : n < 1048576) by (unfold n; lia).
  assert (Hq : n / 1024 < 1024) by (apply N.Div0.div_lt_upper_bound; exact Hn).
  change 1023 with (N.ones 10). rewrite !N.land_ones, N.shiftr_div_pow2.
  change (2 ^ 10) with 1024. rewrite (N.mod_small (n / 1024)) by exact Hq.
  change 55296 with (54 * 2 ^ 10). change 56320 with (55 * 2 ^ 10).
  rewrite !lor_shifted_low.
  - auto.
  - apply N.mod_lt. discriminate.
  - exact Hq.
Qed.

Lemma join_surrogates_halves (q r : N) :
  q < 1024 -> r < 1024 ->
  join_surrogates (55296 + q) (56320 + r) = 65536 + (1024 * q + r).
Proof.
  intros Hq Hr. unfold join_surrogates.
  change 1023 with (N.ones 10). rewrite !N.land_ones, N.shiftl_mul_pow2.
  change (2 ^ 10) with 1024.
  replace ((55296 + q) mod 1024) with q
    by (zify; Z.to_euclidean_division_equations; lia).
  replace ((56320 + r) mod 1024) with r
    by (zify; Z.to_euclidean_division_equations; lia).
  change 1024 with (2 ^ 10). rewrite lor_shifted_low by exact Hr.
  f_equal. lia.
Qed.


Lemma decode_hex4_hex4 (c : N) (rest : pystr) :
  c < 65536 -> decode_hex4 (hex4 c ++ rest) = Some (c, rest).
Proof.
  intros H. unfold hex4, decode_hex4. simpl.
  rewrite !hex_value_digit by (apply N.mod_lt; discriminate).
  rewrite (hex4_value c H). reflexivity.
Qed.

Lemma escape_char_cases (c : N) :
  c <= 1114111 ->
  (exists e, escape_char c = [92; e] /\ e <> 117 /\ unescape e = Some c) \/
  (escape_char c = [c] /\ c <> 34 /\ c <> 92 /\ 32 <= c) \/
  (escape_char c = [92; 117] ++ hex4 c /\ c < 65536) \/
  (exists q r, escape_char c = [92; 117] ++ hex4 (55296 + q) ++ [92; 117] ++ hex4 (56320 + r) /\
               q < 1024 /\ r < 1024 /\ c = 65536 + (1024 * q + r)).
Proof.
  intros Hc. unfold escape_char.
  destruct (c =? 34) eqn:E1;
    [apply N.eqb_eq in E1; subst; left; exists 34; repeat split; discriminate|].
  destruct (c =? 92) eqn:E2;
    [apply N.eqb_eq in E2; subst; left; exists 92; repeat split; discriminate|].
  destruct (c =? 10) eqn:E3;
    [apply N.eqb_eq in E3; subst; left; exists 110; repeat split; discriminate|].
  destruct (c =? 13) eqn:E4;
    [apply N.eqb_eq in E4; subst; left; exists 114; repeat split; discriminate|].
  destruct (c =? 9) eqn:E5;
    [apply N.eqb_eq in E5; subst; left; exists 116; repeat split; discriminate|].
  destruct (c =? 12) eqn:E6;
    [apply N.eqb_eq in E6; subst; left; exists 102; repeat split; discriminate|].
  destruct (c =? 8) eqn:E7;
    [apply N.eqb_eq in E7; subst; left; exists 98; repeat split; discriminate|].
  apply N.eqb_neq in E1, E2.
  destruct ((32 <=? c) && (c <=? 126)) eqn:E8.
  - apply andb_true_iff in E8 as [E8 _]. apply N.leb_le in E8.
    right. left. auto.
  - destruct (c <? 65536) eqn:E9.
    + apply N.ltb_lt in E9. right. right. left. auto.
    + apply N.ltb_ge in E9. right. right. right.
      destruct (surrogate_halves c E9 Hc) as (Hhi & Hlo & Hq). simpl in Hhi, Hlo.
      exists ((c - 65536) / 1024), ((c - 65536) mod 1024).
      rewrite Hhi, Hlo. split; [reflexivity|]. split; [exact Hq|].
      split; [apply N.mod_lt; discriminate|].
      zify. Z.to_euclidean_division_equations. lia.
Qed.

Lemma scanstring_u (fuel : nat) (t1 : pystr) :
  scanstring (S fuel) (92 :: 117 :: t1) =
    match decode_hex4 t1 with
    | None => Raise JSONDecodeError
    | Some (u, t2) =>
        match (if is_high_surrogate u then low_surrogate_escape t2 else None) with
        | Some (lo, t3) => cons_fst (join_surrogates u lo) (scanstring fuel t3)
        | None => cons_fst u (scanstring fuel t2)
        end
    end.
Proof. reflexivity. Qed.

Lemma low_surrogate_escape_u (t : pystr) :
  low_surrogate_escape (92 :: 117 :: t) =
    match decode_hex4 t with
    | Some (lo, rest) => if is_low_surrogate lo then Some (lo, rest) else None
    | None => None
    end.
Proof. reflexivity. Qed.

Lemma scanstring_char (c : N) (tail : pystr) (fuel : nat) :
  c <= 1114111 ->
  (is_high_surrogate c = true -> low_surrogate_escape tail = None) ->
  scanstring (S fuel) (escape_char c ++ tail) = cons_fst c (scanstring fuel tail).
Proof.
  intros Hc Hnext.
  destruct (escape_char_cases c Hc)
    as [(e & -> & He & Hu) | [(-> & H34 & H92 & H32) | [(-> & H16) | (q & r & -> & Hq & Hr & ->)]]].
  - simpl. apply N.eqb_neq in He. rewrite He, Hu. reflexivity.
  - simpl. apply N.eqb_neq in H34, H92. rewrite H34, H92.
    rewrite (proj2 (N.ltb_ge c 32)) by exact H32. reflexivity.
  - change (([92; 117] ++ hex4 c) ++ tail) with (92 :: 117 :: hex4 c ++ tail).
    rewrite scanstring_u, (decode_hex4_hex4 c tail H16).
    destruct (is_high_surrogate c); [rewrite Hnext by reflexivity|]; reflexivity.
  - replace (([92; 117] ++ hex4 (55296 + q) ++ [92; 117] ++ hex4 (56320 + r)) ++ tail)
      with (92 :: 117 :: hex4 (55296 + q) ++ (92 :: 117 :: hex4 (56320 + r) ++ tail))
      by (simpl; rewrite <- ?app_assoc; reflexivity).
    rewrite scanstring_u, decode_hex4_hex4 by lia.
    assert (Hh : is_high_surrogate (55296 + q) = true).
    { unfold is_high_surrogate. apply andb_true_iff. split; apply N.leb_le; lia. }
    assert (Hl : is_low_surrogate (56320 + r) = true).
    { unfold is_low_surrogate. apply andb_true_iff. split; apply N.leb_le; lia. }
    rewrite Hh, low_surrogate_escape_u, decode_hex4_hex4 by lia. rewrite Hl.
    rewrite (join_surrogates_halves q r Hq Hr). reflexivity.
Qed.

Lemma low_surrogate_escape_char (d : N) (more : pystr) :
  d <= 1114111 ->
  is_low_surrogate d = false ->
  low_surrogate_escape (escape_char d ++ more) = None.
Proof.
  intros Hd Hlow.
  destruct (escape_char_cases d Hd)
    as [(e & -> & He & Hu) | [(-> & H34 & H92 & H32) | [(-> & H16) | (q & r & -> & Hq & Hr & ->)]]].
  - simpl. apply N.eqb_neq in He. rewrite He. reflexivity.
  - simpl. destruct more as [|b more]; [reflexivity|].
    apply N.eqb_neq in H92. rewrite H92. reflexivity.
  - change (([92; 117] ++ hex4 d) ++ more) with (92 :: 117 :: hex4 d ++ more).
    rewrite low_surrogate_escape_u, decode_hex4_hex4 by exact H16.
    rewrite Hlow. reflexivity.
  - replace (([92; 117] ++ hex4 (55296 + q) ++ [92; 117] ++ hex4 (56320 + r)) ++ more)
      with (92 :: 117 :: hex4 (55296 + q) ++ (92 :: 117 :: hex4 (56320 + r) ++ more))
      by (simpl; rewrite <- ?app_assoc; reflexivity).
    rewrite low_surrogate_escape_u, decode_hex4_hex4 by lia.
    replace (is_low_surrogate (55296 + q)) with false; [reflexivity|].
    symmetry. unfold is_low_surrogate. apply andb_false_iff. left. apply N.leb_gt. lia.
Qed.

(** The decoder reads back the escaped form of a string. *)
Lemma scanstring_escaped (s : pystr) : forall (fuel : nat) (rest : pystr),
  text_ok s = true ->
  (length s < fuel)%nat ->
  scanstring fuel (flat_map escape_char s ++ 34 :: rest) = Ok (s, rest).
Proof.
  induction s as [|c t IH]; intros fuel rest Hok Hfuel.
  - destruct fuel; [simpl in Hfuel; lia|]. reflexivity.
  - destruct fuel as [|fuel]; [simpl in Hfuel; lia|].
    simpl in Hok. apply andb_true_iff in Hok as [Hok Ht].
    apply andb_true_iff in Hok as [Hc Hpair]. apply N.leb_le in Hc.
    simpl flat_map. rewrite <- app_assoc.
    rewrite scanstring_char; [| exact Hc |].
    + rewrite IH; [reflexivity | exact Ht | simpl in Hfuel; lia].
    + intros Hhigh. rewrite Hhigh in Hpair. simpl in Hpair.
      destruct t as [|d t'].
      * simpl. destruct rest as [|b rest']; reflexivity.
      * simpl flat_map. rewrite <- app_assoc. apply low_surrogate_escape_char.
        -- simpl in Ht. apply andb_true_iff in Ht as [Ht _].
           apply andb_true_iff in Ht as [Ht _]. apply N.leb_le. exact Ht.
        -- apply negb_true_iff. exact Hpair.
Qed.


(** ** The decoder reads back what the encoder writes *)

Lemma skip_ws_app (u s : pystr) : forallb is_ws u = true -> skip_ws (u ++ s) = skip_ws s.
Proof.
  induction u as [|c u IH]; simpl; [reflexivity|].
  intros H. apply andb_true_iff in H as [Hc Hu]. rewrite Hc. apply IH. exact Hu.
Qed.

Lemma newline_indent_ws (level : nat) : forallb is_ws (newline_indent level) = true.
Proof.
  unfold newline_indent. generalize (2 * level)%nat. intros n. simpl.
  induction n as [|n IH]; [reflexivity|exact IH].
Qed.

Lemma skip_ws_indent (level : nat) (c : N) (s : pystr) :
  is_ws c = false -> skip_ws (newline_indent level ++ c :: s) = c :: s.
Proof.
  intros Hc. rewrite skip_ws_app by apply newline_indent_ws. simpl. rewrite Hc. reflexivity.
Qed.

Lemma encode_str_app (s rest : pystr) :
  encode_str s ++ rest = 34 :: flat_map escape_char s ++ 34 :: rest.
Proof. unfold encode_str. simpl. rewrite <- app_assoc. reflexivity. Qed.

Lemma scan_once_quote (fuel : nat) (t : pystr) :
  scan_once (S fuel) (34 :: t) =
    match scanstring fuel t with
    | Ok (str, rest) => Ok (PStr str, rest)
    | Raise e => Raise e
    end.
Proof. reflexivity. Qed.

Lemma scan_once_str (s : pystr) (fuel : nat) (rest : pystr) :
  text_ok s = true ->
  (length s + 2 <= fuel)%nat ->
  scan_once fuel (encode_str s ++ rest) = Ok (PStr s, rest).
Proof.
  intros Hok Hfuel. destruct fuel as [|fuel]; [lia|].
  rewrite encode_str_app, scan_once_quote, scanstring_escaped by (auto; lia).
  reflexivity.
Qed.

Lemma scan_items_close (fuel : nat) (s : pystr) (v : pyval) (rest t : pystr) :
  scan_once fuel s = Ok (v, rest) ->
  skip_ws rest = 93 :: t ->
  scan_items (S fuel) s = Ok ([v], t).
Proof. intros H1 H2. simpl. rewrite H1, H2. reflexivity. Qed.

Lemma scan_items_comma (fuel : nat) (s : pystr) (v : pyval) (rest t : pystr) :
  scan_once fuel s = Ok (v, rest) ->
  skip_ws rest = 44 :: t ->
  scan_items (S fuel) s = cons_fst v (scan_items fuel (skip_ws t)).
Proof. intros H1 H2. simpl. rewrite H1, H2. reflexivity. Qed.

Lemma join_cons2 (sep x y : pystr) (l : list pystr) :
  join sep (x :: y :: l) = x ++ sep ++ join sep (y :: l).
Proof. reflexivity. Qed.

Lemma join_encode_str_head (sep : pystr) (s : pystr) (ss : list pystr) (more : pystr) :
  exists tl, join sep (map encode_str (s :: ss)) ++ more = 34 :: tl.
Proof.
  destruct ss as [|s' ss].
  - change (join sep (map encode_str [s])) with (encode_str s).
    rewrite encode_str_app. eauto.
  - change (map encode_str (s :: s' :: ss))
      with (encode_str s :: encode_str s' :: map encode_str ss).
    rewrite join_cons2, <- app_assoc, encode_str_app. eauto.
Qed.

(** The items of a non-empty list of strings, up to the closing bracket. *)
Lemma scan_items_strs (lv0 lv1 : nat) (rest : pystr) (ss : list pystr) :
  forall (s : pystr) (fuel : nat),
    Forall (fun x => text_ok x = true) (s :: ss) ->
    (items_need (s :: ss) <= fuel)%nat ->
    scan_items fuel
      (join ([44] ++ newline_indent lv1) (map encode_str (s :: ss)) ++
       newline_indent lv0 ++ 93 :: rest) =
    Ok (map PStr (s :: ss), rest).
Proof.
  induction ss as [|s' ss IH]; intros s fuel Hok Hfuel.
  - unfold items_need in Hfuel. simpl in Hfuel.
    destruct fuel as [|fuel]; [lia|].
    apply Forall_inv in Hok.
    change (join ([44] ++ newline_indent lv1) (map encode_str [s])) with (encode_str s).
    apply scan_items_close with (rest := newline_indent lv0 ++ 93 :: rest).
    + apply scan_once_str; [exact Hok | lia].
    + apply skip_ws_indent. reflexivity.
  - unfold items_need in Hfuel. simpl in Hfuel.
    destruct fuel as [|fuel]; [lia|].
    pose proof (Forall_inv Hok) as Hs. apply Forall_inv_tail in Hok.
    change (map encode_str (s :: s' :: ss))
      with (encode_str s :: map encode_str (s' :: ss)).
    change (map encode_str (s' :: ss)) with (encode_str s' :: map encode_str ss) at 1.
    rewrite join_cons2, <- !app_assoc.
    change (encode_str s' :: map encode_str ss) with (map encode_str (s' :: ss)).
    destruct (join_encode_str_head ([44] ++ newline_indent lv1) s' ss
                (newline_indent lv0 ++ 93 :: rest)) as [tl Htl].
    erewrite scan_items_comma;
      [| apply scan_once_str; [exact Hs | lia] | reflexivity].
    rewrite Htl, skip_ws_indent by reflexivity. rewrite <- Htl.
    rewrite IH; [reflexivity | exact Hok |].
    unfold items_need. simpl. lia.
Qed.


Section Readback.

Variable float_repr : pystr -> pystr.

Lemma scan_once_list_empty (fuel : nat) (t t' : pystr) :
  skip_ws t = 93 :: t' -> scan_once (S fuel) (91 :: t) = Ok (PList [], t').
Proof. intros H. simpl. rewrite H. reflexivity. Qed.

Lemma scan_once_list_items (fuel : nat) (t t' rest : pystr) (items : list pyval) :
  skip_ws t = 34 :: t' ->
  scan_items fuel (34 :: t') = Ok (items, rest) ->
  scan_once (S fuel) (91 :: t) = Ok (PList items, rest).
Proof. intros H1 H2. simpl scan_once. rewrite H1. simpl N.eqb. cbv iota. rewrite H2. reflexivity. Qed.

Lemma encode_str_list_nil (lv : nat) : encode float_repr lv (str_list []) = [91; 93].
Proof. reflexivity. Qed.

Lemma encode_str_list_cons (lv : nat) (s : pystr) (ss : list pystr) :
  encode float_repr lv (str_list (s :: ss)) =
    [91] ++ newline_indent (S lv) ++
    join ([44] ++ newline_indent (S lv)) (map encode_str (s :: ss)) ++
    newline_indent lv ++ [93].
Proof.
  unfold str_list. simpl map at 1. simpl encode.
  rewrite map_map. reflexivity.
Qed.

(** A list of strings, read back as a value. *)
Lemma scan_once_str_list (lv : nat) (ss : list pystr) (fuel : nat) (rest : pystr) :
  Forall (fun x => text_ok x = true) ss ->
  (S (items_need ss) <= fuel)%nat ->
  scan_once fuel (encode float_repr lv (str_list ss) ++ rest) = Ok (str_list ss, rest).
Proof.
  intros Hok Hfuel. destruct fuel as [|fuel]; [lia|].
  destruct ss as [|s ss].
  - rewrite encode_str_list_nil. apply scan_once_list_empty. reflexivity.
  - rewrite encode_str_list_cons.
    replace (([91] ++ newline_indent (S lv) ++
              join ([44] ++ newline_indent (S lv)) (map encode_str (s :: ss)) ++
              newline_indent lv ++ [93]) ++ rest)
      with (91 :: newline_indent (S lv) ++
            (join ([44] ++ newline_indent (S lv)) (map encode_str (s :: ss)) ++
             newline_indent lv ++ 93 :: rest))
      by (rewrite <- !app_assoc; reflexivity).
    destruct (join_encode_str_head ([44] ++ newline_indent (S lv)) s ss
                (newline_indent lv ++ 93 :: rest)) as [tl Htl].
    eapply scan_once_list_items.
    + rewrite Htl. apply skip_ws_indent. reflexivity.
    + rewrite <- Htl. apply scan_items_strs; [exact Hok | lia].
Qed.

Lemma encode_str_list_head (lv : nat) (ss : list pystr) (rest : pystr) :
  exists tl, encode float_repr lv (str_list ss) ++ rest = 91 :: tl.
Proof.
  destruct ss as [|s ss].
  - rewrite encode_str_list_nil. simpl. eauto.
  - rewrite encode_str_list_cons. simpl. eauto.
Qed.

Lemma scan_pairs_last (fuel : nat) (s key r1 t : pystr) (v : pyval) (r2 t2 : pystr) :
  scanstring fuel s = Ok (key, r1) ->
  skip_ws r1 = 58 :: t ->
  scan_once fuel (skip_ws t) = Ok (v, r2) ->
  skip_ws r2 = 125 :: t2 ->
  scan_pairs (S fuel) s = Ok ([(key, v)], t2).
Proof.
  intros H1 H2 H3 H4. simpl scan_pairs. rewrite H1, H2. simpl N.eqb. cbv iota.
  rewrite H3, H4. reflexivity.
Qed.

Lemma scan_pairs_more (fuel : nat) (s key r1 t : pystr) (v : pyval) (r2 t2 t3 : pystr) :
  scanstring fuel s = Ok (key, r1) ->
  skip_ws r1 = 58 :: t ->
  scan_once fuel (skip_ws t) = Ok (v, r2) ->
  skip_ws r2 = 44 :: t2 ->
  skip_ws t2 = 34 :: t3 ->
  scan_pairs (S fuel) s = cons_fst (key, v) (scan_pairs fuel t3).
Proof.
  intros H1 H2 H3 H4 H5. simpl scan_pairs. rewrite H1, H2. simpl N.eqb. cbv iota.
  rewrite H3, H4. simpl N.eqb. cbv iota. rewrite H5. reflexivity.
Qed.

Lemma scan_once_dict_empty (fuel : nat) (t t' : pystr) :
  skip_ws t = 125 :: t' -> scan_once (S fuel) (123 :: t) = Ok (PDict [], t').
Proof. intros H. simpl. rewrite H. reflexivity. Qed.

Lemma scan_once_dict_pairs (fuel : nat) (t t' rest : pystr) (pairs : list (pystr * pyval)) :
  skip_ws t = 34 :: t' ->
  scan_pairs fuel t' = Ok (pairs, rest) ->
  scan_once (S fuel) (123 :: t) = Ok (PDict (dict_of_pairs pairs), rest).
Proof.
  intros H1 H2. simpl scan_once. rewrite H1. simpl N.eqb. cbv iota.
  rewrite H2. reflexivity.
Qed.


Lemma str_list_pair_text_head (lv : nat) (kv : pystr * list pystr) (more : pystr) :
  str_list_pair_text float_repr lv kv ++ more =
    34 :: flat_map escape_char (fst kv) ++
    34 :: 58 :: 32 :: encode float_repr lv (str_list (snd kv)) ++ more.
Proof.
  unfold str_list_pair_text, pair_text. cbn [fst snd].
  rewrite <- !app_assoc, encode_str_app. reflexivity.
Qed.

Lemma join_pair_text_head (sep : pystr) (lv : nat) (kv : pystr * list pystr)
    (d : list (pystr * list pystr)) (more : pystr) :
  exists tl, join sep (map (str_list_pair_text float_repr lv) (kv :: d)) ++ more = 34 :: tl.
Proof.
  destruct d as [|kv' d].
  - change (join sep (map (str_list_pair_text float_repr lv) [kv])) with (str_list_pair_text float_repr lv kv).
    rewrite str_list_pair_text_head. eauto.
  - change (map (str_list_pair_text float_repr lv) (kv :: kv' :: d))
      with (str_list_pair_text float_repr lv kv :: str_list_pair_text float_repr lv kv' ::
            map (str_list_pair_text float_repr lv) d).
    rewrite join_cons2, <- app_assoc, str_list_pair_text_head. eauto.
Qed.

(** The pairs of a non-empty dict of lists of strings, from the character
    after the opening quote of the first key up to the closing brace. *)
Lemma scan_pairs_str_lists (lv0 lv1 : nat) (rest : pystr) (d : list (pystr * list pystr)) :
  forall (kv : pystr * list pystr) (fuel : nat) (T : pystr),
    Forall pair_ok (kv :: d) ->
    (pairs_need (kv :: d) <= fuel)%nat ->
    34 :: T = join ([44] ++ newline_indent lv1) (map (str_list_pair_text float_repr lv1) (kv :: d)) ++
              newline_indent lv0 ++ 125 :: rest ->
    scan_pairs fuel T =
      Ok (map (fun kv => (fst kv, str_list (snd kv))) (kv :: d), rest).
Proof.
  induction d as [|kv' d IH]; intros kv fuel T Hok Hfuel HT.
  - unfold pairs_need in Hfuel. simpl in Hfuel.
    destruct fuel as [|fuel]; [lia|].
    apply Forall_inv in Hok. destruct Hok as [Hk Hv].
    change (join ([44] ++ newline_indent lv1) (map (str_list_pair_text float_repr lv1) [kv]))
      with (str_list_pair_text float_repr lv1 kv) in HT.
    rewrite str_list_pair_text_head in HT. injection HT as ->.
    destruct (encode_str_list_head lv1 (snd kv) (newline_indent lv0 ++ 125 :: rest))
      as [tl Htl].
    apply scan_pairs_last
      with (key := fst kv)
           (r1 := 58 :: 32 :: encode float_repr lv1 (str_list (snd kv)) ++
                  newline_indent lv0 ++ 125 :: rest)
           (t := 32 :: encode float_repr lv1 (str_list (snd kv)) ++
                 newline_indent lv0 ++ 125 :: rest)
           (v := str_list (snd kv))
           (r2 := newline_indent lv0 ++ 125 :: rest).
    + apply scanstring_escaped; [exact Hk | lia].
    + reflexivity.
    + rewrite Htl. simpl skip_ws. rewrite <- Htl.
      apply scan_once_str_list; [exact Hv | lia].
    + apply skip_ws_indent. reflexivity.
  - unfold pairs_need in Hfuel. simpl in Hfuel.
    destruct fuel as [|fuel]; [lia|].
    pose proof (Forall_inv Hok) as [Hk Hv]. apply Forall_inv_tail in Hok.
    change (map (str_list_pair_text float_repr lv1) (kv :: kv' :: d))
      with (str_list_pair_text float_repr lv1 kv :: str_list_pair_text float_repr lv1 kv' ::
            map (str_list_pair_text float_repr lv1) d) in HT.
    rewrite join_cons2, <- !app_assoc in HT.
    change (str_list_pair_text float_repr lv1 kv' :: map (str_list_pair_text float_repr lv1) d)
      with (map (str_list_pair_text float_repr lv1) (kv' :: d)) in HT.
    rewrite str_list_pair_text_head in HT. injection HT as ->.
    destruct (join_pair_text_head ([44] ++ newline_indent lv1) lv1 kv' d
                (newline_indent lv0 ++ 125 :: rest)) as [T' HT'].
    destruct (encode_str_list_head lv1 (snd kv)
                ([44] ++ newline_indent lv1 ++
                 join ([44] ++ newline_indent lv1)
                   (map (str_list_pair_text float_repr lv1) (kv' :: d)) ++
                 newline_indent lv0 ++ 125 :: rest))
      as [tl Htl].
    rewrite scan_pairs_more
      with (key := fst kv)
           (r1 := 58 :: 32 :: encode float_repr lv1 (str_list (snd kv)) ++
                  [44] ++ newline_indent lv1 ++
                  join ([44] ++ newline_indent lv1)
                    (map (str_list_pair_text float_repr lv1) (kv' :: d)) ++
                  newline_indent lv0 ++ 125 :: rest)
           (t := 32 :: encode float_repr lv1 (str_list (snd kv)) ++
                 [44] ++ newline_indent lv1 ++
                 join ([44] ++ newline_indent lv1)
                   (map (str_list_pair_text float_repr lv1) (kv' :: d)) ++
                 newline_indent lv0 ++ 125 :: rest)
           (v := str_list (snd kv))
           (r2 := [44] ++ newline_indent lv1 ++
                  join ([44] ++ newline_indent lv1)
                    (map (str_list_pair_text float_repr lv1) (kv' :: d)) ++
                  newline_indent lv0 ++ 125 :: rest)
           (t2 := newline_indent lv1 ++
                  join ([44] ++ newline_indent lv1)
                    (map (str_list_pair_text float_repr lv1) (kv' :: d)) ++
                  newline_indent lv0 ++ 125 :: rest)
           (t3 := T').
    + rewrite (IH kv' fuel T' Hok); [reflexivity | | symmetry; exact HT'].
      unfold pairs_need. simpl. lia.
    + apply scanstring_escaped; [exact Hk | lia].
    + reflexivity.
    + rewrite Htl. simpl skip_ws. rewrite <- Htl.
      apply scan_once_str_list; [exact Hv | lia].
    + reflexivity.
    + rewrite HT'. apply skip_ws_indent. reflexivity.
Qed.

Lemma encode_dict_nil (lv : nat) : encode float_repr lv (str_lists_dict []) = [123; 125].
Proof. reflexivity. Qed.

Lemma encode_dict_cons (lv : nat) (kv : pystr * list pystr) (d : list (pystr * list pystr)) :
  encode float_repr lv (str_lists_dict (kv :: d)) =
    [123] ++ newline_indent (S lv) ++
    join ([44] ++ newline_indent (S lv)) (map (str_list_pair_text float_repr (S lv)) (kv :: d)) ++
    newline_indent lv ++ [125].
Proof.
  unfold str_lists_dict. simpl map at 1. simpl encode.
  rewrite map_map. reflexivity.
Qed.

(** *** Keys that differ keep the pairs as they are *)

Lemma dict_set_fresh {V} (k : pystr) (v : V) (d : list (pystr * V)) :
  k ∉ keys d -> dict_set k v d = d ++ [(k, v)].
Proof.
  induction d as [|[k' v'] d IH]; simpl; [reflexivity|].
  intros Hk. apply not_elem_of_cons in Hk as [Hne Hk].
  rewrite (proj2 (pystr_eqb_neq k' k)) by congruence.
  rewrite IH by exact Hk. reflexivity.
Qed.

Lemma dict_of_pairs_from {V} (l acc : list (pystr * V)) :
  NoDup (keys (acc ++ l)) ->
  fold_left (fun d kv => dict_set (fst kv) (snd kv) d) l acc = acc ++ l.
Proof.
  revert acc. induction l as [|[k v] l IH]; intros acc Hnd; simpl.
  - rewrite app_nil_r. reflexivity.
  - assert (Hk : k ∉ keys acc).
    { unfold keys in *. rewrite map_app in Hnd. apply NoDup_app in Hnd as (_ & Hdis & _).
      intros Hin. apply (Hdis k Hin). simpl. left. }
    rewrite (dict_set_fresh k v acc Hk).
    rewrite IH; rewrite <- app_assoc; [reflexivity | exact Hnd].
Qed.

Lemma dict_of_pairs_nodup {V} (l : list (pystr * V)) :
  NoDup (keys l) -> dict_of_pairs l = l.
Proof. intros H. unfold dict_of_pairs. apply (dict_of_pairs_from l []). exact H. Qed.

(** *** The fuel of [json_loads] is enough *)

Lemma escape_char_length (c : N) : (1 <= length (escape_char c))%nat.
Proof.
  unfold escape_char.
  repeat match goal with
         | |- context [if ?b then _ else _] => destruct b
         end; simpl; lia.
Qed.

Lemma flat_map_escape_length (s : pystr) : (length s <= length (flat_map escape_char s))%nat.
Proof.
  induction s as [|c s IH]; simpl; [lia|].
  rewrite length_app. pose proof (escape_char_length c). lia.
Qed.

Lemma encode_str_length (s : pystr) : (length s + 2 <= length (encode_str s))%nat.
Proof.
  unfold encode_str. rewrite !length_app. simpl.
  pose proof (flat_map_escape_length s). lia.
Qed.

Lemma join_length (sep : pystr) (l : list pystr) :
  (list_sum (map length l) <= length (join sep l))%nat.
Proof.
  induction l as [|x l IH]; [simpl; lia|].
  destruct l as [|y l]; [simpl; lia|].
  rewrite join_cons2, !length_app. simpl in *. lia.
Qed.

Lemma list_sum_cons (x : nat) (l : list nat) : list_sum (x :: l) = (x + list_sum l)%nat.
Proof. reflexivity. Qed.

Lemma items_need_bound (lv : nat) (ss : list pystr) :
  (items_need ss + 2 <= 2 * length (encode float_repr lv (str_list ss)))%nat.
Proof.
  destruct ss as [|s ss]; [rewrite encode_str_list_nil; simpl; lia|].
  rewrite encode_str_list_cons, !length_app.
  pose proof (join_length ([44] ++ newline_indent (S lv)) (map encode_str (s :: ss))) as Hj.
  assert (Hsum : (items_need (s :: ss) <= 2 * list_sum (map length (map encode_str (s :: ss))))%nat).
  { unfold items_need. generalize (s :: ss). intros l.
    induction l as [|x l IH]; [simpl; lia|].
    rewrite !map_cons, !list_sum_cons.
    pose proof (encode_str_length x). lia. }
  simpl length at 1.
  generalize dependent (items_need (s :: ss)).
  generalize dependent (list_sum (map length (map encode_str (s :: ss)))).
  generalize dependent
    (length (join ([44] ++ newline_indent (S lv)) (map encode_str (s :: ss)))).
  intros a b Hj c Hsum. lia.
Qed.

Lemma pairs_need_bound (lv : nat) (d : list (pystr * list pystr)) :
  (pairs_need d <= 2 * length (encode float_repr lv (str_lists_dict d)))%nat.
Proof.
  destruct d as [|kv d]; [rewrite encode_dict_nil; unfold pairs_need; simpl; lia|].
  rewrite encode_dict_cons, !length_app.
  pose proof (join_length ([44] ++ newline_indent (S lv))
                (map (str_list_pair_text float_repr (S lv)) (kv :: d))) as Hj.
  assert (Hsum : (pairs_need (kv :: d) <=
                  2 * list_sum (map length (map (str_list_pair_text float_repr (S lv)) (kv :: d))))%nat).
  { unfold pairs_need. generalize (kv :: d). intros l.
    induction l as [|x l IH]; [simpl; lia|].
    rewrite !map_cons, !list_sum_cons.
    unfold str_list_pair_text at 1, pair_text. cbn [fst snd]. rewrite !length_app.
    pose proof (encode_str_length (fst x)).
    pose proof (items_need_bound (S lv) (snd x)).
    change (length (py ": ")) with 2%nat.
    generalize dependent (length (encode float_repr (S lv) (str_list (snd x)))).
    generalize dependent (length (encode_str (fst x))).
    intros a Ha b Hb. lia. }
  generalize dependent (pairs_need (kv :: d)).
  generalize dependent
    (list_sum (map length (map (str_list_pair_text float_repr (S lv)) (kv :: d)))).
  generalize dependent
    (length (join ([44] ++ newline_indent (S lv))
               (map (str_list_pair_text float_repr (S lv)) (kv :: d)))).
  intros a b Hj c Hsum. lia.
Qed.

(** [json.loads(json.dumps(obj, indent=2))] is [obj] for a dict of lists of
    strings with distinct keys. *)
Lemma json_loads_dumps_str_lists (d : list (pystr * list pystr)) :
  Forall pair_ok d ->
  NoDup (map fst d) ->
  json_loads (json_dumps float_repr (str_lists_dict d)) = Ok (str_lists_dict d).
Proof.
  intros Hok Hnd. unfold json_loads, json_dumps.
  pose proof (pairs_need_bound 0 d) as Hfuel.
  set (fuel := (2 * length (encode float_repr 0 (str_lists_dict d)) + 2)%nat).
  assert (Hf : fuel = S (S (2 * length (encode float_repr 0 (str_lists_dict d)))))
    by (unfold fuel; lia).
  clearbody fuel. subst fuel.
  destruct d as [|kv d].
  - reflexivity.
  - rewrite encode_dict_cons in *.
    destruct (join_pair_text_head ([44] ++ newline_indent 1) 1 kv d
                (newline_indent 0 ++ [125])) as [T HT].
    replace ([123] ++ newline_indent 1 ++
             join ([44] ++ newline_indent 1) (map (str_list_pair_text float_repr 1) (kv :: d)) ++
             newline_indent 0 ++ [125])
      with (123 :: newline_indent 1 ++ 34 :: T)
      by (rewrite <- HT; reflexivity).
    change (starts_with [65279] (123 :: newline_indent 1 ++ 34 :: T)) with false.
    cbv iota.
    change (skip_ws (123 :: newline_indent 1 ++ 34 :: T))
      with (123 :: newline_indent 1 ++ 34 :: T).
    rewrite (scan_once_dict_pairs _ _ T []
               (map (fun kv => (fst kv, str_list (snd kv))) (kv :: d))).
    + change (skip_ws []) with (@nil N). cbv iota.
      rewrite dict_of_pairs_nodup; [reflexivity|].
      unfold keys. rewrite map_map. exact Hnd.
    + apply skip_ws_indent. reflexivity.
    + apply scan_pairs_str_lists with (lv0 := 0%nat) (lv1 := 1%nat) (rest := []).
      * exact Hok.
      * replace (length (123 :: newline_indent 1 ++ 34 :: T))
          with (length ([123] ++ newline_indent 1 ++
                        join ([44] ++ newline_indent 1)
                          (map (str_list_pair_text float_repr 1) (kv :: d)) ++
                        newline_indent 0 ++ [125])).
        -- lia.
        -- rewrite HT. reflexivity.
      * symmetry. exact HT.
Qed.

Lemma storable_list_shape (v : pyval) :
  storable_list v = true ->
  exists ss, v = str_list ss /\ Forall (fun x => text_ok x = true) ss.
Proof.
  destruct v as [| | | | |items|]; simpl; try discriminate.
  induction items as [|x items IH]; simpl; intros H.
  - exists []. split; [reflexivity | constructor].
  - apply andb_true_iff in H as [Hx H]. destruct x; try discriminate.
    destruct (IH H) as (ss & Heq & Hss). injection Heq as ->.
    exists (s :: ss). split; [reflexivity | constructor; assumption].
Qed.

Lemma storable_shape (v : pyval) :
  storable v = true ->
  exists d, v = str_lists_dict d /\ Forall pair_ok d /\ NoDup (map fst d).
Proof.
  destruct v as [| | | | | |pairs]; simpl; try discriminate.
  intros H. apply andb_true_iff in H as [Hall Hnd]. apply bool_decide_eq_true in Hnd.
  revert Hnd. induction pairs as [|[k v] pairs IH]; intros Hnd.
  - exists []. repeat split; constructor.
  - simpl in Hall. apply andb_true_iff in Hall as [Hkv Hall].
    apply andb_true_iff in Hkv as [Hk Hv].
    destruct (storable_list_shape v Hv) as (ss & -> & Hss).
    unfold keys in Hnd. simpl in Hnd. apply NoDup_cons in Hnd as [Hnotin Hnd].
    destruct (IH Hall Hnd) as (d & Heq & Hd & Hdn).
    injection Heq as Heq.
    exists ((k, ss) :: d). split; [|split].
    + unfold str_lists_dict. simpl. rewrite Heq. reflexivity.
    + constructor; [split; assumption | exact Hd].
    + simpl. apply NoDup_cons. split; [|exact Hdn].
      rewrite Heq in Hnotin. rewrite map_map in Hnotin. exact Hnotin.
Qed.

(** [json.loads(json.dumps(obj, indent=2))] is [obj] for a storable state. *)
Lemma json_loads_dumps (v : pyval) :
  storable v = true -> json_loads (json_dumps float_repr v) = Ok v.
Proof.
  intros H. destruct (storable_shape v H) as (d & -> & Hok & Hnd).
  apply json_loads_dumps_str_lists; assumption.
Qed.

End Readback.

(** ** Saving, then loading *)

Lemma file_at_same_tree (w1 w2 : world) (p : pystr) :
  fs w1 = fs w2 -> cwd w1 = cwd w2 -> file_at w1 p = file_at w2 p.
Proof.
  intros Hfs Hcwd. unfold file_at, resolve. rewrite Hfs, Hcwd. reflexivity.
Qed.

Section SaveLoad.

Variable float_repr : pystr -> pystr.

(** A save that returns has left the text of the state in the file. *)
Lemma save_config_ok (me me' : FeatureSelector) (w w' : world) :
  save_config float_repr (me, w) = (Ok tt, (me', w')) ->
  me' = me /\
  file_at w' (config_file me) = Some (json_dumps float_repr (selected_features me)).
Proof.
  intros H.
  destruct (resolve w (config_file me)) as [l|e] eqn:Hr.
  - assert (Hcase : fs w !! l = Some Dir \/ fs w !! l <> Some Dir)
      by (destruct (fs w !! l) as [[|t]|]; [left; reflexivity | right; discriminate ..]).
    destruct Hcase as [Hd|Hd].
    + unfold save_config, bind, self, in_world, open_w in H. simpl in H.
      rewrite Hr, Hd in H. discriminate.
    + rewrite (save_config_eval float_repr me w l Hr Hd) in H. simpl in H.
      pose proof (file_at_written w (config_file me) l
                    (json_dumps float_repr (selected_features me)) Hr Hd) as Hfile.
      destruct (budget w) as [b|].
      * destruct (length (json_dumps float_repr (selected_features me)) <=? b)%nat;
          [|discriminate].
        apply pair_equal_spec in H as [_ H]. apply pair_equal_spec in H as [<- <-].
        split; [reflexivity|]. rewrite <- Hfile. apply file_at_same_tree; reflexivity.
      * apply pair_equal_spec in H as [_ H]. apply pair_equal_spec in H as [<- <-].
        split; [reflexivity|]. rewrite <- Hfile. apply file_at_same_tree; reflexivity.
  - unfold save_config, bind, self, in_world, open_w in H. simpl in H.
    rewrite Hr in H. discriminate.
Qed.

(** C5: for every selection state of type [Dict[str, List[str]]] the
    program can hold, a save that succeeds followed by a load from the same
    path yields the state that was saved: [_load_config] returns it, and a
    selector built from the path is equal to the one saved. *)
Theorem save_then_load (me me' : FeatureSelector) (w w' : world) :
  storable (selected_features me) = true ->
  save_config float_repr (me, w) = (Ok tt, (me', w')) ->
  me' = me /\
  _load_config (me', w') = (Ok (selected_features me), (me', w')) /\
  FeatureSelector_init (config_file me) w' = (Ok me, w').
Proof.
  intros Hst Hsave. destruct (save_config_ok _ _ _ _ Hsave) as [-> Hfile].
  split; [reflexivity|].
  rewrite (load_config_existing _ _ _ Hfile), (init_existing _ _ _ Hfile).
  rewrite (json_loads_dumps float_repr _ Hst). destruct me; split; reflexivity.
Qed.

End SaveLoad.

Lemma save_then_load_witness :
  two_optional_selector = two_optional_selector /\
  _load_config (two_optional_selector,
                printed (py "Configuration saved to ecommerce_config.json")
                  (world_with_config (config_text two_optional_selector))) =
    (Ok (selected_features two_optional_selector),
     (two_optional_selector,
      printed (py "Configuration saved to ecommerce_config.json")
        (world_with_config (config_text two_optional_selector)))) /\
  FeatureSelector_init (config_file two_optional_selector)
    (printed (py "Configuration saved to ecommerce_config.json")
       (world_with_config (config_text two_optional_selector))) =
    (Ok two_optional_selector,
     printed (py "Configuration saved to ecommerce_config.json")
       (world_with_config (config_text two_optional_selector))).
Proof.
  apply (save_then_load repr_as_read two_optional_selector two_optional_selector
           empty_world
           (printed (py "Configuration saved to ecommerce_config.json")
              (world_with_config (config_text two_optional_selector)))).
  - reflexivity.
  - vm_compute. reflexivity.
Defined.

(** ** The fuel of the decoder *)

(** The decoder consumes what it reads. *)

Lemma skip_ws_length (s : pystr) : (length (skip_ws s) <= length s)%nat.
Proof.
  induction s as [|c s IH]; simpl; [lia|]. destruct (is_ws c); simpl; lia.
Qed.

Lemma cons_fst_ok {A B} (a : A) (r : result (list A * B)) l b :
  cons_fst a r = Ok (l, b) -> exists l', r = Ok (l', b) /\ l = a :: l'.
Proof.
  destruct r as [[l' b']|e]; simpl; [|discriminate].
  intros [= <- <-]. eauto.
Qed.

Lemma decode_hex4_length (s : pystr) u rest :
  decode_hex4 s = Some (u, rest) -> (length rest < length s)%nat.
Proof.
  unfold decode_hex4.
  repeat (break_match; try discriminate). intros [= _ <-]. subst. simpl. lia.
Qed.

Lemma low_surrogate_escape_length (s : pystr) lo rest :
  low_surrogate_escape s = Some (lo, rest) -> (length rest < length s)%nat.
Proof.
  unfold low_surrogate_escape.
  repeat (break_match; try discriminate). intros [= _ <-]. subst.
  match goal with H : decode_hex4 _ = Some _ |- _ => apply decode_hex4_length in H end.
  simpl. lia.
Qed.

Lemma scanstring_length (fuel : nat) : forall s x rest,
  scanstring fuel s = Ok (x, rest) -> (length rest < length s)%nat.
Proof.
  induction fuel as [|fuel IH]; intros s x rest; simpl; [discriminate|].
  repeat (break_match; try discriminate); subst;
    try (intros [= _ <-]; simpl; lia);
    intros H; apply cons_fst_ok in H as (l' & H & _); apply IH in H;
    repeat match goal with
           | H : (if ?b then _ else _) = Some _ |- _ => destruct b; [|discriminate]
           | H : decode_hex4 _ = Some _ |- _ => apply decode_hex4_length in H
           | H : low_surrogate_escape _ = Some _ |- _ =>
               apply low_surrogate_escape_length in H
           end;
    simpl in *; lia.
Qed.

Lemma span_digits_length (s : pystr) ds rest :
  span_digits s = (ds, rest) -> (length rest <= length s)%nat.
Proof.
  revert ds rest. induction s as [|c s IH]; intros ds rest; simpl.
  - intros [= _ <-]. simpl. lia.
  - destruct (is_digit c).
    + destruct (span_digits s) as [ds' rest'] eqn:E. intros [= _ <-].
      specialize (IH _ _ eq_refl). lia.
    + intros [= _ <-]. simpl. lia.
Qed.

Lemma match_integer_length (s : pystr) lit rest :
  match_integer s = Some (lit, rest) -> (length rest < length s)%nat.
Proof.
  assert (Hdigits : forall s1 lit rest,
            match s1 with
            | c :: t =>
                if c =? 48 then Some (lit ++ [48], t)
                else if is_digit c
                     then let (ds, rest') := span_digits s1 in Some (lit ++ ds, rest')
                     else None
            | [] => None
            end = Some (rest : pystr * pystr) ->
            (length (snd rest) < length s1)%nat).
  { intros s1 l r. destruct s1 as [|c t]; [discriminate|].
    destruct (c =? 48); [intros [= <-]; simpl; lia|].
    destruct (is_digit c) eqn:Hd; [|discriminate].
    simpl span_digits. rewrite Hd.
    destruct (span_digits t) as [ds rest'] eqn:E. apply span_digits_length in E.
    intros [= <-]. simpl. lia. }
  unfold match_integer. destruct s as [|c t]; [discriminate|].
  destruct (c =? 45); intros H.
  - apply (Hdigits t [45] (lit, rest)) in H. simpl in *. lia.
  - apply (Hdigits (c :: t) [] (lit, rest)) in H. simpl in *. lia.
Qed.

Lemma match_frac_length (s : pystr) : (length (snd (match_frac s)) <= length s)%nat.
Proof.
  unfold match_frac.
  repeat (break_match; try discriminate); subst; simpl;
    repeat match goal with
           | H : span_digits _ = (_, _) |- _ => apply span_digits_length in H
           end;
    simpl in *; lia.
Qed.

Lemma match_exp_length (s : pystr) : (length (snd (match_exp s)) <= length s)%nat.
Proof.
  unfold match_exp. destruct s as [|c t]; [simpl; lia|].
  destruct ((c =? 101) || (c =? 69)); [|simpl; lia].
  set (p := match t with
            | d :: t' => if (d =? 45) || (d =? 43) then ([d], t') else ([], t)
            | [] => ([], t)
            end).
  assert (Hp : (length (snd p) <= length t)%nat).
  { unfold p. destruct t as [|d t']; [simpl; lia|].
    destruct ((d =? 45) || (d =? 43)); simpl; lia. }
  destruct p as [sign t1]. simpl in Hp.
  destruct (span_digits t1) as [ds rest] eqn:E. apply span_digits_length in E.
  destruct ds; simpl; lia.
Qed.

Lemma match_number_length (s : pystr) v rest :
  match_number s = Some (v, rest) -> (length rest < length s)%nat.
Proof.
  unfold match_number.
  destruct (match_integer s) as [[lit s1]|] eqn:Hi; [|discriminate].
  apply match_integer_length in Hi.
  pose proof (match_frac_length s1) as Hf.
  destruct (match_frac s1) as [frac s2]. simpl in Hf.
  pose proof (match_exp_length s2) as He.
  destruct (match_exp s2) as [exp s3]. simpl in He.
  repeat (break_match; try discriminate); intros [= _ <-]; lia.
Qed.

Lemma starts_with_drop (prefix s : pystr) :
  prefix <> [] -> starts_with prefix s = true ->
  (length (drop (length prefix) s) < length s)%nat.
Proof.
  intros Hne H.
  assert (Hlen : (length prefix <= length s)%nat).
  { clear Hne. revert s H. induction prefix as [|a p IH]; intros s H; simpl; [lia|].
    destruct s as [|b t]; [discriminate|]. simpl in H.
    apply andb_true_iff in H as [_ H]. apply IH in H. simpl. lia. }
  rewrite length_drop. destruct prefix; [congruence|]. simpl in *. lia.
Qed.

Lemma match_constant_length (s : pystr) v rest :
  match_constant s = Some (v, rest) -> (length rest < length s)%nat.
Proof.
  unfold match_constant.
  repeat (break_match; try discriminate); intros [= _ <-];
    match goal with
    | H : starts_with ?p s = true |- _ =>
        apply (starts_with_drop p s) in H; [exact H | discriminate]
    end.
Qed.

Lemma match_float_constant_length (s : pystr) v rest :
  match_float_constant s = Some (v, rest) -> (length rest < length s)%nat.
Proof.
  unfold match_float_constant.
  repeat (break_match; try discriminate); intros [= _ <-];
    match goal with
    | H : starts_with ?p s = true |- _ =>
        apply (starts_with_drop p s) in H; [exact H | discriminate]
    end.
Qed.

Ltac note_skip_ws :=
  repeat match goal with
         | H : skip_ws ?t = _ |- _ =>
             let L := fresh "L" in
             pose proof (skip_ws_length t) as L; rewrite H in L; clear H
         | H : context [length (skip_ws ?t)] |- _ =>
             lazymatch goal with
             | _ : (length (skip_ws t) <= length t)%nat |- _ => fail
             | _ => pose proof (skip_ws_length t)
             end
         end.

Ltac note_lengths IHv IHi IHp :=
  repeat match goal with
         | H : scanstring _ _ = Ok _ |- _ => apply scanstring_length in H
         | H : scan_once _ _ = Ok _ |- _ => apply IHv in H
         | H : scan_items _ _ = Ok _ |- _ => apply IHi in H
         | H : scan_pairs _ _ = Ok _ |- _ => apply IHp in H
         | H : match_constant _ = Some _ |- _ => apply match_constant_length in H
         | H : match_number _ = Some _ |- _ => apply match_number_length in H
         | H : match_float_constant _ = Some _ |- _ =>
             apply match_float_constant_length in H
         end;
  note_skip_ws.

Lemma scan_length (fuel : nat) :
  (forall s v rest, scan_once fuel s = Ok (v, rest) -> (length rest < length s)%nat) /\
  (forall s l rest, scan_items fuel s = Ok (l, rest) -> (length rest < length s)%nat) /\
  (forall s l rest, scan_pairs fuel s = Ok (l, rest) -> (length rest < length s)%nat).
Proof.
  induction fuel as [|fuel (IHv & IHi & IHp)]; [repeat split; intros; discriminate|].
  repeat split; intros s x rest; simpl;
    repeat (break_match; try discriminate); subst; intros H;
    try (apply cons_fst_ok in H as (l' & H & _));
    try (inversion H; subst; clear H);
    note_lengths IHv IHi IHp; simpl in *; lia.
Qed.

(** More fuel keeps a result. *)

Ltac break_hyp H :=
  repeat match type of H with
         | context [match ?x with _ => _ end] => destruct x eqn:?; try discriminate H
         | context [if ?b then _ else _] => destruct b eqn:?; try discriminate H
         end.

Lemma scanstring_more (fuel : nat) : forall s r,
  scanstring fuel s = Ok r -> scanstring (S fuel) s = Ok r.
Proof.
  induction fuel as [|fuel IH]; intros s r H; [discriminate|].
  remember (S fuel) as g eqn:Hg. simpl. rewrite Hg in H. simpl in H.
  destruct s as [|c t]; [discriminate|].
  break_hyp H; try exact H;
    destruct r as [x rest]; apply cons_fst_ok in H as (l' & H & ->);
    apply IH in H; rewrite H; reflexivity.
Qed.

Ltac lift_calls IHs IHv IHi IHp :=
  repeat match goal with
         | H : scanstring _ ?t = Ok _ |- context [scanstring _ ?t] =>
             apply IHs in H; rewrite H
         | H : scan_once _ ?t = Ok _ |- context [scan_once _ ?t] =>
             apply IHv in H; rewrite H
         | H : scan_items _ ?t = Ok _ |- context [scan_items _ ?t] =>
             apply IHi in H; rewrite H
         | H : scan_pairs _ ?t = Ok _ |- context [scan_pairs _ ?t] =>
             apply IHp in H; rewrite H
         | H : ?x = _ |- context [match ?x with _ => _ end] => rewrite H
         | H : ?b = _ |- context [if ?b then _ else _] => rewrite H
         end.

Lemma scan_more (fuel : nat) :
  (forall s r, scan_once fuel s = Ok r -> scan_once (S fuel) s = Ok r) /\
  (forall s r, scan_items fuel s = Ok r -> scan_items (S fuel) s = Ok r) /\
  (forall s r, scan_pairs fuel s = Ok r -> scan_pairs (S fuel) s = Ok r).
Proof.
  induction fuel as [|fuel (IHv & IHi & IHp)]; [repeat split; intros; discriminate|].
  pose proof (scanstring_more fuel) as IHs.
  remember (S fuel) as g eqn:Hg.
  repeat split; intros s r H; simpl; rewrite Hg in H; simpl in H.
  - destruct s as [|c t]; [discriminate|].
    break_hyp H; lift_calls IHs IHv IHi IHp; exact H.
  - break_hyp H; try (destruct r as [x rest]; apply cons_fst_ok in H as (l' & H & ->));
      lift_calls IHs IHv IHi IHp; try exact H; reflexivity.
  - break_hyp H; try (destruct r as [x rest]; apply cons_fst_ok in H as (l' & H & ->));
      lift_calls IHs IHv IHi IHp; try exact H; reflexivity.
Qed.

(** Fuel beyond the length of the text is not needed. *)

Ltac note_all :=
  repeat match goal with
         | H : (if ?b then _ else _) = Some _ |- _ => destruct b; [|discriminate H]
         | H : scanstring ?f ?s = Ok (?x, ?r) |- _ =>
             lazymatch goal with
             | _ : (length r < length s)%nat |- _ => fail
             | _ => pose proof (scanstring_length f s x r H)
             end
         | H : scan_once ?f ?s = Ok (?x, ?r) |- _ =>
             lazymatch goal with
             | _ : (length r < length s)%nat |- _ => fail
             | _ => pose proof (proj1 (scan_length f) s x r H)
             end
         | H : scan_items ?f ?s = Ok (?x, ?r) |- _ =>
             lazymatch goal with
             | _ : (length r < length s)%nat |- _ => fail
             | _ => pose proof (proj1 (proj2 (scan_length f)) s x r H)
             end
         | H : scan_pairs ?f ?s = Ok (?x, ?r) |- _ =>
             lazymatch goal with
             | _ : (length r < length s)%nat |- _ => fail
             | _ => pose proof (proj2 (proj2 (scan_length f)) s x r H)
             end
         | H : decode_hex4 ?s = Some (?u, ?r) |- _ =>
             lazymatch goal with
             | _ : (length r < length s)%nat |- _ => fail
             | _ => pose proof (decode_hex4_length s u r H)
             end
         | H : low_surrogate_escape ?s = Some (?u, ?r) |- _ =>
             lazymatch goal with
             | _ : (length r < length s)%nat |- _ => fail
             | _ => pose proof (low_surrogate_escape_length s u r H)
             end
         | H : skip_ws ?t = ?x |- _ =>
             lazymatch goal with
             | _ : (length x <= length t)%nat |- _ => fail
             | _ => let L := fresh "L" in
                    pose proof (skip_ws_length t) as L; rewrite H in L
             end
         | |- context [skip_ws ?t] =>
             lazymatch goal with
             | _ : (length (skip_ws t) <= length t)%nat |- _ => fail
             | _ => pose proof (skip_ws_length t)
             end
         | H : context [skip_ws ?t] |- _ =>
             lazymatch goal with
             | _ : (length (skip_ws t) <= length t)%nat |- _ => fail
             | _ => pose proof (skip_ws_length t)
             end
         end.

Ltac lower_calls IHs IHv IHi IHp :=
  repeat match goal with
         | H : scanstring _ ?t = Ok _ |- context [scanstring _ ?t] =>
             rewrite (IHs _ _ H) by (simpl in *; lia)
         | H : scan_once _ ?t = Ok _ |- context [scan_once _ ?t] =>
             rewrite (IHv _ _ H) by (simpl in *; lia)
         | H : scan_items _ ?t = Ok _ |- context [scan_items _ ?t] =>
             rewrite (IHi _ _ H) by (simpl in *; lia)
         | H : scan_pairs _ ?t = Ok _ |- context [scan_pairs _ ?t] =>
             rewrite (IHp _ _ H) by (simpl in *; lia)
         | H : ?x = _ |- context [match ?x with _ => _ end] => rewrite H
         | H : ?b = _ |- context [if ?b then _ else _] => rewrite H
         end.

Lemma scanstring_less (fuel : nat) : forall s r,
  scanstring (S fuel) s = Ok r -> (length s < fuel)%nat -> scanstring fuel s = Ok r.
Proof.
  induction fuel as [|fuel IH]; intros s r H Hlen; [lia|].
  remember (S fuel) as g eqn:Hg. simpl in H. rewrite Hg. simpl.
  destruct s as [|c t]; [discriminate|].
  break_hyp H; try exact H;
    destruct r as [x rest]; apply cons_fst_ok in H as (l' & H & ->);
    note_all;
    rewrite (IH _ _ H) by (simpl in *; lia); reflexivity.
Qed.

Lemma scan_less (fuel : nat) :
  (forall s r, scan_once (S fuel) s = Ok r -> (2 * length s + 1 <= fuel)%nat ->
               scan_once fuel s = Ok r) /\
  (forall s r, scan_items (S fuel) s = Ok r -> (2 * length s + 2 <= fuel)%nat ->
               scan_items fuel s = Ok r) /\
  (forall s r, scan_pairs (S fuel) s = Ok r -> (2 * length s + 2 <= fuel)%nat ->
               scan_pairs fuel s = Ok r).
Proof.
  induction fuel as [|fuel (IHv & IHi & IHp)]; [repeat split; intros; lia|].
  pose proof (scanstring_less fuel) as IHs.
  remember (S fuel) as g eqn:Hg.
  repeat split; intros s r H Hlen; simpl in H; rewrite Hg; simpl.
  - destruct s as [|c t]; [discriminate|].
    break_hyp H; note_all; lower_calls IHs IHv IHi IHp; exact H.
  - break_hyp H; try (destruct r as [x rest]; apply cons_fst_ok in H as (l' & H & ->));
      note_all; lower_calls IHs IHv IHi IHp; try exact H; reflexivity.
  - break_hyp H; try (destruct r as [x rest]; apply cons_fst_ok in H as (l' & H & ->));
      note_all; lower_calls IHs IHv IHi IHp; try exact H; reflexivity.
Qed.

Lemma scan_once_step (s : pystr) (fuel : nat) :
  (2 * length s + 1 <= fuel)%nat -> scan_once (S fuel) s = scan_once fuel s.
Proof.
  intros Hlen.
  destruct (scan_once fuel s) as [r|e] eqn:E.
  - apply (proj1 (scan_more fuel)). exact E.
  - destruct (scan_once (S fuel) s) as [r'|e'] eqn:E'.
    + apply (proj1 (scan_less fuel)) in E'; [congruence | exact Hlen].
    + apply (proj1 (scan_raise _)) in E, E'. congruence.
Qed.

(** The result of the value scanner does not depend on the fuel, once the
    fuel exceeds twice the length of the text. *)
Lemma scan_once_fuel (s : pystr) (fuel : nat) :
  (2 * length s + 1 <= fuel)%nat ->
  scan_once fuel s = scan_once (2 * length s + 1) s.
Proof.
  intros Hlen.
  replace fuel with ((fuel - (2 * length s + 1)) + (2 * length s + 1))%nat by lia.
  generalize (fuel - (2 * length s + 1))%nat. intros n.
  induction n as [|n IH]; [reflexivity|].
  change (S n + (2 * length s + 1))%nat with (S (n + (2 * length s + 1))).
  rewrite scan_once_step by lia. exact IH.
Qed.

(** The fuel [json_loads] gives the scanner is enough for every text. *)
Lemma json_loads_fuel (text : pystr) (fuel : nat) :
  (2 * length text + 2 <= fuel)%nat ->
  scan_once fuel (skip_ws text) = scan_once (2 * length text + 2) (skip_ws text).
Proof.
  intros Hlen. pose proof (skip_ws_length text).
  rewrite (scan_once_fuel (skip_ws text) fuel) by lia.
  rewrite (scan_once_fuel (skip_ws text) (2 * length text + 2)) by lia.
  reflexivity.
Qed.

(** * Further properties of the program *)

(** ** [toggle_feature] beyond its two checks *)

(** X1: a toggle that raises leaves the selector and the world as they
    were: nothing is printed and nothing is half updated. *)
Theorem toggle_feature_raise_unchanged (me : FeatureSelector) (w : world)
    (category feature_id : pystr) (e : exn) (s' : FeatureSelector * world) :
  toggle_feature category feature_id (me, w) = (Raise e, s') -> s' = (me, w).
Proof.
  unfold toggle_feature.
  destruct (assoc category FEATURES) as [data|]; [|discriminate].
  destruct (assoc feature_id (components data)) as [entry|]; [|discriminate].
  destruct (required entry); [discriminate|].
  unfold bind, self, lift_result, in_world, set_self, ret, print. simpl.
  destruct (subscript (selected_features me) category) as [x|e1]; simpl;
    [|intros [= _ <-]; reflexivity].
  destruct (contains feature_id x) as [[|]|e2]; simpl;
    [| |intros [= _ <-]; reflexivity].
  - destruct (method_remove feature_id x) as [x'|e3]; simpl;
      [discriminate | intros [= _ <-]; reflexivity].
  - destruct (method_append feature_id x) as [x'|e3]; simpl;
      [discriminate | intros [= _ <-]; reflexivity].
Qed.

Lemma toggle_feature_raise_unchanged_witness :
  (core_only_selector, world_with_config core_only_text) =
  (core_only_selector, world_with_config core_only_text).
Proof.
  apply (toggle_feature_raise_unchanged core_only_selector
           (world_with_config core_only_text) (py "optional") (py "reviews")
           (KeyError (py "optional"))).
  reflexivity.
Defined.

Lemma toggle_feature_unknown (me : FeatureSelector) (w : world)
    (category feature_id : pystr) :
  catalog_lookup category feature_id = None ->
  toggle_feature category feature_id (me, w) =
    (Ok false, (me, printed (msg_not_found category feature_id) w)).
Proof.
  unfold catalog_lookup, toggle_feature.
  destruct (assoc category FEATURES) as [data|]; [|reflexivity].
  intros ->. reflexivity.
Qed.

Lemma toggle_feature_required (me : FeatureSelector) (w : world)
    (category feature_id : pystr) (entry : component) :
  catalog_lookup category feature_id = Some entry ->
  required entry = true ->
  toggle_feature category feature_id (me, w) =
    (Ok false, (me, printed (msg_required feature_id) w)).
Proof.
  unfold catalog_lookup, toggle_feature.
  destruct (assoc category FEATURES) as [data|]; [|discriminate].
  intros -> ->. reflexivity.
Qed.

Lemma occurrences_dict (d : list (pystr * pyval)) category feature_id :
  occurrences (PDict d) category feature_id =
    match assoc category d with
    | Some (PList items) => count_str feature_id items
    | _ => O
    end.
Proof. unfold occurrences. simpl. destruct (assoc category d) as [[]|]; reflexivity. Qed.

(** X2: a toggle that returns changes nothing but the standard output, to
    which it adds one line, and the toggled identifier in the list of its
    category: every other pair is selected as before and occurs as often
    as before. *)
Theorem toggle_feature_frame (me : FeatureSelector) (w : world)
    (category feature_id : pystr) (b : bool) (me' : FeatureSelector) (w' : world) :
  toggle_feature category feature_id (me, w) = (Ok b, (me', w')) ->
  config_file me' = config_file me /\
  fs w' = fs w /\ cwd w' = cwd w /\ budget w' = budget w /\
  (exists line, stdout w' = stdout w ++ [line]) /\
  forall c i, c <> category \/ i <> feature_id ->
    selects (selected_features me') c i = selects (selected_features me) c i /\
    occurrences (selected_features me') c i = occurrences (selected_features me) c i.
Proof.
  intros H.
  destruct (catalog_lookup category feature_id) as [entry|] eqn:Hentry.
  - destruct (required entry) eqn:Hreq.
    + rewrite (toggle_feature_required me w category feature_id entry Hentry Hreq) in H.
      apply pair_equal_spec in H as [_ H]. apply pair_equal_spec in H as [<- <-].
      repeat split; eauto.
    + destruct (toggle_feature_success_shape _ _ _ _ _ _ _ Hentry Hreq H)
        as (d & items & Hd & Hitems).
      rewrite (toggle_feature_eval _ _ _ _ _ _ _ Hentry Hreq Hd Hitems) in H.
      assert (Hframe : forall items' w0,
                (forall t, t <> feature_id -> count_str t items' = count_str t items) ->
                (Ok true,
                 (set_selected_features (PDict (dict_set category (PList items') d)) me,
                  printed w0 w)) = (Ok b, (me', w')) ->
                config_file me' = config_file me /\
                fs w' = fs w /\ cwd w' = cwd w /\ budget w' = budget w /\
                (exists line, stdout w' = stdout w ++ [line]) /\
                forall c i, c <> category \/ i <> feature_id ->
                  selects (selected_features me') c i = selects (selected_features me) c i /\
                  occurrences (selected_features me') c i =
                    occurrences (selected_features me) c i).
      { intros items' w0 Hcount Heq.
        apply pair_equal_spec in Heq as [_ Heq]. apply pair_equal_spec in Heq as [<- <-].
        do 4 (split; [reflexivity|]). split; [eauto|].
        intros c i Hci. split.
        - simpl. rewrite Hd, !selects_dict.
          destruct (decide (category = c)) as [<-|Hne].
          + rewrite assoc_dict_set_eq, Hitems. simpl.
            apply existsb_eq_of_count. apply Hcount. destruct Hci; congruence.
          + rewrite assoc_dict_set_ne by exact Hne. reflexivity.
        - simpl. rewrite Hd, !occurrences_dict.
          destruct (decide (category = c)) as [<-|Hne].
          + rewrite assoc_dict_set_eq, Hitems. apply Hcount. destruct Hci; congruence.
          + rewrite assoc_dict_set_ne by exact Hne. reflexivity. }
      destruct (remove_first feature_id items) as [items'|] eqn:R.
      * apply (Hframe items' _ (proj2 (remove_first_count _ _ _ R)) H).
      * apply (Hframe (items ++ [PStr feature_id]) _) in H; [exact H|].
        intros t Ht. rewrite count_str_app, count_str_cons. simpl.
        rewrite (proj2 (pystr_eqb_neq feature_id t)) by congruence.
        unfold count_str at 2. simpl. lia.
  - rewrite (toggle_feature_unknown me w category feature_id Hentry) in H.
    apply pair_equal_spec in H as [_ H]. apply pair_equal_spec in H as [<- <-].
    repeat split; eauto.
Qed.

Lemma toggle_feature_frame_witness :
  config_file reviews_selector = config_file fresh_selector /\
  fs (printed (py "Enabled: reviews") empty_world) = fs empty_world /\
  cwd (printed (py "Enabled: reviews") empty_world) = cwd empty_world /\
  budget (printed (py "Enabled: reviews") empty_world) = budget empty_world /\
  (exists line, stdout (printed (py "Enabled: reviews") empty_world) =
                stdout empty_world ++ [line]) /\
  forall c i, c <> py "optional" \/ i <> py "reviews" ->
    selects (selected_features reviews_selector) c i =
      selects (selected_features fresh_selector) c i /\
    occurrences (selected_features reviews_selector) c i =
      occurrences (selected_features fresh_selector) c i.
Proof.
  apply (toggle_feature_frame fresh_selector empty_world (py "optional") (py "reviews")
           true reviews_selector (printed (py "Enabled: reviews") empty_world)).
  reflexivity.
Defined.

(** X3: on a state that is not a selection state, a toggle of an optional
    pair of the catalog raises and changes nothing: [KeyError] with the
    category when the dict has no such key, [TypeError] when the state is no
    dict or the value under the key is no container, [AttributeError] when
    the value is a dict or a string. *)
Theorem toggle_feature_malformed_state (me : FeatureSelector) (w : world)
    (category feature_id : pystr) (entry : component) :
  catalog_lookup category feature_id = Some entry ->
  required entry = false ->
  (forall d, selected_features me = PDict d -> assoc category d = None ->
     toggle_feature category feature_id (me, w) = (Raise (KeyError category), (me, w))) /\
  ((forall d, selected_features me <> PDict d) ->
     toggle_feature category feature_id (me, w) = (Raise TypeError, (me, w))) /\
  (forall d x, selected_features me = PDict d -> assoc category d = Some x ->
     match x with
     | PDict _ | PStr _ => toggle_feature category feature_id (me, w) =
                             (Raise AttributeError, (me, w))
     | PList _ => True
     | _ => toggle_feature category feature_id (me, w) = (Raise TypeError, (me, w))
     end).
Proof.
  unfold catalog_lookup, toggle_feature.
  destruct (assoc category FEATURES) as [data|]; [|discriminate].
  intros -> ->.
  unfold bind, self, lift_result, in_world, set_self, ret, print. simpl.
  split; [|split].
  - intros d -> Hnone. simpl. rewrite Hnone. reflexivity.
  - intros Hnot. destruct (selected_features me); try reflexivity.
    destruct (Hnot pairs eq_refl).
  - intros d x -> Hx. simpl. rewrite Hx. simpl.
    destruct x; try reflexivity; simpl.
    + destruct (is_substring feature_id s); reflexivity.
    + destruct (bool_decide _); reflexivity.
Qed.

Lemma toggle_feature_malformed_state_witness :
  toggle_feature (py "optional") (py "reviews")
    (core_only_selector, world_with_config core_only_text) =
    (Raise (KeyError (py "optional")), (core_only_selector, world_with_config core_only_text)).
Proof.
  apply (proj1 (toggle_feature_malformed_state core_only_selector
                  (world_with_config core_only_text) (py "optional") (py "reviews")
                  (Component (py "Reviews Service") (py "Product reviews and ratings") false)
                  eq_refl eq_refl)
           [ (py "core", PList [PStr (py "bogus")]) ]).
  - reflexivity.
  - reflexivity.
Defined.


(** ** The rules of the catalog are kept *)

Lemma remove_first_strs (s : pystr) (ids : list pystr) :
  remove_first s (map PStr ids) =
    if existsb (eq_str s) (map PStr ids) then Some (map PStr (remove_str s ids)) else None.
Proof.
  induction ids as [|x ids IH]; [reflexivity|].
  simpl. destruct (pystr_eqb x s); [reflexivity|].
  simpl. rewrite IH. destruct (existsb (eq_str s) (map PStr ids)); reflexivity.
Qed.

Lemma existsb_strs (s : pystr) (ids : list pystr) :
  existsb (eq_str s) (map PStr ids) = true <-> s ∈ ids.
Proof.
  induction ids as [|x ids IH]; simpl.
  - split; [discriminate | intros H; inversion H].
  - rewrite orb_true_iff, IH, elem_of_cons, pystr_eqb_eq. split; intros [H|H]; auto.
Qed.

Lemma remove_str_subset (s x : pystr) (ids : list pystr) :
  x ∈ remove_str s ids -> x ∈ ids.
Proof.
  induction ids as [|y ids IH]; simpl; [tauto|].
  destruct (pystr_eqb y s).
  - intros H. apply elem_of_cons. auto.
  - rewrite !elem_of_cons. intros [H|H]; auto.
Qed.

Lemma remove_str_other (s x : pystr) (ids : list pystr) :
  x <> s -> x ∈ ids -> x ∈ remove_str s ids.
Proof.
  intros Hne. induction ids as [|y ids IH]; simpl; [tauto|].
  destruct (pystr_eqb y s) eqn:E.
  - apply pystr_eqb_eq in E. subst y. rewrite elem_of_cons. intros [H|H]; [congruence|auto].
  - rewrite !elem_of_cons. intros [H|H]; auto.
Qed.

Lemma remove_str_nodup (s : pystr) (ids : list pystr) :
  NoDup ids -> NoDup (remove_str s ids).
Proof.
  induction ids as [|y ids IH]; simpl; [tauto|].
  intros H. apply NoDup_cons in H as [Hy H].
  destruct (pystr_eqb y s); [exact H|].
  apply NoDup_cons. split; [|auto].
  intros Hin. apply Hy. eapply remove_str_subset. exact Hin.
Qed.

Lemma length_dict_set {V} (k : pystr) (v : V) (d : list (pystr * V)) :
  is_Some (assoc k d) -> length (dict_set k v d) = length d.
Proof.
  induction d as [|[k' v'] d IH]; simpl; [intros [x Hx]; discriminate|].
  destruct (pystr_eqb k' k); [reflexivity|].
  intros H. simpl. rewrite IH by exact H. reflexivity.
Qed.

Lemma is_str_list_strs (ids : list pystr) : is_str_list (str_list ids) = true.
Proof. unfold str_list. simpl. induction ids; simpl; auto. Qed.

Lemma selection_state_dict_set (d : list (pystr * pyval)) (category : pystr) (x : pyval) :
  selection_state (PDict d) = true ->
  is_Some (assoc category d) ->
  is_str_list x = true ->
  selection_state (PDict (dict_set category x d)) = true.
Proof.
  unfold selection_state. intros H Hsome Hx.
  rewrite (length_dict_set category x d Hsome).
  destruct (decide (category = py "core")) as [->|Hc].
  - rewrite assoc_dict_set_eq.
    rewrite assoc_dict_set_ne
      by (intros E; apply (f_equal (fun l => length l)) in E; vm_compute in E; discriminate).
    destruct (assoc (py "core") d); [|discriminate].
    destruct (assoc (py "optional") d); [|discriminate].
    rewrite Hx. apply andb_true_iff in H as [H H2]. apply andb_true_iff in H as [_ H1].
    rewrite H1, H2. reflexivity.
  - rewrite (assoc_dict_set_ne category (py "core")) by exact Hc.
    destruct (assoc (py "core") d); [|discriminate].
    destruct (decide (category = py "optional")) as [->|Ho].
    + rewrite assoc_dict_set_eq.
      destruct (assoc (py "optional") d); [|discriminate].
      rewrite Hx. apply andb_true_iff in H as [H H2]. apply andb_true_iff in H as [H1 _].
      rewrite H1, H2. reflexivity.
    + rewrite (assoc_dict_set_ne category (py "optional")) by exact Ho. exact H.
Qed.

Lemma selection_state_dict (v : pyval) :
  selection_state v = true -> exists d, v = PDict d.
Proof. destruct v; try discriminate. eauto. Qed.

Lemma toggle_feature_valid_step (me : FeatureSelector) (w : world)
    (category feature_id : pystr) :
  valid_selection (selected_features me) ->
  exists b me' w',
    toggle_feature category feature_id (me, w) = (Ok b, (me', w')) /\
    valid_selection (selected_features me').
Proof.
  intros Hvalid.
  destruct (catalog_lookup category feature_id) as [entry|] eqn:Hentry;
    [|rewrite (toggle_feature_unknown me w _ _ Hentry); eauto 6].
  destruct (required entry) eqn:Hreq;
    [rewrite (toggle_feature_required me w _ _ entry Hentry Hreq); eauto 6|].
  destruct Hvalid as [Hstate Hcats].
  destruct (selection_state_dict _ Hstate) as [d Hd].
  unfold catalog_lookup in Hentry.
  destruct (assoc category FEATURES) as [data|] eqn:Hdata; [|discriminate].
  destruct (Hcats category data Hdata) as (ids & Hids & Hnd & Hknown & Hreqs).
  rewrite Hd in Hids. simpl in Hids.
  destruct (assoc category d) as [x|] eqn:Hx; [|discriminate].
  injection Hids as ->.
  assert (Hlookup : catalog_lookup category feature_id = Some entry)
    by (unfold catalog_lookup; rewrite Hdata; exact Hentry).
  rewrite (toggle_feature_eval me w category feature_id entry d (map PStr ids)
             Hlookup Hreq Hd Hx).
  assert (Hnew : forall ids',
            valid_ids data ids' ->
            valid_selection (PDict (dict_set category (str_list ids') d))).
  { intros ids' Hids'. split.
    - rewrite Hd in Hstate.
      apply selection_state_dict_set; [exact Hstate | rewrite Hx; eauto |].
      apply is_str_list_strs.
    - intros c dc Hc. simpl.
      destruct (decide (category = c)) as [<-|Hne].
      + rewrite assoc_dict_set_eq. exists ids'. split; [reflexivity|].
        rewrite Hdata in Hc. injection Hc as <-. exact Hids'.
      + rewrite assoc_dict_set_ne by exact Hne.
        destruct (Hcats c dc Hc) as (idc & Hidc & Hvc).
        rewrite Hd in Hidc. simpl in Hidc. eauto. }
  rewrite remove_first_strs.
  destruct (existsb (eq_str feature_id) (map PStr ids)) eqn:E.
  - do 3 eexists. split; [reflexivity|]. simpl.
    apply (Hnew (remove_str feature_id ids)). split; [|split].
    + apply remove_str_nodup. exact Hnd.
    + intros id Hin. apply Hknown. eapply remove_str_subset. exact Hin.
    + intros id e0 He0 Hr0. apply remove_str_other; [|eapply Hreqs; eassumption].
      intros ->. rewrite Hentry in He0. injection He0 as <-. congruence.
  - do 3 eexists. split; [reflexivity|]. simpl.
    change (PList (map PStr ids ++ [PStr feature_id]))
      with (PList (map PStr ids ++ map PStr [feature_id])).
    rewrite <- map_app. apply (Hnew (ids ++ [feature_id])). split; [|split].
    + apply NoDup_app. split; [exact Hnd|]. split; [|apply NoDup_singleton].
      intros x Hin Hx'. apply list_elem_of_singleton in Hx'. subst x.
      apply existsb_strs in Hin. congruence.
    + intros id Hin. apply elem_of_app in Hin as [Hin|Hin]; [auto|].
      apply list_elem_of_singleton in Hin. subst id. rewrite Hentry. eauto.
    + intros id e0 He0 Hr0. apply elem_of_app. left. eapply Hreqs; eassumption.
Qed.

(** X4: on a selection state that keeps the rules of the catalog (lists of
    strings under [core] and [optional], no identifier twice, none unknown
    to the catalog, every required one present) a toggle never raises,
    whatever its arguments, and the state it leaves keeps the rules. *)
Theorem toggle_feature_keeps_valid (me : FeatureSelector) (w : world)
    (category feature_id : pystr) :
  valid_selection (selected_features me) ->
  exists b me' w',
    toggle_feature category feature_id (me, w) = (Ok b, (me', w')) /\
    valid_selection (selected_features me').
Proof. apply toggle_feature_valid_step. Qed.

Lemma default_state_valid : valid_selection default_state.
Proof.
  split; [reflexivity|].
  intros category data Hcat. simpl in Hcat. unfold pystr_eqb in Hcat.
  repeat case_bool_decide; simplify_eq.
  - exists [py "gateway"; py "user"; py "catalog"; py "cart"; py "orders";
            py "payments"; py "inventory"].
    split; [reflexivity|]. split; [|split].
    + apply (bool_decide_unpack _). vm_compute. reflexivity.
    + apply Forall_forall. apply (bool_decide_unpack _). vm_compute. reflexivity.
    + intros id entry Hid _. simpl in Hid. unfold pystr_eqb in Hid.
      repeat case_bool_decide; simplify_eq; apply (bool_decide_unpack _); vm_compute;
        reflexivity.
  - exists []. split; [reflexivity|]. split; [constructor|]. split.
    + intros id Hin. inversion Hin.
    + intros id entry Hid Hreq. simpl in Hid. unfold pystr_eqb in Hid.
      repeat case_bool_decide; simplify_eq; discriminate.
Qed.

Lemma toggle_feature_keeps_valid_witness :
  exists b me' w',
    toggle_feature (py "optional") (py "admin") (fresh_selector, empty_world) =
      (Ok b, (me', w')) /\
    valid_selection (selected_features me').
Proof.
  apply (toggle_feature_keeps_valid fresh_selector empty_world (py "optional") (py "admin")).
  exact default_state_valid.
Defined.


(** ** Loading and saving, beyond the round trip *)

(** X5: loading reads only: whatever [_load_config] returns or raises, the
    selector and the world (files, output, device) are as before. *)
Theorem load_config_reads_only (me : FeatureSelector) (w : world)
    (r : result pyval) (s' : FeatureSelector * world) :
  _load_config (me, w) = (r, s') -> s' = (me, w).
Proof.
  unfold _load_config, bind, self, in_world, json_load, lift_result,
    os_path_exists, read_text. simpl.
  destruct (resolve w (config_file me)) as [l|e] eqn:Hr; simpl.
  - destruct (bool_decide (is_Some (fs w !! l))); simpl.
    + unfold bind. rewrite Hr. destruct (fs w !! l) as [[|text]|]; simpl;
        intros H; apply pair_equal_spec in H as [_ <-]; destruct me; reflexivity.
    + intros H. apply pair_equal_spec in H as [_ <-]. destruct me; reflexivity.
  - intros H. apply pair_equal_spec in H as [_ <-]. destruct me; reflexivity.
Qed.

Lemma load_config_reads_only_witness :
  (fresh_selector, world_with_config core_only_text) =
  (fresh_selector, world_with_config core_only_text).
Proof.
  apply (load_config_reads_only fresh_selector (world_with_config core_only_text)
           (Ok (selected_features core_only_selector))).
  reflexivity.
Defined.

(** X6: when the path of the configuration names a directory, loading
    raises [IsADirectoryError]; the default state is not used. *)
Theorem load_config_directory (me : FeatureSelector) (w : world) (l : loc) :
  resolve w (config_file me) = Ok l ->
  fs w !! l = Some Dir ->
  _load_config (me, w) = (Raise IsADirectoryError, (me, w)) /\
  FeatureSelector_init (config_file me) w = (Raise IsADirectoryError, w).
Proof.
  intros Hr Hl.
  assert (Hload : forall o, config_file o = config_file me ->
            _load_config (o, w) = (Raise IsADirectoryError, (o, w))).
  { intros o Ho.
    unfold _load_config, bind, self, in_world, json_load, lift_result,
      os_path_exists, read_text. simpl.
    rewrite Ho, Hr. simpl. rewrite bool_decide_eq_true_2 by (rewrite Hl; eauto).
    simpl. unfold bind. rewrite Hr, Hl. destruct o; reflexivity. }
  split; [apply Hload; reflexivity|].
  unfold FeatureSelector_init. rewrite Hload by reflexivity. reflexivity.
Qed.

Lemma load_config_directory_witness :
  _load_config (fresh_selector, world_with_config_dir) =
    (Raise IsADirectoryError, (fresh_selector, world_with_config_dir)) /\
  FeatureSelector_init (config_file fresh_selector) world_with_config_dir =
    (Raise IsADirectoryError, world_with_config_dir).
Proof.
  apply (load_config_directory fresh_selector world_with_config_dir
           [py "ecommerce_config.json"]).
  - reflexivity.
  - reflexivity.
Defined.

Section SaveMore.

Variable float_repr : pystr -> pystr.

Lemma save_config_unresolved (me : FeatureSelector) (w : world) (e : exn) :
  resolve w (config_file me) = Raise e ->
  save_config float_repr (me, w) = (Raise e, (me, w)).
Proof.
  intros Hr. unfold save_config, bind, self, in_world, open_w. simpl.
  rewrite Hr. destruct me; reflexivity.
Qed.

Lemma save_config_on_directory (me : FeatureSelector) (w : world) (l : loc) :
  resolve w (config_file me) = Ok l -> fs w !! l = Some Dir ->
  save_config float_repr (me, w) = (Raise IsADirectoryError, (me, w)).
Proof.
  intros Hr Hl. unfold save_config, bind, self, in_world, open_w. simpl.
  rewrite Hr, Hl. destruct me; reflexivity.
Qed.

(** X7: when the configuration file cannot be opened for writing, because a
    directory on the way is missing or is a file, or because the path names
    a directory, [save_config] raises the error of [open] and changes
    nothing: no file is touched and no confirmation is printed. *)
Theorem save_config_cannot_open (me : FeatureSelector) (w : world) :
  (forall e, resolve w (config_file me) = Raise e ->
     save_config float_repr (me, w) = (Raise e, (me, w))) /\
  (forall l, resolve w (config_file me) = Ok l -> fs w !! l = Some Dir ->
     save_config float_repr (me, w) = (Raise IsADirectoryError, (me, w))).
Proof.
  split.
  - intros e Hr. apply save_config_unresolved. exact Hr.
  - intros l Hr Hl. apply (save_config_on_directory me w l Hr Hl).
Qed.

(** X8: whatever [save_config] returns or raises, the selector is as
    before, and so is every location of the file system other than the
    one the path of the configuration leads to. *)
Theorem save_config_frame (me me' : FeatureSelector) (w w' : world) (r : result unit) :
  save_config float_repr (me, w) = (r, (me', w')) ->
  me' = me /\ cwd w' = cwd w /\
  forall l, resolve w (config_file me) <> Ok l -> fs w' !! l = fs w !! l.
Proof.
  intros H.
  destruct (resolve w (config_file me)) as [l0|e] eqn:Hr.
  - assert (Hcase : fs w !! l0 = Some Dir \/ fs w !! l0 <> Some Dir)
      by (destruct (fs w !! l0) as [[|t]|]; [left; reflexivity | right; discriminate ..]).
    destruct Hcase as [Hd|Hd].
    + rewrite (save_config_on_directory me w l0 Hr Hd) in H.
      apply pair_equal_spec in H as [_ H]. apply pair_equal_spec in H as [<- <-].
      auto.
    + rewrite (save_config_eval float_repr me w l0 Hr Hd) in H. simpl in H.
      assert (Hins : forall text l, Ok l0 <> Ok l ->
                <[l0 := File text]> (fs w) !! l = fs w !! l).
      { intros text l Hne. apply lookup_insert_ne. congruence. }
      destruct (budget w) as [b|];
        [destruct (length (json_dumps float_repr (selected_features me)) <=? b)%nat|];
        apply pair_equal_spec in H as [_ H]; apply pair_equal_spec in H as [<- <-];
        (split; [reflexivity|]); (split; [reflexivity|]);
        intros l Hne; apply Hins; exact Hne.
  - rewrite (save_config_unresolved me w e Hr) in H.
    apply pair_equal_spec in H as [_ H]. apply pair_equal_spec in H as [<- <-].
    auto.
Qed.

End SaveMore.

Lemma save_config_cannot_open_witness :
  save_config repr_as_read (stray_selector, empty_world) =
    (Raise FileNotFoundError, (stray_selector, empty_world)).
Proof.
  apply (proj1 (save_config_cannot_open repr_as_read stray_selector empty_world)).
  reflexivity.
Defined.

Lemma save_config_frame_witness :
  fresh_selector = fresh_selector /\
  cwd (printed (py "Configuration saved to ecommerce_config.json")
         (world_with_config (config_text fresh_selector))) = cwd empty_world /\
  forall l, resolve empty_world (config_file fresh_selector) <> Ok l ->
    fs (printed (py "Configuration saved to ecommerce_config.json")
          (world_with_config (config_text fresh_selector))) !! l = fs empty_world !! l.
Proof.
  apply (save_config_frame repr_as_read fresh_selector fresh_selector empty_world
           (printed (py "Configuration saved to ecommerce_config.json")
              (world_with_config (config_text fresh_selector)))
           (Ok tt)).
  vm_compute. reflexivity.
Defined.



(** ** The menu *)

Lemma quiet_ret {A} (a : A) : quiet (ret a).
Proof. intros me w r me' w' [= _ <- <-]. auto. Qed.

Lemma quiet_bind {A B} (m : M (FeatureSelector * world) A)
    (k : A -> M (FeatureSelector * world) B) :
  quiet m -> (forall a, quiet (k a)) -> quiet (bind m k).
Proof.
  intros Hm Hk me w r me' w'. unfold bind.
  destruct (m (me, w)) as [[a|e] [me1 w1]] eqn:E.
  - intros H. destruct (Hm _ _ _ _ _ E) as (-> & Hc & Hf & Hb).
    destruct (Hk a _ _ _ _ _ H) as (-> & Hc' & Hf' & Hb').
    repeat split; congruence.
  - intros H. apply pair_equal_spec in H as [_ H]. apply pair_equal_spec in H as [<- <-].
    exact (Hm _ _ _ _ _ E).
Qed.

Lemma quiet_print (line : pystr) : quiet (in_world (print line)).
Proof.
  intros me w r me' w' H. unfold in_world, print in H. simpl in H.
  apply pair_equal_spec in H as [_ H]. apply pair_equal_spec in H as [<- <-]. auto.
Qed.

Lemma quiet_lift {A} (x : result A) : quiet (lift_result x).
Proof.
  intros me w r me' w' H. unfold lift_result in H.
  apply pair_equal_spec in H as [_ H]. apply pair_equal_spec in H as [<- <-]. auto.
Qed.

Lemma quiet_self : quiet self.
Proof.
  intros me w r me' w' H. unfold self in H.
  apply pair_equal_spec in H as [_ H]. apply pair_equal_spec in H as [<- <-]. auto.
Qed.

Lemma quiet_for_each {A} (l : list A) (body : A -> M (FeatureSelector * world) unit) :
  (forall x, quiet (body x)) -> quiet (for_each l body).
Proof.
  intros Hbody. induction l as [|x l IH]; simpl.
  - apply quiet_ret.
  - apply quiet_bind; [apply Hbody | intros _; exact IH].
Qed.

Lemma display_features_quiet : quiet display_features.
Proof.
  unfold display_features.
  repeat first
    [ apply quiet_bind; [|intros ?]
    | apply quiet_for_each; intros ?
    | apply quiet_print
    | apply quiet_lift
    | apply quiet_self
    | apply quiet_ret ].
Qed.

(** X9: whatever [display_features] returns or raises, it has only
    printed: the selector, the files and the device are as before. *)
Theorem display_features_reads_only (me : FeatureSelector) (w : world)
    (r : result unit) (me' : FeatureSelector) (w' : world) :
  display_features (me, w) = (r, (me', w')) ->
  me' = me /\ cwd w' = cwd w /\ fs w' = fs w /\ budget w' = budget w.
Proof. apply display_features_quiet. Qed.

Lemma display_features_reads_only_witness :
  fresh_selector = fresh_selector /\
  cwd (printed_all (display_lines default_state) empty_world) = cwd empty_world /\
  fs (printed_all (display_lines default_state) empty_world) = fs empty_world /\
  budget (printed_all (display_lines default_state) empty_world) = budget empty_world.
Proof.
  apply (display_features_reads_only fresh_selector empty_world (Ok tt) fresh_selector
           (printed_all (display_lines default_state) empty_world)).
  vm_compute. reflexivity.
Defined.

Lemma bind_eval {S A B} (m : M S A) (k : A -> M S B) (s : S) (a : A) (s' : S) :
  m s = (Ok a, s') -> bind m k s = k a s'.
Proof. intros H. unfold bind. rewrite H. reflexivity. Qed.

Lemma printed_all_nil (w : world) : printed_all [] w = w.
Proof. unfold printed_all. rewrite app_nil_r. destruct w; reflexivity. Qed.

Lemma printed_all_app (l1 l2 : list pystr) (w : world) :
  printed_all l2 (printed_all l1 w) = printed_all (l1 ++ l2) w.
Proof. unfold printed_all. simpl. rewrite app_assoc. reflexivity. Qed.

Lemma printed_printed_all (line : pystr) (w : world) : printed line w = printed_all [line] w.
Proof. reflexivity. Qed.

Lemma selects_list (v : pyval) (category feature_id : pystr) (items : list pyval) :
  subscript v category = Ok (PList items) ->
  selects v category feature_id = existsb (eq_str feature_id) items.
Proof. intros H. unfold selects. rewrite H. reflexivity. Qed.

Lemma display_components (category : pystr) (items : list pyval)
    (comps : list (pystr * component)) :
  forall (me : FeatureSelector) (w : world),
    subscript (selected_features me) category = Ok (PList items) ->
    for_each comps (fun c =>
      let* me := self in
      let* selected := lift_result (subscript (selected_features me) category) in
      let* present := lift_result (contains (fst c) selected) in
      in_world (print (feature_line present (fst c) (snd c))) ;;
      in_world (print (py "    " ++ description (snd c)))) (me, w) =
    (Ok tt, (me, printed_all
                   (flat_map (component_lines (selected_features me) category) comps) w)).
Proof.
  induction comps as [|c comps IH]; intros me w Hsel.
  - simpl. rewrite printed_all_nil. reflexivity.
  - simpl for_each. unfold bind at 1. unfold bind at 1, self at 1. simpl.
    unfold bind at 1, lift_result at 1. rewrite Hsel. simpl.
    unfold bind at 1, lift_result at 1. simpl.
    unfold bind at 1, in_world at 1, print at 1. simpl.
    unfold in_world at 1, print at 1. simpl.
    rewrite IH by exact Hsel.
    rewrite !printed_printed_all, !printed_all_app.
    unfold component_lines at 2. rewrite (selects_list _ _ (fst c) _ Hsel).
    destruct me; reflexivity.
Qed.

Lemma display_categories (cats : list (pystr * category_data)) :
  forall (me : FeatureSelector) (w : world),
    (forall item, item ∈ cats ->
       exists items, subscript (selected_features me) (fst item) = Ok (PList items)) ->
    for_each cats (fun item =>
      in_world (print ([10] ++ upper (fst item) ++ py ": " ++
                       category_description (snd item))) ;;
      in_world (print (repeat 45 50)) ;;
      for_each (components (snd item)) (fun c =>
        let* me := self in
        let* selected := lift_result (subscript (selected_features me) (fst item)) in
        let* present := lift_result (contains (fst c) selected) in
        in_world (print (feature_line present (fst c) (snd c))) ;;
        in_world (print (py "    " ++ description (snd c))))) (me, w) =
    (Ok tt, (me, printed_all (flat_map (category_lines (selected_features me)) cats) w)).
Proof.
  induction cats as [|item cats IH]; intros me w Hsel.
  - simpl. rewrite printed_all_nil. reflexivity.
  - destruct (Hsel item) as [items Hitems]; [apply elem_of_cons; auto|].
    simpl for_each. unfold bind at 1. unfold bind at 1, in_world at 1, print at 1. simpl.
    unfold bind at 1, in_world at 1, print at 1. simpl.
    rewrite (display_components (fst item) items (components (snd item)) me _ Hitems).
    rewrite IH by (intros x Hx; apply Hsel; apply elem_of_cons; auto).
    rewrite !printed_printed_all, !printed_all_app.
    destruct me; reflexivity.
Qed.

Lemma selection_state_lists (v : pyval) :
  selection_state v = true ->
  forall item, item ∈ FEATURES -> exists items, subscript v (fst item) = Ok (PList items).
Proof.
  intros H item Hin. destruct v as [| | | | | |d]; try discriminate.
  simpl in H.
  destruct (assoc (py "core") d) as [c|] eqn:Hc; [|discriminate].
  destruct (assoc (py "optional") d) as [o|] eqn:Ho; [|discriminate].
  apply andb_true_iff in H as [H _]. apply andb_true_iff in H as [H1 H2].
  destruct c; try discriminate. destruct o; try discriminate.
  unfold FEATURES in Hin. repeat (apply elem_of_cons in Hin as [->|Hin]); simpl.
  - rewrite Hc. eauto.
  - rewrite Ho. eauto.
  - inversion Hin.
Qed.

Lemma display_features_eval (me : FeatureSelector) (w : world) :
  selection_state (selected_features me) = true ->
  display_features (me, w) =
    (Ok tt, (me, printed_all (display_lines (selected_features me)) w)).
Proof.
  intros H. unfold display_features.
  rewrite (bind_eval _ _ (me, w) tt
             (me, printed ([10] ++ py "=== E-COMMERCE MICROSERVICE FEATURES ===" ++ [10]) w))
    by reflexivity.
  erewrite bind_eval by (apply display_categories; apply selection_state_lists; exact H).
  unfold in_world, print. cbn [fst snd].
  rewrite !printed_printed_all, !printed_all_app. reflexivity.
Qed.

(** X10: on a selection state [display_features] returns after printing
    the heading, then for each category of the catalog its title, a rule
    and two lines per component, the first with a check mark exactly when
    the state selects the component and with [[Required]] exactly when the
    catalog requires it, and at the end an empty line. *)
Theorem display_features_selection_state (me : FeatureSelector) (w : world) :
  selection_state (selected_features me) = true ->
  display_features (me, w) =
    (Ok tt, (me, printed_all (display_lines (selected_features me)) w)).
Proof. apply display_features_eval. Qed.

Lemma display_features_selection_state_witness :
  display_features (reviews_selector, empty_world) =
    (Ok tt, (reviews_selector,
             printed_all (display_lines (selected_features reviews_selector)) empty_world)).
Proof.
  apply (display_features_selection_state reviews_selector empty_world). reflexivity.
Defined.


(** ** The interactive session *)

Lemma toggle_feature_files (me me' : FeatureSelector) (w w' : world)
    (category feature_id : pystr) (r : result bool) :
  toggle_feature category feature_id (me, w) = (r, (me', w')) ->
  config_file me' = config_file me /\
  cwd w' = cwd w /\ fs w' = fs w /\ budget w' = budget w.
Proof.
  unfold toggle_feature.
  assert (Hsame : forall (x : result bool) line,
            (x, (me, printed line w)) = (r, (me', w')) ->
            config_file me' = config_file me /\
            cwd w' = cwd w /\ fs w' = fs w /\ budget w' = budget w).
  { intros x line H. apply pair_equal_spec in H as [_ H].
    apply pair_equal_spec in H as [<- <-]. auto. }
  assert (Hnone : forall (x : result bool),
            (x, (me, w)) = (r, (me', w')) ->
            config_file me' = config_file me /\
            cwd w' = cwd w /\ fs w' = fs w /\ budget w' = budget w).
  { intros x H. apply pair_equal_spec in H as [_ H].
    apply pair_equal_spec in H as [<- <-]. auto. }
  destruct (assoc category FEATURES) as [data|]; [|apply Hsame].
  destruct (assoc feature_id (components data)) as [entry|]; [|apply Hsame].
  destruct (required entry); [apply Hsame|].
  unfold bind, self, lift_result, in_world, set_self, ret, print. simpl.
  destruct (subscript (selected_features me) category) as [x|e1]; simpl; [|apply Hnone].
  destruct (contains feature_id x) as [[|]|e2]; simpl; [| |apply Hnone].
  - destruct (method_remove feature_id x) as [x'|e3]; simpl; [|apply Hnone].
    intros H. apply pair_equal_spec in H as [_ H].
    apply pair_equal_spec in H as [<- <-]. auto.
  - destruct (method_append feature_id x) as [x'|e3]; simpl; [|apply Hnone].
    intros H. apply pair_equal_spec in H as [_ H].
    apply pair_equal_spec in H as [<- <-]. auto.
Qed.

Lemma menu_quiet : quiet (display_features ;; in_world print_commands).
Proof.
  apply quiet_bind; [apply display_features_quiet|]. intros _.
  intros me w r me' w' H. unfold in_world, print_commands, bind, print in H. simpl in H.
  apply pair_equal_spec in H as [_ H]. apply pair_equal_spec in H as [<- <-]. auto.
Qed.

Lemma walk_errors (t : gmap loc node) (names : list pystr) : forall cur e,
  walk t cur names = Raise e -> e = FileNotFoundError \/ e = NotADirectoryError.
Proof.
  induction names as [|nm names IH]; intros cur e; simpl; [discriminate|].
  destruct (t !! cur) as [[|x]|]; [apply IH | |]; intros [= <-]; auto.
Qed.

Lemma resolve_errors (w : world) (p : pystr) (e : exn) :
  resolve w p = Raise e -> e = FileNotFoundError \/ e = NotADirectoryError.
Proof.
  unfold resolve. destruct p as [|c p]; [intros [= <-]; auto|]. apply walk_errors.
Qed.

Section SessionFacts.

Variable float_repr : pystr -> pystr.

(** What [save_config] does, case by case. *)
Lemma save_config_cases (me : FeatureSelector) (w : world) :
  (exists e, os_error e /\ save_config float_repr (me, w) = (Raise e, (me, w))) \/
  (exists l w', resolve w (config_file me) = Ok l /\
     (save_config float_repr (me, w) = (Raise NoSpaceError, (me, w')) \/
      save_config float_repr (me, w) = (Ok tt, (me, w'))) /\
     cwd w' = cwd w).
Proof.
  destruct (resolve w (config_file me)) as [l|e] eqn:Hr.
  - assert (Hcase : fs w !! l = Some Dir \/ fs w !! l <> Some Dir)
      by (destruct (fs w !! l) as [[|t]|]; [left; reflexivity | right; discriminate ..]).
    destruct Hcase as [Hd|Hd].
    + left. exists IsADirectoryError. split; [unfold os_error; auto|].
      apply (save_config_on_directory float_repr me w l Hr Hd).
    + right. rewrite (save_config_eval float_repr me w l Hr Hd). simpl.
      destruct (budget w) as [b|];
        [destruct (length (json_dumps float_repr (selected_features me)) <=? b)%nat|].
      * do 2 eexists. split; [reflexivity|]. split; [right; reflexivity | reflexivity].
      * do 2 eexists. split; [reflexivity|]. split; [left; reflexivity | reflexivity].
      * do 2 eexists. split; [reflexivity|]. split; [right; reflexivity | reflexivity].
  - left. exists e. split.
    + unfold os_error. destruct (resolve_errors _ _ _ Hr); auto.
    + apply save_config_unresolved. exact Hr.
Qed.

Lemma save_config_selector (me me' : FeatureSelector) (w w' : world) (r : result unit) :
  save_config float_repr (me, w) = (r, (me', w')) ->
  me' = me /\ (forall e, r = Raise e -> os_error e).
Proof.
  intros H.
  destruct (save_config_cases me w) as [(e & He & Heq) | (l & w1 & _ & [Heq|Heq] & _)];
    rewrite Heq in H;
    apply pair_equal_spec in H as [<- H]; apply pair_equal_spec in H as [<- _];
    (split; [reflexivity|]); intros e0 [= <-]; try exact He.
  unfold os_error. auto.
Qed.

Lemma interactive_cli_nil (s : FeatureSelector * world) :
  interactive_cli float_repr [] s =
    match (display_features ;; in_world print_commands) s with
    | (Raise e, s1) => (Raised e, s1)
    | (Ok _, s1) => (EndOfInput, s1)
    end.
Proof. reflexivity. Qed.

Lemma interactive_cli_cons (line : pystr) (rest : list pystr) (s : FeatureSelector * world) :
  interactive_cli float_repr (line :: rest) s =
    match (display_features ;; in_world print_commands) s with
    | (Raise e, s1) => (Raised e, s1)
    | (Ok _, s1) =>
        match split (strip line) with
        | [] => interactive_cli float_repr rest s1
        | c0 :: args =>
            if pystr_eqb c0 (py "exit") then (Returned false, s1)
            else if pystr_eqb c0 (py "save") then
              match save_config float_repr s1 with
              | (Raise e, s2) => (Raised e, s2)
              | (Ok _, s2) => interactive_cli float_repr rest s2
              end
            else if pystr_eqb c0 (py "done") then
              match save_config float_repr s1 with
              | (Raise e, s2) => (Raised e, s2)
              | (Ok _, s2) => (Returned true, s2)
              end
            else
              match (if pystr_eqb c0 (py "toggle") then args else []) with
              | [category; feature_id] =>
                  match toggle_feature category feature_id s1 with
                  | (Raise e, s2) => (Raised e, s2)
                  | (Ok _, s2) => interactive_cli float_repr rest s2
                  end
              | _ =>
                  match in_world (print (py "Invalid command. Try again.")) s1 with
                  | (_, s2) => interactive_cli float_repr rest s2
                  end
              end
        end
    end.
Proof. reflexivity. Qed.

(** X11: a session whose input has no [save] and no [done] command leaves
    the file system, the working directory and the device as they were,
    however it ends: by [exit], by the end of the input or by an
    exception. *)
Theorem session_without_save (inputs : list pystr) :
  forall (me me' : FeatureSelector) (w w' : world) (r : session_end),
    forallb (fun line => negb (saving_command line)) inputs = true ->
    interactive_cli float_repr inputs (me, w) = (r, (me', w')) ->
    config_file me' = config_file me /\
    cwd w' = cwd w /\ fs w' = fs w /\ budget w' = budget w.
Proof.
  induction inputs as [|line rest IH]; intros me me' w w' r Hlines H.
  - rewrite interactive_cli_nil in H.
    destruct ((display_features ;; in_world print_commands) (me, w))
      as [[[]|e] [me1 w1]] eqn:Hmenu;
      apply menu_quiet in Hmenu as (-> & Hc & Hf & Hb);
      apply pair_equal_spec in H as [_ H]; apply pair_equal_spec in H as [<- <-]; auto.
  - rewrite interactive_cli_cons in H.
    simpl in Hlines. apply andb_true_iff in Hlines as [Hline Hrest].
    apply negb_true_iff in Hline. unfold saving_command in Hline.
    destruct ((display_features ;; in_world print_commands) (me, w))
      as [[[]|e] [me1 w1]] eqn:Hmenu;
      apply menu_quiet in Hmenu as (-> & Hc & Hf & Hb);
      [|apply pair_equal_spec in H as [_ H]; apply pair_equal_spec in H as [<- <-]; auto].
    assert (Hnext : forall me2 w2,
              config_file me2 = config_file me /\
              cwd w2 = cwd w1 /\ fs w2 = fs w1 /\ budget w2 = budget w1 ->
              interactive_cli float_repr rest (me2, w2) = (r, (me', w')) ->
              config_file me' = config_file me /\
              cwd w' = cwd w /\ fs w' = fs w /\ budget w' = budget w).
    { intros me2 w2 (Hp & Hc2 & Hf2 & Hb2) Hrun.
      destruct (IH _ _ _ _ _ Hrest Hrun) as (Hp' & Hc' & Hf' & Hb').
      repeat split; congruence. }
    destruct (split (strip line)) as [|c0 args]; [apply (Hnext me w1); auto|].
    apply orb_false_iff in Hline as [Hsave Hdone]. rewrite Hsave, Hdone in H.
    destruct (pystr_eqb c0 (py "exit")).
    { apply pair_equal_spec in H as [_ H]. apply pair_equal_spec in H as [<- <-]. auto. }
    assert (Hinvalid :
              (let (_, s2) := in_world (print (py "Invalid command. Try again.")) (me, w1) in
               interactive_cli float_repr rest s2) = (r, (me', w')) ->
              config_file me' = config_file me /\
              cwd w' = cwd w /\ fs w' = fs w /\ budget w' = budget w).
    { unfold in_world, print. simpl. apply Hnext. auto. }
    destruct (if pystr_eqb c0 (py "toggle") then args else [])
      as [|category [|feature_id [|x l]]]; try (apply Hinvalid; exact H).
    destruct (toggle_feature category feature_id (me, w1)) as [[b|e] [me2 w2]] eqn:Ht;
      apply toggle_feature_files in Ht as (Hp2 & Hc2 & Hf2 & Hb2).
    + apply (Hnext me2 w2); auto.
    + apply pair_equal_spec in H as [_ H]. apply pair_equal_spec in H as [<- <-].
      repeat split; congruence.
Qed.

Lemma menu_valid (me : FeatureSelector) (w : world) :
  selection_state (selected_features me) = true ->
  exists w1, (display_features ;; in_world print_commands) (me, w) = (Ok tt, (me, w1)).
Proof.
  intros H. erewrite bind_eval by (apply display_features_eval; exact H).
  unfold in_world, print_commands, bind, print. simpl. eauto.
Qed.

Lemma session_valid_step (inputs : list pystr) :
  forall (me me' : FeatureSelector) (w w' : world) (r : session_end),
    valid_selection (selected_features me) ->
    interactive_cli float_repr inputs (me, w) = (r, (me', w')) ->
    valid_selection (selected_features me') /\
    config_file me' = config_file me /\
    (forall e, r = Raised e -> os_error e).
Proof.
  induction inputs as [|line rest IH]; intros me me' w w' r Hvalid H.
  - rewrite interactive_cli_nil in H.
    destruct (menu_valid me w (proj1 Hvalid)) as [w1 Hmenu]. rewrite Hmenu in H.
    apply pair_equal_spec in H as [<- H]. apply pair_equal_spec in H as [<- <-].
    split; [exact Hvalid|]. split; [reflexivity|]. intros e0; discriminate.
  - rewrite interactive_cli_cons in H.
    destruct (menu_valid me w (proj1 Hvalid)) as [w1 Hmenu]. rewrite Hmenu in H.
    destruct (split (strip line)) as [|c0 args]; [apply (IH _ _ _ _ _ Hvalid H)|].
    destruct (pystr_eqb c0 (py "exit")).
    { apply pair_equal_spec in H as [<- H]. apply pair_equal_spec in H as [<- <-].
      split; [exact Hvalid|]. split; [reflexivity|]. intros e0; discriminate. }
    assert (Hsave : forall (k : FeatureSelector * world -> session_end * (FeatureSelector * world)),
              (forall w2, k (me, w2) = (r, (me', w')) ->
                 valid_selection (selected_features me') /\
                 config_file me' = config_file me /\
                 (forall e, r = Raised e -> os_error e)) ->
              match save_config float_repr (me, w1) with
              | (Raise e, s2) => (Raised e, s2)
              | (Ok _, s2) => k s2
              end = (r, (me', w')) ->
              valid_selection (selected_features me') /\
              config_file me' = config_file me /\
              (forall e, r = Raised e -> os_error e)).
    { intros k Hk Hrun.
      destruct (save_config float_repr (me, w1)) as [[[]|e] [me2 w2]] eqn:Hs;
        apply save_config_selector in Hs as [-> Herr].
      - apply (Hk w2 Hrun).
      - apply pair_equal_spec in Hrun as [<- Hrun].
        apply pair_equal_spec in Hrun as [<- <-].
        split; [exact Hvalid|]. split; [reflexivity|]. intros e0 [= <-]. apply Herr. reflexivity. }
    destruct (pystr_eqb c0 (py "save")).
    { apply (Hsave (interactive_cli float_repr rest)); [|exact H].
      intros w2 Hrun. apply (IH _ _ _ _ _ Hvalid Hrun). }
    destruct (pystr_eqb c0 (py "done")).
    { apply (Hsave (fun s2 => (Returned true, s2))); [|exact H].
      intros w2 Hrun. apply pair_equal_spec in Hrun as [<- Hrun].
      apply pair_equal_spec in Hrun as [<- <-]. split; [exact Hvalid|]. split; [reflexivity|]. intros e0; discriminate. }
    destruct (if pystr_eqb c0 (py "toggle") then args else [])
      as [|category [|feature_id [|x l]]];
      try (unfold in_world, print in H; simpl in H; apply (IH _ _ _ _ _ Hvalid H)).
    destruct (toggle_feature_valid_step me w1 category feature_id Hvalid)
      as (b & me2 & w2 & Ht & Hvalid2).
    rewrite Ht in H. apply toggle_feature_files in Ht as (Hp2 & _).
    destruct (IH _ _ _ _ _ Hvalid2 H) as (Hv & Hp & He).
    split; [exact Hv|]. split; [congruence|]. exact He.
Qed.

(** X12: a session that starts from a state keeping the rules of the
    catalog keeps them whatever the input is, never changes the path of the
    configuration, and can only be ended by an exception of the file system
    or the device, raised while saving: no input makes [display_features]
    or [toggle_feature] raise. *)
Theorem session_keeps_valid (inputs : list pystr)
    (me me' : FeatureSelector) (w w' : world) (r : session_end) :
  valid_selection (selected_features me) ->
  interactive_cli float_repr inputs (me, w) = (r, (me', w')) ->
  valid_selection (selected_features me') /\
  config_file me' = config_file me /\
  (forall e, r = Raised e -> os_error e).
Proof. apply session_valid_step. Qed.

Lemma session_done_file (inputs : list pystr) :
  forall (me me' : FeatureSelector) (w w' : world),
    interactive_cli float_repr inputs (me, w) = (Returned true, (me', w')) ->
    file_at w' (config_file me') = Some (json_dumps float_repr (selected_features me')).
Proof.
  induction inputs as [|line rest IH]; intros me me' w w' H.
  - rewrite interactive_cli_nil in H.
    destruct ((display_features ;; in_world print_commands) (me, w)) as [[[]|e] s1];
      discriminate.
  - rewrite interactive_cli_cons in H.
    destruct ((display_features ;; in_world print_commands) (me, w))
      as [[[]|e] [me1 w1]]; [|discriminate].
    destruct (split (strip line)) as [|c0 args]; [apply (IH _ _ _ _ H)|].
    destruct (pystr_eqb c0 (py "exit")); [discriminate|].
    destruct (pystr_eqb c0 (py "save")).
    { destruct (save_config float_repr (me1, w1)) as [[[]|e] [me2 w2]]; [|discriminate].
      apply (IH _ _ _ _ H). }
    destruct (pystr_eqb c0 (py "done")).
    { destruct (save_config float_repr (me1, w1)) as [[[]|e] [me2 w2]] eqn:Hs;
        [|discriminate].
      apply pair_equal_spec in H as [_ H]. apply pair_equal_spec in H as [<- <-].
      destruct (save_config_ok float_repr _ _ _ _ Hs) as [-> Hfile]. exact Hfile. }
    destruct (if pystr_eqb c0 (py "toggle") then args else [])
      as [|category [|feature_id [|x l]]];
      try (unfold in_world, print in H; simpl in H; apply (IH _ _ _ _ H)).
    destruct (toggle_feature category feature_id (me1, w1)) as [[b|e] [me2 w2]];
      [|discriminate].
    apply (IH _ _ _ _ H).
Qed.

(** X13: when a session returns [True], the file at the path of the
    configuration holds the text [json.dump] writes for the state the
    selector ends with. *)
Theorem session_done_saved (inputs : list pystr)
    (me me' : FeatureSelector) (w w' : world) :
  interactive_cli float_repr inputs (me, w) = (Returned true, (me', w')) ->
  file_at w' (config_file me') = Some (json_dumps float_repr (selected_features me')).
Proof. apply session_done_file. Qed.

Lemma catalog_text_ok (category : pystr) (data : category_data) (id : pystr) :
  assoc category FEATURES = Some data ->
  is_Some (assoc id (components data)) -> text_ok id = true.
Proof.
  intros Hcat Hid. simpl in Hcat. unfold pystr_eqb in Hcat.
  repeat case_bool_decide; simplify_eq; simpl in Hid; unfold pystr_eqb in Hid;
    repeat case_bool_decide; simplify_eq; try (vm_compute; reflexivity);
    destruct Hid as [x Hx]; discriminate.
Qed.

Lemma valid_ids_storable (category : pystr) (data : category_data) (ids : list pystr) :
  assoc category FEATURES = Some data ->
  valid_ids data ids -> storable_list (str_list ids) = true.
Proof.
  intros Hcat (_ & Hin & _). simpl. rewrite forallb_forall. intros x Hx.
  apply in_map_iff in Hx as (id & <- & Hid).
  apply (catalog_text_ok category data id Hcat). apply Hin. apply list_elem_of_In. exact Hid.
Qed.

Lemma valid_storable (v : pyval) : valid_selection v -> storable v = true.
Proof.
  intros [Hstate Hvalid].
  destruct (Hvalid (py "core") _ eq_refl) as (core & Hcore & Hvc).
  destruct (Hvalid (py "optional") _ eq_refl) as (optional & Hopt & Hvo).
  apply (valid_ids_storable (py "core") _ _ eq_refl) in Hvc.
  apply (valid_ids_storable (py "optional") _ _ eq_refl) in Hvo.
  destruct v as [| | | | | |d]; try discriminate.
  simpl in Hstate, Hcore, Hopt.
  destruct (assoc (py "core") d) as [c|] eqn:Hc; [|discriminate].
  destruct (assoc (py "optional") d) as [o|] eqn:Ho; [|discriminate].
  injection Hcore as ->. injection Hopt as ->.
  apply andb_true_iff in Hstate as [_ Hlen]. apply bool_decide_eq_true in Hlen.
  destruct d as [|[k1 x1] [|[k2 x2] [|]]]; try discriminate.
  simpl in Hc, Ho. unfold storable, keys. cbn [forallb map fst snd].
  destruct (pystr_eqb k1 (py "core")) eqn:E1.
  - apply pystr_eqb_eq in E1 as ->. injection Hc as ->.
    replace (pystr_eqb (py "core") (py "optional")) with false in Ho by reflexivity.
    destruct (pystr_eqb k2 (py "optional")) eqn:E2; [|discriminate].
    apply pystr_eqb_eq in E2 as ->. injection Ho as ->.
    rewrite Hvc, Hvo. vm_compute. reflexivity.
  - destruct (pystr_eqb k2 (py "core")) eqn:E2; [|discriminate].
    apply pystr_eqb_eq in E2 as ->. injection Hc as ->.
    destruct (pystr_eqb k1 (py "optional")) eqn:E3.
    + apply pystr_eqb_eq in E3 as ->. injection Ho as ->.
      rewrite Hvc, Hvo. vm_compute. reflexivity.
    + replace (pystr_eqb (py "core") (py "optional")) with false in Ho by reflexivity.
      discriminate.
Qed.

(** X14: after a session that starts from a state keeping the rules of
    the catalog and returns [True], a new selector built on the same path
    reads back the very state the session ended with, and reading changes
    nothing. *)
Theorem session_done_reload (inputs : list pystr)
    (me me' : FeatureSelector) (w w' : world) :
  valid_selection (selected_features me) ->
  interactive_cli float_repr inputs (me, w) = (Returned true, (me', w')) ->
  FeatureSelector_init (config_file me') w' = (Ok me', w').
Proof.
  intros Hvalid Hrun.
  destruct (session_valid_step _ _ _ _ _ _ Hvalid Hrun) as (Hvalid' & _ & _).
  rewrite (init_existing _ _ _ (session_done_file _ _ _ _ _ Hrun)).
  rewrite (json_loads_dumps float_repr _ (valid_storable _ Hvalid')).
  destruct me'; reflexivity.
Qed.

End SessionFacts.

Lemma session_without_save_witness :
  forallb (fun line => negb (saving_command line))
    [py "toggle optional reviews"; py "  "; py "toggle core gateway"; py "exit now"] = true /\
  (let s' := snd (interactive_cli repr_as_read
                    [py "toggle optional reviews"; py "  "; py "toggle core gateway";
                     py "exit now"]
                    (fresh_selector, empty_world)) in
   config_file (fst s') = config_file fresh_selector /\
   cwd (snd s') = cwd empty_world /\ fs (snd s') = fs empty_world /\
   budget (snd s') = budget empty_world).
Proof.
  split; [vm_compute; reflexivity|].
  destruct (interactive_cli repr_as_read
              [py "toggle optional reviews"; py "  "; py "toggle core gateway";
               py "exit now"]
              (fresh_selector, empty_world)) as [r [me' w']] eqn:Hrun.
  apply (session_without_save repr_as_read
           [py "toggle optional reviews"; py "  "; py "toggle core gateway"; py "exit now"]
           fresh_selector me' empty_world w' r); [vm_compute; reflexivity | exact Hrun].
Defined.

Lemma session_keeps_valid_witness :
  let run := interactive_cli repr_as_read
               [py "toggle optional reviews"; py "toggle optional nothing"; py "done"]
               (fresh_selector, empty_world) in
  valid_selection (selected_features (fst (snd run))) /\
  config_file (fst (snd run)) = config_file fresh_selector /\
  (forall e, fst run = Raised e -> os_error e).
Proof.
  destruct (interactive_cli repr_as_read
              [py "toggle optional reviews"; py "toggle optional nothing"; py "done"]
              (fresh_selector, empty_world)) as [r [me' w']] eqn:Hrun.
  apply (session_keeps_valid repr_as_read
           [py "toggle optional reviews"; py "toggle optional nothing"; py "done"]
           fresh_selector me' empty_world w' r); [exact default_state_valid | exact Hrun].
Defined.

Lemma session_done_saved_witness :
  let run := interactive_cli repr_as_read [py "toggle optional reviews"; py "done"]
               (fresh_selector, empty_world) in
  fst run = Returned true /\
  file_at (snd (snd run)) (config_file (fst (snd run))) =
    Some (json_dumps repr_as_read (selected_features (fst (snd run)))).
Proof.
  assert (Hend : fst (interactive_cli repr_as_read [py "toggle optional reviews"; py "done"]
                        (fresh_selector, empty_world)) = Returned true)
    by (vm_compute; reflexivity).
  destruct (interactive_cli repr_as_read [py "toggle optional reviews"; py "done"]
              (fresh_selector, empty_world)) as [r [me' w']] eqn:Hrun.
  simpl in Hend. subst r. split; [reflexivity|].
  apply (session_done_saved repr_as_read [py "toggle optional reviews"; py "done"]
           fresh_selector me' empty_world w' Hrun).
Defined.

Lemma session_done_reload_witness :
  let run := interactive_cli repr_as_read [py "toggle optional reviews"; py "done"]
               (fresh_selector, empty_world) in
  fst run = Returned true /\
  FeatureSelector_init (config_file (fst (snd run))) (snd (snd run)) = (Ok (fst (snd run)), snd (snd run)).
Proof.
  assert (Hend : fst (interactive_cli repr_as_read [py "toggle optional reviews"; py "done"]
                        (fresh_selector, empty_world)) = Returned true)
    by (vm_compute; reflexivity).
  destruct (interactive_cli repr_as_read [py "toggle optional reviews"; py "done"]
              (fresh_selector, empty_world)) as [r [me' w']] eqn:Hrun.
  simpl in Hend. subst r. split; [reflexivity|].
  apply (session_done_reload repr_as_read [py "toggle optional reviews"; py "done"]
           fresh_selector me' empty_world w' default_state_valid Hrun).
Defined.

(** ** The menu and the session on a state without a category *)

Lemma for_each_app {S A} (l1 l2 : list A) (body : A -> M S unit) (s : S) :
  for_each (l1 ++ l2) body s = (for_each l1 body ;; for_each l2 body) s.
Proof.
  revert s. induction l1 as [|x l1 IH]; intros s; [reflexivity|].
  simpl. unfold bind. destruct (body x s) as [[[]|e] s']; [|reflexivity].
  rewrite IH. reflexivity.
Qed.

Lemma catalog_components (item : pystr * category_data) :
  item ∈ FEATURES -> components (snd item) <> [].
Proof.
  intros Hin. unfold FEATURES in Hin.
  repeat (apply elem_of_cons in Hin as [->|Hin]); [discriminate ..|inversion Hin].
Qed.

Lemma display_features_raise (me : FeatureSelector) (w : world)
    (shown rest : list (pystr * category_data)) (item : pystr * category_data) (e : exn) :
  FEATURES = shown ++ item :: rest ->
  (forall x, x ∈ shown ->
     exists items, subscript (selected_features me) (fst x) = Ok (PList items)) ->
  subscript (selected_features me) (fst item) = Raise e ->
  display_features (me, w) =
    (Raise e,
     (me, printed_all
            ([ [10] ++ py "=== E-COMMERCE MICROSERVICE FEATURES ===" ++ [10] ] ++
             flat_map (category_lines (selected_features me)) shown ++
             [ [10] ++ upper (fst item) ++ py ": " ++ category_description (snd item);
               repeat 45 50 ])
            w)).
Proof.
  intros Hcat Hshown Hitem.
  assert (Hcomps : components (snd item) <> []).
  { apply catalog_components. rewrite Hcat. apply elem_of_app. right. apply elem_of_cons. auto. }
  unfold display_features. rewrite Hcat.
  rewrite (bind_eval _ _ _ tt (me, printed ([10] ++ py "=== E-COMMERCE MICROSERVICE FEATURES ===" ++ [10]) w))
    by reflexivity.
  unfold bind at 1. rewrite for_each_app.
  erewrite bind_eval by (apply display_categories; exact Hshown).
  simpl for_each. unfold bind at 1. unfold bind at 1, in_world at 1, print at 1. simpl.
  unfold bind at 1, in_world at 1, print at 1. simpl.
  destruct (components (snd item)) as [|c comps]; [congruence|].
  simpl for_each. unfold bind at 1. unfold bind at 1. unfold bind at 1, self at 1. simpl.
  unfold bind at 1, lift_result at 1. rewrite Hitem.
  rewrite !printed_printed_all, !printed_all_app.
  destruct me; reflexivity.
Qed.

(** X15: [display_features] stops at the first category of the catalog for
    which the lookup in the state fails: it raises the error of the lookup
    ([KeyError] for a missing key), having printed the heading, the blocks
    of the categories before it and the title and the rule of that
    category; the selector and the files are as before. An interactive
    session on such a state ends with that error before it reads any
    input. *)
Theorem display_features_stops (float_repr : pystr -> pystr)
    (me : FeatureSelector) (w : world)
    (shown rest : list (pystr * category_data)) (item : pystr * category_data) (e : exn) :
  FEATURES = shown ++ item :: rest ->
  (forall x, x ∈ shown ->
     exists items, subscript (selected_features me) (fst x) = Ok (PList items)) ->
  subscript (selected_features me) (fst item) = Raise e ->
  let w' :=
    printed_all
      ([ [10] ++ py "=== E-COMMERCE MICROSERVICE FEATURES ===" ++ [10] ] ++
       flat_map (category_lines (selected_features me)) shown ++
       [ [10] ++ upper (fst item) ++ py ": " ++ category_description (snd item);
         repeat 45 50 ])
      w in
  display_features (me, w) = (Raise e, (me, w')) /\
  forall inputs, interactive_cli float_repr inputs (me, w) = (Raised e, (me, w')).
Proof.
  intros Hcat Hshown Hitem w'.
  pose proof (display_features_raise me w shown rest item e Hcat Hshown Hitem) as Hd.
  split; [exact Hd|].
  intros inputs. destruct inputs as [|line inputs]; simpl; unfold bind at 1;
    rewrite Hd; reflexivity.
Qed.

Lemma display_features_stops_witness :
  let w' :=
    printed_all
      ([ [10] ++ py "=== E-COMMERCE MICROSERVICE FEATURES ===" ++ [10] ] ++
       flat_map (category_lines (selected_features no_optional_selector))
         [ (py "core",
            Category (py "Core services required for basic e-commerce functionality")
              [ (py "gateway",
                 Component (py "API Gateway") (py "Entry point for all client requests") true);
                (py "user",
                 Component (py "User Service")
                   (py "User authentication and profile management") true);
                (py "catalog",
                 Component (py "Catalog Service") (py "Product catalog management") true);
                (py "cart",
                 Component (py "Cart Service") (py "Shopping cart management") true);
                (py "orders",
                 Component (py "Order Service") (py "Order processing and management") true);
                (py "payments",
                 Component (py "Payment Service") (py "Payment processing") true);
                (py "inventory",
                 Component (py "Inventory Service") (py "Stock management") true) ]) ] ++
       [ [10] ++ upper (py "optional") ++ py ": " ++
         py "Optional services to enhance e-commerce functionality";
         repeat 45 50 ])
      empty_world in
  display_features (no_optional_selector, empty_world) =
    (Raise (KeyError (py "optional")), (no_optional_selector, w')) /\
  forall inputs,
    interactive_cli repr_as_read inputs (no_optional_selector, empty_world) =
      (Raised (KeyError (py "optional")), (no_optional_selector, w')).
Proof.
  apply (display_features_stops repr_as_read no_optional_selector empty_world
           [ (py "core",
              Category (py "Core services required for basic e-commerce functionality")
                [ (py "gateway",
                   Component (py "API Gateway") (py "Entry point for all client requests") true);
                  (py "user",
                   Component (py "User Service")
                     (py "User authentication and profile management") true);
                  (py "catalog",
                   Component (py "Catalog Service") (py "Product catalog management") true);
                  (py "cart",
                   Component (py "Cart Service") (py "Shopping cart management") true);
                  (py "orders",
                   Component (py "Order Service") (py "Order processing and management") true);
                  (py "payments",
                   Component (py "Payment Service") (py "Payment processing") true);
                  (py "inventory",
                   Component (py "Inventory Service") (py "Stock management") true) ]) ]
           []
           (py "optional",
            Category (py "Optional services to enhance e-commerce functionality")
              [ (py "reviews",
                 Component (py "Reviews Service") (py "Product reviews and ratings") false);
                (py "discounts",
                 Component (py "Discounts Service")
                   (py "Promotional offers and discount management") false);
                (py "admin",
                 Component (py "Admin Dashboard Service")
                   (py "Administrative interface backend") false) ])
           (KeyError (py "optional"))).
  - reflexivity.
  - intros x Hx. apply list_elem_of_singleton in Hx as ->. eexists. reflexivity.
  - reflexivity.
Defined.


(** ** The dispatcher on states of every shape *)

Lemma init_reads_only (path : pystr) (w w1 : world) (r : result FeatureSelector) :
  FeatureSelector_init path w = (r, w1) -> w1 = w.
Proof.
  unfold FeatureSelector_init, _load_config, bind, self, in_world, json_load, lift_result,
    os_path_exists, read_text. simpl.
  destruct (resolve w path) as [l|e] eqn:Hr; simpl.
  - destruct (bool_decide (is_Some (fs w !! l))); simpl.
    + unfold bind. rewrite Hr. destruct (fs w !! l) as [[|text]|]; simpl;
        try (intros H; apply pair_equal_spec in H as [_ <-]; reflexivity).
      destruct (json_loads text); simpl;
        intros H; apply pair_equal_spec in H as [_ <-]; reflexivity.
    + destruct default_config; simpl;
        intros H; apply pair_equal_spec in H as [_ <-]; reflexivity.
  - destruct default_config; simpl;
      intros H; apply pair_equal_spec in H as [_ <-]; reflexivity.
Qed.

(** X16: when the loaded state cannot give the list of features (the
    lookup of [core] or of [optional] fails, or the two values cannot be
    added and iterated) [generate_microservices] raises that error before
    the loop: no unit runs and the world is as before the call. *)
Theorem generate_microservices_bad_state (path dir : pystr) (w w1 : world)
    (me : FeatureSelector) (e : exn) :
  FeatureSelector_init path w = (Ok me, w1) ->
  subscript (selected_features me) (py "core") = Raise e \/
  (exists core,
     subscript (selected_features me) (py "core") = Ok core /\
     (subscript (selected_features me) (py "optional") = Raise e \/
      exists optional,
        subscript (selected_features me) (py "optional") = Ok optional /\
        iter_sum core optional = Raise e)) ->
  generate_microservices path dir w = (Raise e, w).
Proof.
  intros Hinit Hbad. pose proof (init_reads_only _ _ _ _ Hinit) as ->.
  unfold generate_microservices, bind at 1. rewrite Hinit.
  unfold bind, lift_result.
  destruct Hbad as [Hcore | (core & Hcore & [Hopt | (optional & Hopt & Hsum)])].
  - rewrite Hcore. reflexivity.
  - rewrite Hcore, Hopt. reflexivity.
  - rewrite Hcore, Hopt, Hsum. reflexivity.
Qed.

Lemma generate_microservices_bad_state_witness :
  generate_microservices (py "ecommerce_config.json") (py "generated")
    (world_with_config core_only_text) =
  (Raise (KeyError (py "optional")), world_with_config core_only_text).
Proof.
  apply (generate_microservices_bad_state (py "ecommerce_config.json") (py "generated")
           (world_with_config core_only_text) (world_with_config core_only_text)
           core_only_selector (KeyError (py "optional"))).
  - vm_compute. reflexivity.
  - right. eexists. split; [reflexivity|]. left. reflexivity.
Defined.

Lemma one_character_unregistered (c : N) : assoc [c] generators = None.
Proof.
  unfold generators. simpl. unfold pystr_eqb.
  rewrite bool_decide_eq_false_2; [reflexivity|].
  intros H. apply (f_equal (@length N)) in H. vm_compute in H. discriminate.
Qed.

Lemma for_each_characters (dir : pystr) (s : pystr) (w : world) :
  for_each (map (fun c => PStr [c]) s) (dispatch dir) w = (Ok tt, w).
Proof.
  induction s as [|c s IH]; [reflexivity|].
  simpl. unfold bind. rewrite (dispatch_unregistered _ _ _ (one_character_unregistered c)).
  exact IH.
Qed.

(** X17: when the loaded state holds strings under [core] and [optional]
    the loop runs over their characters, none of which names a generation
    unit: the call returns normally, no unit has run and the world is as
    before. *)
Theorem generate_microservices_strings (path dir : pystr) (w w1 : world)
    (me : FeatureSelector) (core optional : pystr) :
  FeatureSelector_init path w = (Ok me, w1) ->
  subscript (selected_features me) (py "core") = Ok (PStr core) ->
  subscript (selected_features me) (py "optional") = Ok (PStr optional) ->
  generate_microservices path dir w = (Ok tt, w).
Proof.
  intros Hinit Hcore Hopt. pose proof (init_reads_only _ _ _ _ Hinit) as ->.
  unfold generate_microservices, bind at 1. rewrite Hinit.
  unfold bind, lift_result. rewrite Hcore, Hopt. simpl iter_sum. cbv iota beta.
  apply for_each_characters.
Qed.

Lemma generate_microservices_strings_witness :
  generate_microservices (py "ecommerce_config.json") (py "generated")
    (world_with_config strings_text) =
  (Ok tt, world_with_config strings_text).
Proof.
  apply (generate_microservices_strings (py "ecommerce_config.json") (py "generated")
           (world_with_config strings_text) (world_with_config strings_text)
           strings_selector (py "inventory") (py "reviews")).
  - vm_compute. reflexivity.
  - reflexivity.
  - reflexivity.
Defined.

Lemma registered_inventory (id : pystr) : registered id = true <-> id = py "inventory".
Proof.
  unfold registered, generators. simpl. unfold pystr_eqb. split.
  - intros H. apply bool_decide_eq_true in H as [cls H].
    case_bool_decide; [congruence | discriminate].
  - intros ->. reflexivity.
Qed.

Lemma filter_registered_absent (ids : list pystr) :
  py "inventory" ∉ ids -> filter (fun id => registered id = true) ids = [].
Proof.
  induction ids as [|x ids IH]; intros Hnot; [reflexivity|].
  apply not_elem_of_cons in Hnot as [Hne Hnot].
  rewrite filter_cons. destruct (decide (registered x = true)) as [E|E].
  - apply registered_inventory in E. congruence.
  - apply IH. exact Hnot.
Qed.

Lemma filter_registered_once (ids : list pystr) :
  NoDup ids -> py "inventory" ∈ ids ->
  filter (fun id => registered id = true) ids = [py "inventory"].
Proof.
  induction ids as [|x ids IH]; intros Hnd Hin; [inversion Hin|].
  apply NoDup_cons in Hnd as [Hx Hnd]. rewrite filter_cons.
  destruct (decide (registered x = true)) as [E|E].
  - apply registered_inventory in E as ->.
    rewrite (filter_registered_absent ids Hx). reflexivity.
  - apply elem_of_cons in Hin as [<-|Hin]; [destruct E; reflexivity|].
    apply IH; assumption.
Qed.

Lemma generate_microservices_one_unit (path dir : pystr) (w w1 : world)
    (me : FeatureSelector) :
  FeatureSelector_init path w = (Ok me, w1) ->
  valid_selection (selected_features me) ->
  generate_microservices path dir w =
    call_on (mkInventoryServiceGenerator None) (generate dir) w.
Proof.
  intros Hinit [_ Hvalid]. pose proof (init_reads_only _ _ _ _ Hinit) as ->.
  destruct (Hvalid (py "core") _ eq_refl) as (core & Hcore & Hnd & _ & Hreq).
  destruct (Hvalid (py "optional") _ eq_refl) as (optional & Hopt & _ & Hknown & _).
  assert (Hin : py "inventory" ∈ core).
  { apply (Hreq (py "inventory")
             (Component (py "Inventory Service") (py "Stock management") true));
      reflexivity. }
  assert (Hout : py "inventory" ∉ optional).
  { intros H. apply Hknown in H as [x Hx]. discriminate. }
  unfold generate_microservices, bind at 1. rewrite Hinit.
  unfold bind at 1, lift_result at 1. rewrite Hcore.
  unfold bind at 1, lift_result at 1. rewrite Hopt.
  unfold bind at 1, lift_result at 1. unfold str_list. simpl iter_sum. cbv iota beta.
  rewrite <- map_app, for_each_registered, filter_app.
  rewrite (filter_registered_once core Hnd Hin), (filter_registered_absent optional Hout).
  simpl. unfold bind.
  rewrite (dispatch_registered dir (py "inventory")
             (GeneratorClass InventoryServiceGenerator _) w eq_refl).
  simpl instance_methods.
  destruct (call_on _ _ w) as [[[]|e] w']; reflexivity.
Qed.

(** X18: for a loaded state that keeps the rules of the catalog, a call of
    [generate_microservices] is exactly one call of [generate] on a new
    inventory unit with the output directory: [inventory] is required, so
    it is in the state once, and no other identifier has a unit. *)
Theorem generate_microservices_valid (path dir : pystr) (w w1 : world)
    (me : FeatureSelector) :
  FeatureSelector_init path w = (Ok me, w1) ->
  valid_selection (selected_features me) ->
  generate_microservices path dir w =
    call_on (mkInventoryServiceGenerator None) (generate dir) w.
Proof. apply generate_microservices_one_unit. Qed.

Lemma generate_microservices_valid_witness :
  generate_microservices (py "ecommerce_config.json") (py "generated") empty_world =
    call_on (mkInventoryServiceGenerator None) (generate (py "generated")) empty_world.
Proof.
  apply (generate_microservices_valid (py "ecommerce_config.json") (py "generated")
           empty_world empty_world fresh_selector).
  - reflexivity.
  - exact default_state_valid.
Defined.


(** ** The inventory unit *)

Lemma generate_eval (dir : pystr) (g : InventoryServiceGenerator) (w : world) :
  generate dir (g, w) =
    let me := mkInventoryServiceGenerator (Some dir) in
    let service_dir := os_path_join dir (py "inventory") in
    match os_makedirs service_dir w with
    | (Raise e, w1) => (Raise e, (me, w1))
    | (Ok _, w1) =>
        match open_w (os_path_join service_dir (py "main.py")) w1 with
        | (Raise e, w2) => (Raise e, (me, w2))
        | (Ok f, w2) =>
            match write f main_py w2 with
            | (Raise e, w3) => (Raise e, (me, w3))
            | (Ok _, w3) =>
                (Ok tt, (me, printed (py "Inventory service generated at: " ++ service_dir) w3))
            end
        end
    end.
Proof.
  unfold generate, InventoryServiceGenerator_generator, generate_main, generate_dockerfile,
    bind, set_self, self, attribute, ret, in_world, print. cbn [fst snd output_dir].
  destruct (os_makedirs (os_path_join dir (py "inventory")) w) as [[[]|e] w1];
    cbn [fst snd]; [|reflexivity].
  destruct (open_w (os_path_join (os_path_join dir (py "inventory")) (py "main.py")) w1)
    as [[f|e] w2]; cbn [fst snd]; [|reflexivity].
  destruct (write f main_py w2) as [[[]|e] w3]; reflexivity.
Qed.

Lemma makedirs_keeps (names : list pystr) :
  forall (t : gmap loc node) (cur : loc) (t' : gmap loc node),
    makedirs_from t cur names = Ok t' ->
    forall l n, t !! l = Some n -> t' !! l = Some n.
Proof.
  induction names as [|nm names IH]; intros t cur t' H l n Hl; simpl in H;
    destruct (t !! cur) as [[|x]|] eqn:E; try discriminate.
  - injection H as <-. exact Hl.
  - injection H as <-. rewrite lookup_insert_ne; [exact Hl|]. congruence.
  - apply (IH _ _ _ H). exact Hl.
  - apply (IH _ _ _ H). rewrite lookup_insert_ne; [exact Hl|]. congruence.
Qed.

Lemma makedirs_walk (names : list pystr) :
  forall (t : gmap loc node) (cur : loc) (t' : gmap loc node),
    makedirs_from t cur names = Ok t' ->
    exists l, walk t' cur names = Ok l /\ t' !! l = Some Dir.
Proof.
  induction names as [|nm names IH]; intros t cur t' H; simpl in H;
    destruct (t !! cur) as [[|x]|] eqn:E; try discriminate.
  - injection H as <-. exists cur. split; [reflexivity | exact E].
  - injection H as <-. exists cur. split; [reflexivity | apply lookup_insert_eq].
  - destruct (IH _ _ _ H) as (l & Hw & Hl). exists l. split; [|exact Hl].
    simpl. rewrite (makedirs_keeps _ _ _ _ H cur Dir E). exact Hw.
  - destruct (IH _ _ _ H) as (l & Hw & Hl). exists l. split; [|exact Hl].
    simpl. rewrite (makedirs_keeps _ _ _ _ H cur Dir (lookup_insert_eq _ _ _)). exact Hw.
Qed.

Lemma makedirs_again (names : list pystr) :
  forall (t : gmap loc node) (cur : loc) (t' t2 : gmap loc node),
    makedirs_from t cur names = Ok t' ->
    (forall l, t' !! l = Some Dir -> t2 !! l = Some Dir) ->
    makedirs_from t2 cur names = Ok t2.
Proof.
  induction names as [|nm names IH]; intros t cur t' t2 H Hsub; simpl in H;
    destruct (t !! cur) as [[|x]|] eqn:E; try discriminate; simpl.
  - injection H as <-. rewrite (Hsub cur E). reflexivity.
  - injection H as <-. rewrite (Hsub cur (lookup_insert_eq _ _ _)). reflexivity.
  - rewrite (Hsub cur (makedirs_keeps _ _ _ _ H cur Dir E)).
    apply (IH _ _ _ _ H Hsub).
  - rewrite (Hsub cur (makedirs_keeps _ _ _ _ H cur Dir (lookup_insert_eq _ _ _))).
    apply (IH _ _ _ _ H Hsub).
Qed.

Lemma resolve_same_tree (w1 w2 : world) (p : pystr) :
  fs w1 = fs w2 -> cwd w1 = cwd w2 -> resolve w1 p = resolve w2 p.
Proof. intros Hfs Hcwd. unfold resolve. rewrite Hfs, Hcwd. reflexivity. Qed.

Lemma os_makedirs_ok (p : pystr) (w w1 : world) :
  os_makedirs p w = (Ok tt, w1) ->
  dir_at w1 p /\
  cwd w1 = cwd w /\ stdout w1 = stdout w /\ budget w1 = budget w /\
  (forall l n, fs w !! l = Some n -> fs w1 !! l = Some n) /\
  (forall w2, cwd w2 = cwd w ->
     (forall l, fs w1 !! l = Some Dir -> fs w2 !! l = Some Dir) ->
     os_makedirs p w2 = (Ok tt, w2)).
Proof.
  unfold os_makedirs, dir_at, resolve. destruct p as [|c p]; [discriminate|].
  destruct (makedirs_from (fs w) (if c =? 47 then [] else cwd w) (split_slash (c :: p)))
    as [t|e] eqn:Hm; [|discriminate].
  intros H. apply pair_equal_spec in H as [_ <-]. unfold set_fs. cbn [fs cwd stdout budget].
  split; [apply (makedirs_walk _ _ _ _ Hm)|].
  split; [reflexivity|]. split; [reflexivity|]. split; [reflexivity|].
  split; [apply (makedirs_keeps _ _ _ _ Hm)|].
  intros w2 Hcwd Hsub. rewrite <- Hcwd in Hm.
  rewrite (makedirs_again _ _ _ _ (fs w2) Hm Hsub). destruct w2; reflexivity.
Qed.

Lemma os_makedirs_raise (p : pystr) (w w1 : world) (e : exn) :
  os_makedirs p w = (Raise e, w1) -> w1 = w.
Proof.
  unfold os_makedirs. destruct p as [|c p]; [intros [= _ <-]; reflexivity|].
  destruct (makedirs_from _ _ _); intros H; apply pair_equal_spec in H as [H <-];
    [discriminate | reflexivity].
Qed.

Lemma open_w_inv (p : pystr) (w w2 : world) (f : loc) :
  open_w p w = (Ok f, w2) ->
  resolve w p = Ok f /\ fs w !! f <> Some Dir /\ w2 = written f [] w.
Proof.
  unfold open_w. destruct (resolve w p) as [l|e]; [|discriminate].
  destruct (fs w !! l) as [[|x]|] eqn:E; [discriminate| |];
    intros H; apply pair_equal_spec in H as [[= <-] <-];
    (split; [reflexivity|]); (split; [congruence | reflexivity]).
Qed.

Lemma open_w_raise (p : pystr) (w w2 : world) (e : exn) :
  open_w p w = (Raise e, w2) -> w2 = w.
Proof.
  unfold open_w. destruct (resolve w p) as [l|e0]; [|intros [= _ <-]; reflexivity].
  destruct (fs w !! l) as [[|x]|]; intros H; apply pair_equal_spec in H as [H <-];
    [reflexivity | discriminate ..].
Qed.

Lemma write_inv (f : loc) (text : pystr) (w w3 : world) (r : result unit) :
  write f text w = (r, w3) ->
  cwd w3 = cwd w /\ stdout w3 = stdout w /\
  (budget w = None -> budget w3 = None) /\
  exists sent, fs w3 = append_text f sent (fs w) /\ (r = Ok tt -> sent = text).
Proof.
  unfold write. destruct (budget w) as [b|] eqn:Hb.
  - destruct (length text <=? b)%nat; intros H; apply pair_equal_spec in H as [<- <-];
      (split; [reflexivity|]); (split; [reflexivity|]); (split; [discriminate|]);
      eexists; (split; [reflexivity|]); [reflexivity | discriminate].
  - intros H; apply pair_equal_spec in H as [<- <-].
    split; [reflexivity|]. split; [reflexivity|]. split; [intros _; exact Hb|].
    eexists. split; reflexivity.
Qed.

(** *** Paths *)

Lemma split_slash_cons (p : pystr) : exists h r, split_slash p = h :: r.
Proof.
  induction p as [|c p (h & r & IH)]; simpl; [eauto|].
  destruct (c =? 47); [eauto|]. rewrite IH. eauto.
Qed.

Lemma split_slash_app (a b : pystr) :
  split_slash (a ++ 47 :: b) = split_slash a ++ split_slash b.
Proof.
  induction a as [|c a IH]; [reflexivity|].
  simpl. destruct (c =? 47); [rewrite IH; reflexivity|].
  rewrite IH. destruct (split_slash_cons a) as (h & r & ->). reflexivity.
Qed.

Lemma walk_last (t : gmap loc node) (names : list pystr) (nm : pystr) :
  forall cur l, walk t cur (names ++ [nm]) = Ok l -> exists cur', l = step cur' nm.
Proof.
  induction names as [|x names IH]; intros cur l; simpl.
  - destruct (t !! cur) as [[|y]|]; try discriminate. intros [= <-]. eauto.
  - destruct (t !! cur) as [[|y]|]; try discriminate. apply IH.
Qed.

Lemma ends_with_char_app (c : N) (a b : pystr) :
  b <> [] -> ends_with_char c (a ++ b) = ends_with_char c b.
Proof.
  intros Hb. induction a as [|x a IH]; [reflexivity|].
  simpl. destruct (a ++ b) as [|y t] eqn:E; [|exact IH].
  destruct a; [simpl in E; congruence | discriminate].
Qed.

Lemma service_dir_shape (dir : pystr) :
  exists a, service_dir dir = a ++ py "inventory".
Proof.
  unfold service_dir, os_path_join.
  replace (starts_with [47] (py "inventory")) with false by reflexivity.
  destruct (pystr_eqb dir [] || ends_with_char 47 dir).
  - exists dir. reflexivity.
  - exists (dir ++ [47]). rewrite <- app_assoc. reflexivity.
Qed.

Lemma main_file_eq (dir : pystr) :
  main_file dir = service_dir dir ++ 47 :: py "main.py".
Proof.
  unfold main_file. destruct (service_dir_shape dir) as [a ->]. unfold os_path_join.
  replace (starts_with [47] (py "main.py")) with false by reflexivity.
  rewrite ends_with_char_app by discriminate.
  replace (ends_with_char 47 (py "inventory")) with false by reflexivity.
  replace (pystr_eqb (a ++ py "inventory") []) with false; [reflexivity|].
  symmetry. apply pystr_eqb_neq. destruct a; discriminate.
Qed.

Lemma main_file_loc (dir : pystr) (w : world) (f : loc) :
  resolve w (main_file dir) = Ok f -> head f = Some (py "main.py").
Proof.
  rewrite main_file_eq. unfold resolve.
  destruct (service_dir dir ++ 47 :: py "main.py") as [|c p] eqn:E; [discriminate|].
  rewrite <- E, split_slash_app.
  replace (split_slash (py "main.py")) with [py "main.py"] by reflexivity.
  intros H. apply walk_last in H as [cur' ->]. reflexivity.
Qed.

(** *** What a run of the unit leaves *)

Lemma generate_steps (dir : pystr) (g g' : InventoryServiceGenerator) (w w' : world)
    (r : result unit) :
  generate dir (g, w) = (r, (g', w')) ->
  g' = mkInventoryServiceGenerator (Some dir) /\
  ((exists e, r = Raise e /\ w' = w) \/
   (exists wa,
      os_makedirs (service_dir dir) w = (Ok tt, wa) /\
      ((exists e, r = Raise e /\ w' = wa) \/
       (exists f sent,
          resolve wa (main_file dir) = Ok f /\
          fs wa !! f <> Some Dir /\
          cwd w' = cwd wa /\
          (budget w = None -> budget w' = None) /\
          fs w' = <[f := File sent]> (fs wa) /\
          (r = Ok tt ->
           sent = main_py /\
           stdout w' =
             stdout w ++ [py "Inventory service generated at: " ++ service_dir dir]))))).
Proof.
  rewrite generate_eval. cbv zeta. fold (service_dir dir). fold (main_file dir).
  destruct (os_makedirs (service_dir dir) w) as [[[]|e] wa] eqn:Hmk.
  - destruct (open_w (main_file dir) wa) as [[f|e] wb] eqn:Hopen.
    + apply open_w_inv in Hopen as (Hres & Hnd & ->).
      destruct (os_makedirs_ok _ _ _ Hmk) as (_ & _ & Hout & Hba & _).
      destruct (write f main_py (written f [] wa)) as [[[]|e] wc] eqn:Hw;
        apply write_inv in Hw as (Hc & Ho & Hbw & sent & Hfs & Hsent);
        intros H; apply pair_equal_spec in H as [<- H];
        apply pair_equal_spec in H as [<- <-];
        (split; [reflexivity|]); right; exists wa; (split; [reflexivity|]); right;
        exists f, sent; (split; [exact Hres|]); (split; [exact Hnd|]).
      * rewrite (Hsent eq_refl) in *. split; [exact Hc|].
        split; [intros Hb; apply Hbw; simpl; congruence|]. split.
        -- simpl. rewrite Hfs. apply append_text_written.
        -- intros _. split; [reflexivity|]. simpl. rewrite Ho. simpl. rewrite Hout.
           reflexivity.
      * split; [exact Hc|].
        split; [intros Hb; apply Hbw; simpl; congruence|]. split; [|discriminate].
        rewrite Hfs. unfold append_text, written. simpl. rewrite lookup_insert_eq.
        simpl. apply insert_insert_eq.
    + apply open_w_raise in Hopen as ->.
      intros H; apply pair_equal_spec in H as [<- H]; apply pair_equal_spec in H as [<- <-].
      split; [reflexivity|]. right. exists wa. split; [reflexivity|]. left. eauto.
  - apply os_makedirs_raise in Hmk as ->.
    intros H; apply pair_equal_spec in H as [<- H]; apply pair_equal_spec in H as [<- <-].
    split; [reflexivity|]. left. eauto.
Qed.

(** X19: when [generate] returns, the unit remembers the output directory,
    the directory of the service exists, [main.py] in it holds exactly the
    program text, one line has been printed and the working directory is
    the same. *)
Theorem generate_postcondition (dir : pystr) (g g' : InventoryServiceGenerator)
    (w w' : world) :
  generate dir (g, w) = (Ok tt, (g', w')) ->
  output_dir g' = Some dir /\
  dir_at w' (service_dir dir) /\
  file_at w' (main_file dir) = Some main_py /\
  stdout w' = stdout w ++ [py "Inventory service generated at: " ++ service_dir dir] /\
  cwd w' = cwd w.
Proof.
  intros H. apply generate_steps in H as [-> [(e & He & _) | (wa & Hmk & Hrun)]];
    [discriminate|].
  destruct Hrun as [(e & He & _) | (f & sent & Hres & Hnd & Hcwd & Hbud & Hfs & Hok)];
    [discriminate|].
  destruct (Hok eq_refl) as [-> Hout].
  destruct (os_makedirs_ok _ _ _ Hmk) as ((l & Hl & Hdir) & Hcwda & _).
  split; [reflexivity|]. split; [|split; [|split]].
  - exists l. split.
    + rewrite (resolve_same_tree w' (written f main_py wa)) by assumption.
      apply resolve_insert_file; assumption.
    + rewrite Hfs. rewrite lookup_insert_ne by congruence. exact Hdir.
  - rewrite (file_at_same_tree w' (written f main_py wa)) by assumption.
    apply file_at_written; assumption.
  - exact Hout.
  - congruence.
Qed.

Lemma generate_postcondition_witness :
  let run := generate (py "generated") (mkInventoryServiceGenerator None, empty_world) in
  fst run = Ok tt /\
  output_dir (fst (snd run)) = Some (py "generated") /\
  dir_at (snd (snd run)) (service_dir (py "generated")) /\
  file_at (snd (snd run)) (main_file (py "generated")) = Some main_py /\
  stdout (snd (snd run)) =
    stdout empty_world ++
    [py "Inventory service generated at: " ++ service_dir (py "generated")] /\
  cwd (snd (snd run)) = cwd empty_world.
Proof.
  assert (Hend : fst (generate (py "generated")
                        (mkInventoryServiceGenerator None, empty_world)) = Ok tt)
    by (vm_compute; reflexivity).
  destruct (generate (py "generated") (mkInventoryServiceGenerator None, empty_world))
    as [r [g' w']] eqn:Hrun.
  simpl in Hend. subst r. split; [reflexivity|].
  apply (generate_postcondition (py "generated") (mkInventoryServiceGenerator None) g'
           empty_world w' Hrun).
Defined.

(** X20: however [generate] ends, it removes and replaces nothing but one
    file: every directory of the tree is still a directory, and every file
    whose name is not [main.py] holds the text it held. *)
Theorem generate_frame (dir : pystr) (g g' : InventoryServiceGenerator)
    (w w' : world) (r : result unit) :
  generate dir (g, w) = (r, (g', w')) ->
  (forall l, fs w !! l = Some Dir -> fs w' !! l = Some Dir) /\
  (forall l text,
     fs w !! l = Some (File text) -> head l <> Some (py "main.py") ->
     fs w' !! l = Some (File text)).
Proof.
  intros H. apply generate_steps in H as [_ [(e & _ & ->) | (wa & Hmk & Hrun)]];
    [split; auto|].
  destruct (os_makedirs_ok _ _ _ Hmk) as (_ & _ & _ & _ & Hkeep & _).
  destruct Hrun as [(e & _ & ->) | (f & sent & Hres & Hnd & _ & _ & Hfs & _)].
  - split; intros; apply Hkeep; assumption.
  - apply main_file_loc in Hres. rewrite Hfs. split.
    + intros l Hl. rewrite lookup_insert_ne; [apply Hkeep; exact Hl|].
      intros ->. apply Hnd. apply Hkeep. exact Hl.
    + intros l text Hl Hname. rewrite lookup_insert_ne; [apply Hkeep; exact Hl|].
      intros ->. contradiction.
Qed.

Lemma generate_frame_witness :
  let run := generate (py "generated")
               (mkInventoryServiceGenerator None, world_with_config core_only_text) in
  (forall l, fs (world_with_config core_only_text) !! l = Some Dir ->
             fs (snd (snd run)) !! l = Some Dir) /\
  (forall l text,
     fs (world_with_config core_only_text) !! l = Some (File text) ->
     head l <> Some (py "main.py") ->
     fs (snd (snd run)) !! l = Some (File text)).
Proof.
  destruct (generate (py "generated")
              (mkInventoryServiceGenerator None, world_with_config core_only_text))
    as [r [g' w']] eqn:Hrun.
  apply (generate_frame (py "generated") (mkInventoryServiceGenerator None) g'
           (world_with_config core_only_text) w' r Hrun).
Defined.

(** X21: on a device without a limit a second run of [generate] with the
    same output directory returns as well and changes nothing but the
    standard output, where it prints its line again. *)
Theorem generate_again (dir : pystr) (g g1 : InventoryServiceGenerator) (w w1 : world) :
  budget w = None ->
  generate dir (g, w) = (Ok tt, (g1, w1)) ->
  generate dir (g1, w1) =
    (Ok tt, (g1, printed (py "Inventory service generated at: " ++ service_dir dir) w1)).
Proof.
  intros Hb H.
  apply generate_steps in H as [-> [(e & He & _) | (wa & Hmk & Hrun)]]; [discriminate|].
  destruct Hrun as [(e & He & _) | (f & sent & Hres & Hnd & Hcwd & Hbud & Hfs & Hok)];
    [discriminate|].
  destruct (Hok eq_refl) as [-> Hout].
  destruct (os_makedirs_ok _ _ _ Hmk) as (_ & Hcwda & _ & Hba & _ & Hagain).
  pose proof (Hbud Hb) as Hb1.
  assert (Hf1 : fs w1 !! f = Some (File main_py))
    by (rewrite Hfs; apply lookup_insert_eq).
  assert (Hres1 : resolve w1 (main_file dir) = Ok f).
  { rewrite (resolve_same_tree w1 (written f main_py wa)) by assumption.
    apply resolve_insert_file; assumption. }
  rewrite generate_eval. cbv zeta. fold (service_dir dir). fold (main_file dir).
  rewrite (Hagain w1) by
    (congruence ||
     (intros l Hl; rewrite Hfs; rewrite lookup_insert_ne; [exact Hl | congruence])).
  rewrite (open_w_ok w1 (main_file dir) f Hres1) by congruence.
  unfold write. replace (budget (written f [] w1)) with (@None nat) by (symmetry; exact Hb1).
  rewrite append_text_written.
  replace (set_fs (fs (written f main_py w1)) (written f [] w1)) with w1; [reflexivity|].
  unfold written, set_fs. simpl. rewrite insert_id by exact Hf1. destruct w1; reflexivity.
Qed.

Lemma generate_again_witness :
  let run := generate (py "generated") (mkInventoryServiceGenerator None, empty_world) in
  fst run = Ok tt /\
  generate (py "generated") (snd run) =
    (Ok tt, (fst (snd run),
             printed (py "Inventory service generated at: " ++ service_dir (py "generated"))
               (snd (snd run)))).
Proof.
  assert (Hend : fst (generate (py "generated")
                        (mkInventoryServiceGenerator None, empty_world)) = Ok tt)
    by (vm_compute; reflexivity).
  destruct (generate (py "generated") (mkInventoryServiceGenerator None, empty_world))
    as [r [g' w']] eqn:Hrun.
  simpl in Hend. subst r. split; [reflexivity|].
  apply (generate_again (py "generated") (mkInventoryServiceGenerator None) g'
           empty_world w' eq_refl Hrun).
Defined.


(** ** What a session changes, and when it returns *)

Section SessionTree.

Variable float_repr : pystr -> pystr.

Lemma save_config_tree (me me' : FeatureSelector) (w w' : world) (r : result unit) :
  save_config float_repr (me, w) = (r, (me', w')) ->
  me' = me /\ cwd w' = cwd w /\
  (fs w' = fs w \/
   exists l text,
     resolve w (config_file me) = Ok l /\ fs w !! l <> Some Dir /\
     fs w' = <[l := File text]> (fs w)).
Proof.
  intros H.
  destruct (resolve w (config_file me)) as [l0|e] eqn:Hr.
  - assert (Hcase : fs w !! l0 = Some Dir \/ fs w !! l0 <> Some Dir)
      by (destruct (fs w !! l0) as [[|t]|]; [left; reflexivity | right; discriminate ..]).
    destruct Hcase as [Hd|Hd].
    + rewrite (save_config_on_directory float_repr me w l0 Hr Hd) in H.
      apply pair_equal_spec in H as [_ H]. apply pair_equal_spec in H as [<- <-].
      auto.
    + rewrite (save_config_eval float_repr me w l0 Hr Hd) in H. cbv zeta in H.
      destruct (budget w) as [b|];
        [destruct (length (json_dumps float_repr (selected_features me)) <=? b)%nat|];
        apply pair_equal_spec in H as [_ H]; apply pair_equal_spec in H as [<- <-];
        (split; [reflexivity|]); (split; [reflexivity|]); right;
        eexists _, _; (split; [reflexivity|]); (split; [exact Hd|]); reflexivity.
  - rewrite (save_config_unresolved float_repr me w e Hr) in H.
    apply pair_equal_spec in H as [_ H]. apply pair_equal_spec in H as [<- <-].
    auto.
Qed.

Lemma session_tree (inputs : list pystr) :
  forall (me me' : FeatureSelector) (w w' : world) (r : session_end),
    interactive_cli float_repr inputs (me, w) = (r, (me', w')) ->
    cwd w' = cwd w /\
    forall l, resolve w (config_file me) <> Ok l -> fs w' !! l = fs w !! l.
Proof.
  induction inputs as [|line rest IH]; intros me me' w w' r H.
  - rewrite interactive_cli_nil in H.
    destruct ((display_features ;; in_world print_commands) (me, w))
      as [[[]|e] [me1 w1]] eqn:Hmenu;
      apply menu_quiet in Hmenu as (-> & Hc & Hf & Hb);
      apply pair_equal_spec in H as [_ H]; apply pair_equal_spec in H as [<- <-];
      rewrite Hf; auto.
  - rewrite interactive_cli_cons in H.
    destruct ((display_features ;; in_world print_commands) (me, w))
      as [[[]|e] [me1 w1]] eqn:Hmenu;
      apply menu_quiet in Hmenu as (-> & Hc & Hf & Hb);
      [|apply pair_equal_spec in H as [_ H]; apply pair_equal_spec in H as [<- <-];
        rewrite Hf; auto].
    assert (Hnext : forall me2 w2,
              config_file me2 = config_file me -> cwd w2 = cwd w1 -> fs w2 = fs w1 ->
              interactive_cli float_repr rest (me2, w2) = (r, (me', w')) ->
              cwd w' = cwd w /\
              forall l, resolve w (config_file me) <> Ok l -> fs w' !! l = fs w !! l).
    { intros me2 w2 Hp Hc2 Hf2 Hrun. destruct (IH _ _ _ _ _ Hrun) as [Hc' Hf'].
      split; [congruence|]. intros l Hl. rewrite Hf'; [congruence|].
      rewrite Hp, (resolve_same_tree w2 w) by congruence. exact Hl. }
    assert (Hstop : forall b,
              (b, (me, w1)) = (r, (me', w')) ->
              cwd w' = cwd w /\
              forall l, resolve w (config_file me) <> Ok l -> fs w' !! l = fs w !! l).
    { intros b Hrun. apply pair_equal_spec in Hrun as [_ Hrun].
      apply pair_equal_spec in Hrun as [<- <-]. rewrite Hf. auto. }
    assert (Hsave : forall (k : FeatureSelector * world -> session_end * (FeatureSelector * world)),
              (forall w2, cwd w2 = cwd w ->
                 fs w2 = fs w \/
                 (exists l text, resolve w (config_file me) = Ok l /\
                    fs w !! l <> Some Dir /\ fs w2 = <[l := File text]> (fs w)) ->
                 k (me, w2) = (r, (me', w')) ->
                 cwd w' = cwd w /\
                 forall l, resolve w (config_file me) <> Ok l -> fs w' !! l = fs w !! l) ->
              match save_config float_repr (me, w1) with
              | (Raise e, s2) => (Raised e, s2)
              | (Ok _, s2) => k s2
              end = (r, (me', w')) ->
              cwd w' = cwd w /\
              forall l, resolve w (config_file me) <> Ok l -> fs w' !! l = fs w !! l).
    { intros k Hk Hrun.
      destruct (save_config float_repr (me, w1)) as [[[]|e] [me2 w2]] eqn:Hs;
        apply save_config_tree in Hs as (-> & Hc2 & Htree);
        rewrite (resolve_same_tree w1 w) in Htree by assumption; rewrite Hf in Htree.
      - apply (Hk w2); [congruence | exact Htree | exact Hrun].
      - apply pair_equal_spec in Hrun as [_ Hrun].
        apply pair_equal_spec in Hrun as [<- <-]. split; [congruence|].
        intros l Hl. destruct Htree as [-> | (l0 & text & Hr & _ & ->)]; [reflexivity|].
        apply lookup_insert_ne. congruence. }
    assert (Hafter : forall w2, cwd w2 = cwd w ->
              fs w2 = fs w \/
              (exists l text, resolve w (config_file me) = Ok l /\
                 fs w !! l <> Some Dir /\ fs w2 = <[l := File text]> (fs w)) ->
              interactive_cli float_repr rest (me, w2) = (r, (me', w')) ->
              cwd w' = cwd w /\
              forall l, resolve w (config_file me) <> Ok l -> fs w' !! l = fs w !! l).
    { intros w2 Hc2 Htree Hrun. destruct (IH _ _ _ _ _ Hrun) as [Hc' Hf'].
      split; [congruence|]. intros l Hl.
      destruct Htree as [Hsame | (l0 & text & Hr & Hd & Hins)].
      - rewrite Hf'; [congruence|]. rewrite (resolve_same_tree w2 w) by assumption. exact Hl.
      - rewrite Hf'.
        + rewrite Hins. apply lookup_insert_ne. congruence.
        + rewrite (resolve_same_tree w2 (written l0 text w)) by assumption.
          unfold written. rewrite (resolve_insert_file w l0 text _ l0 Hd Hr). congruence. }
    destruct (split (strip line)) as [|c0 args]; [apply (Hnext me w1); auto|].
    destruct (pystr_eqb c0 (py "exit")); [apply (Hstop _ H)|].
    destruct (pystr_eqb c0 (py "save")).
    { apply (Hsave (interactive_cli float_repr rest)); [exact Hafter | exact H]. }
    destruct (pystr_eqb c0 (py "done")).
    { apply (Hsave (fun s2 => (Returned true, s2))); [|exact H].
      intros w2 Hc2 Htree Hrun. apply pair_equal_spec in Hrun as [_ Hrun].
      apply pair_equal_spec in Hrun as [<- <-]. split; [exact Hc2|].
      intros l Hl. destruct Htree as [-> | (l0 & text & Hr & _ & ->)]; [reflexivity|].
      apply lookup_insert_ne. congruence. }
    assert (Hinvalid :
              (let (_, s2) := in_world (print (py "Invalid command. Try again.")) (me, w1) in
               interactive_cli float_repr rest s2) = (r, (me', w')) ->
              cwd w' = cwd w /\
              forall l, resolve w (config_file me) <> Ok l -> fs w' !! l = fs w !! l).
    { unfold in_world, print. simpl. apply Hnext; reflexivity. }
    destruct (if pystr_eqb c0 (py "toggle") then args else [])
      as [|category [|feature_id [|x l]]]; try (apply Hinvalid; exact H).
    destruct (toggle_feature category feature_id (me, w1)) as [[b|e] [me2 w2]] eqn:Ht;
      apply toggle_feature_files in Ht as (Hp2 & Hc2 & Hf2 & Hb2).
    + apply (Hnext me2 w2); auto.
    + apply pair_equal_spec in H as [_ H]. apply pair_equal_spec in H as [<- <-].
      split; [congruence|]. intros l Hl. congruence.
Qed.

(** X22: however an interactive session ends, the working directory is the
    same and every location of the file system other than the one the path
    of the configuration leads to holds what it held: a session creates,
    changes and removes nothing but the configuration file. *)
Theorem session_frame (inputs : list pystr)
    (me me' : FeatureSelector) (w w' : world) (r : session_end) :
  interactive_cli float_repr inputs (me, w) = (r, (me', w')) ->
  cwd w' = cwd w /\
  forall l, resolve w (config_file me) <> Ok l -> fs w' !! l = fs w !! l.
Proof. apply session_tree. Qed.

End SessionTree.

Lemma session_frame_witness :
  let s' := snd (interactive_cli repr_as_read
                   [py "toggle optional admin"; py "save"; py "done"]
                   (fresh_selector, empty_world)) in
  cwd (snd s') = cwd empty_world /\
  forall l, resolve empty_world (config_file fresh_selector) <> Ok l ->
            fs (snd s') !! l = fs empty_world !! l.
Proof.
  destruct (interactive_cli repr_as_read
              [py "toggle optional admin"; py "save"; py "done"]
              (fresh_selector, empty_world)) as [r [me' w']] eqn:Hrun.
  apply (session_frame repr_as_read [py "toggle optional admin"; py "save"; py "done"]
           fresh_selector me' empty_world w' r Hrun).
Defined.

Section SessionReturns.

Variable float_repr : pystr -> pystr.

Lemma session_done_step (post : list pystr) (done_line : pystr) (pre : list pystr) :
  forall (me : FeatureSelector) (w : world) (l : loc),
    valid_selection (selected_features me) ->
    resolve w (config_file me) = Ok l ->
    fs w !! l <> Some Dir ->
    budget w = None ->
    forallb (fun line => negb (command_is (py "exit") line || command_is (py "done") line))
      pre = true ->
    command_is (py "done") done_line = true ->
    exists me' w',
      interactive_cli float_repr (pre ++ done_line :: post) (me, w) =
        (Returned true, (me', w')).
Proof.
  induction pre as [|line pre IH]; intros me w l Hvalid Hres Hnd Hbud Hpre Hdone.
  - simpl app. rewrite interactive_cli_cons.
    destruct (menu_valid me w (proj1 Hvalid)) as [w1 Hmenu]. rewrite Hmenu.
    apply menu_quiet in Hmenu as (_ & Hc & Hf & Hb).
    unfold command_is in Hdone.
    destruct (split (strip done_line)) as [|c0 args]; [discriminate|].
    apply pystr_eqb_eq in Hdone as ->.
    replace (pystr_eqb (py "done") (py "exit")) with false by reflexivity.
    replace (pystr_eqb (py "done") (py "save")) with false by reflexivity.
    rewrite pystr_eqb_refl.
    rewrite (save_config_eval float_repr me w1 l)
      by (try rewrite (resolve_same_tree w1 w) by assumption; congruence).
    cbv zeta. rewrite Hb, Hbud. eauto.
  - simpl app. rewrite interactive_cli_cons.
    destruct (menu_valid me w (proj1 Hvalid)) as [w1 Hmenu]. rewrite Hmenu.
    apply menu_quiet in Hmenu as (_ & Hc & Hf & Hb).
    simpl in Hpre. apply andb_true_iff in Hpre as [Hline Hpre].
    apply negb_true_iff, orb_false_iff in Hline as [Hexit Hnotdone].
    unfold command_is in Hexit, Hnotdone.
    assert (Hres1 : resolve w1 (config_file me) = Ok l)
      by (rewrite (resolve_same_tree w1 w) by assumption; exact Hres).
    assert (Hnd1 : fs w1 !! l <> Some Dir) by congruence.
    assert (Hbud1 : budget w1 = None) by congruence.
    destruct (split (strip line)) as [|c0 args];
      [apply (IH me w1 l); assumption|].
    rewrite Hexit, Hnotdone.
    destruct (pystr_eqb c0 (py "save")).
    { rewrite (save_config_eval float_repr me w1 l Hres1 Hnd1). cbv zeta. rewrite Hbud1.
      apply (IH me _ l); try assumption.
      - rewrite (resolve_same_tree _ (written l (json_dumps float_repr (selected_features me)) w1))
          by reflexivity.
        unfold written. apply resolve_insert_file; assumption.
      - simpl. rewrite lookup_insert_eq. discriminate. }
    destruct (if pystr_eqb c0 (py "toggle") then args else [])
      as [|category [|feature_id [|x l0]]];
      try (unfold in_world, print; simpl;
           apply (IH me _ l); try assumption;
           rewrite (resolve_same_tree _ w1) by reflexivity; exact Hres1).
    destruct (toggle_feature_valid_step me w1 category feature_id Hvalid)
      as (b & me2 & w2 & Ht & Hvalid2).
    rewrite Ht. apply toggle_feature_files in Ht as (Hp2 & Hc2 & Hf2 & Hb2).
    apply (IH me2 w2 l); try assumption.
    + rewrite Hp2, (resolve_same_tree w2 w1) by assumption. exact Hres1.
    + congruence.
    + congruence.
Qed.

(** X23: from a state that keeps the rules of the catalog, with a path of
    the configuration that [open] accepts and a device without a limit, a
    session returns [True] at the first line whose command is [done],
    whatever the lines before it are, as long as none of them has the
    command [exit]: saving succeeds each time it is asked for and no other
    command can end the session. *)
Theorem session_returns_true (pre post : list pystr) (done_line : pystr)
    (me : FeatureSelector) (w : world) (l : loc) :
  valid_selection (selected_features me) ->
  resolve w (config_file me) = Ok l ->
  fs w !! l <> Some Dir ->
  budget w = None ->
  forallb (fun line => negb (command_is (py "exit") line || command_is (py "done") line))
    pre = true ->
  command_is (py "done") done_line = true ->
  exists me' w',
    interactive_cli float_repr (pre ++ done_line :: post) (me, w) =
      (Returned true, (me', w')).
Proof. apply session_done_step. Qed.

End SessionReturns.

Lemma session_returns_true_witness :
  exists me' w',
    interactive_cli repr_as_read
      ([py "toggle optional admin"; py "save"; py "help"; py ""] ++
       py "  done  now" :: [py "exit"])
      (fresh_selector, empty_world) = (Returned true, (me', w')).
Proof.
  apply (session_returns_true repr_as_read
           [py "toggle optional admin"; py "save"; py "help"; py ""] [py "exit"]
           (py "  done  now") fresh_selector empty_world [py "ecommerce_config.json"]).
  - exact default_state_valid.
  - reflexivity.
  - vm_compute. discriminate.
  - reflexivity.
  - vm_compute. reflexivity.
  - vm_compute. reflexivity.
Defined.


(** ** From the selection to the generated service *)

Lemma init_config_file (path : pystr) (w w' : world) (me : FeatureSelector) :
  FeatureSelector_init path w = (Ok me, w') -> config_file me = path.
Proof.
  unfold FeatureSelector_init.
  destruct (_load_config (mkFeatureSelector path PNone, w)) as [[v|e] [me0 w0]] eqn:Hload;
    [|discriminate].
  assert (Hme : me0 = mkFeatureSelector path PNone).
  { revert Hload.
    unfold _load_config, bind, self, in_world, json_load, lift_result,
      os_path_exists, read_text. simpl.
    destruct (resolve w path) as [l|e] eqn:Hr; simpl.
    - destruct (bool_decide (is_Some (fs w !! l))); simpl.
      + unfold bind. rewrite Hr. destruct (fs w !! l) as [[|text]|]; simpl;
          intros H; apply pair_equal_spec in H as [_ H];
          apply pair_equal_spec in H as [<- _]; reflexivity.
      + intros H; apply pair_equal_spec in H as [_ H];
          apply pair_equal_spec in H as [<- _]; reflexivity.
    - intros H; apply pair_equal_spec in H as [_ H];
        apply pair_equal_spec in H as [<- _]; reflexivity. }
  subst me0. intros H. apply pair_equal_spec in H as [[= <-] _]. reflexivity.
Qed.

Section MainFacts.

Variable float_repr : pystr -> pystr.

(** X24: the two runs of the program compose. When [main] without
    [--generate] starts from a configuration that keeps the rules of the
    catalog and its session returns [True], it returns after its three
    closing lines; and a run of [main] with [--generate] and the same
    configuration path in the world it leaves is exactly one call of
    [generate] on a new inventory unit with the output directory, whatever
    was toggled in the session. *)
Theorem main_configure_then_generate (args : Args.t) (inputs : list pystr)
    (w w0 w1 : world) (me me' : FeatureSelector) :
  Args.generate args = false ->
  FeatureSelector_init (Args.config args) w = (Ok me, w0) ->
  valid_selection (selected_features me) ->
  interactive_cli float_repr inputs (me, w0) = (Returned true, (me', w1)) ->
  main float_repr args inputs w = (Exited, completed (Args.config args) w1) /\
  forall (dir : pystr) (inputs' : list pystr),
    main float_repr (Args.mk (Args.config args) true dir) inputs'
      (completed (Args.config args) w1) =
    match call_on (mkInventoryServiceGenerator None) (generate dir)
            (completed (Args.config args) w1) with
    | (Ok _, w2) => (Exited, w2)
    | (Raise e, w2) => (Uncaught e, w2)
    end.
Proof.
  intros Hmode Hinit Hvalid Hrun. split.
  - unfold main. rewrite Hmode, Hinit, Hrun. reflexivity.
  - intros dir inputs'. unfold main. cbn [Args.generate Args.config Args.output_dir].
    destruct (session_valid_step float_repr _ _ _ _ _ _ Hvalid Hrun) as (Hvalid' & Hpath & _).
    pose proof (session_done_file float_repr _ _ _ _ _ Hrun) as Hfile.
    rewrite Hpath, (init_config_file _ _ _ _ Hinit) in Hfile.
    assert (Hinit' : FeatureSelector_init (Args.config args) (completed (Args.config args) w1)
                     = (Ok (mkFeatureSelector (Args.config args) (selected_features me')),
                        completed (Args.config args) w1)).
    { rewrite (init_existing _ _ (json_dumps float_repr (selected_features me'))).
      - rewrite (json_loads_dumps float_repr _ (valid_storable _ Hvalid')). reflexivity.
      - rewrite (file_at_same_tree _ w1) by reflexivity. exact Hfile. }
    rewrite (generate_microservices_one_unit _ dir _ _ _ Hinit' Hvalid'). reflexivity.
Qed.

End MainFacts.

Lemma main_configure_then_generate_witness :
  let run := interactive_cli repr_as_read [py "toggle optional reviews"; py "done"]
               (fresh_selector, empty_world) in
  fst run = Returned true /\
  main repr_as_read default_args [py "toggle optional reviews"; py "done"] empty_world =
    (Exited, completed (Args.config default_args) (snd (snd run))) /\
  forall (dir : pystr) (inputs' : list pystr),
    main repr_as_read (Args.mk (Args.config default_args) true dir) inputs'
      (completed (Args.config default_args) (snd (snd run))) =
    match call_on (mkInventoryServiceGenerator None) (generate dir)
            (completed (Args.config default_args) (snd (snd run))) with
    | (Ok _, w2) => (Exited, w2)
    | (Raise e, w2) => (Uncaught e, w2)
    end.
Proof.
  assert (Hend : fst (interactive_cli repr_as_read [py "toggle optional reviews"; py "done"]
                        (fresh_selector, empty_world)) = Returned true)
    by (vm_compute; reflexivity).
  destruct (interactive_cli repr_as_read [py "toggle optional reviews"; py "done"]
              (fresh_selector, empty_world)) as [r [me' w']] eqn:Hrun.
  simpl in Hend. subst r. split; [reflexivity|].
  apply (main_configure_then_generate repr_as_read default_args
           [py "toggle optional reviews"; py "done"]
           empty_world empty_world w' fresh_selector me').
  - reflexivity.
  - reflexivity.
  - exact default_state_valid.
  - exact Hrun.
Defined.
